(** * A shallow embedding of [tracer.py] (the FunctionTracer of the PyCharm
      debug plugin) and the properties of its statistics, opaque-function
      wrappers and trace-hook chain.

    Conventions of the embedding:
    - a Python [float] is an IEEE binary64 value, Rocq's primitive [float];
      the readings of [time.perf_counter()] are arguments of the operations
      that take them;
    - a Python [int] is a [Z];
    - function objects are compared and hashed by identity: a [Callable] is
      the identity of a function object of the program, and its attributes
      and behaviour are read from the [Host]; the functions handed to
      [enable] and [update_functions] are such objects;
    - a [set] of functions is a list without duplicates, visited in insertion
      order (Python fixes no order); a [dict] keeps insertion order;
    - a [FunctionStats] is a mutable object: the statistics table maps a
      function to a reference into a heap of [FunctionStats] records;
    - the closure variable [func] of [_setup_builtin_tracing] is a cell shared
      by every [wrapped_function] created during one run of that method;
    - an operation is a function from the world to an outcome (a value or an
      exception) and a new world;
    - there is one tracer (the singleton of [get_instance]) and one thread;
      [print] calls and [format_results] are not modelled. *)

From Stdlib Require Import Floats ZArith Lia String.
From stdpp Require Import base option list gmap strings.

Local Open Scope Z_scope.

(* ===================================================================== *)
(** * Part I: the model                                                   *)
(* ===================================================================== *)

(** ** Statistics ([FunctionStats] and the update applied on every sample) *)

Module Stats.

(** [@dataclass class FunctionStats]. *)
Record FunctionStats := mkStats {
  call_count : Z;
  total_time : float;
  min_time : float;
  max_time : float
}.

(** [FunctionStats()]: the defaults of the dataclass fields. *)
Definition sentinel : FunctionStats :=
  {| call_count := 0;
     total_time := 0%float;
     min_time := infinity;
     max_time := 0%float |}.

(** Python converts the [int] operand of [float / int] to the nearest
    binary64 value (ties to even). *)
Definition float_of_int (n : Z) : float :=
  SF2Prim (binary_normalize prec emax n 0 false).

(** [avg_time]: [total_time / call_count if call_count > 0 else 0] (the
    integer 0 of the source is the float 0 here; the two compare equal). *)
Definition avg_time (s : FunctionStats) : float :=
  if (0 <? call_count s)%Z
  then (total_time s / float_of_int (call_count s))%float
  else 0%float.

(** The builtin [min(a, b)] keeps [a] unless [b < a]. *)
Definition py_min (a b : float) : float := if (b <? a)%float then b else a.

(** The builtin [max(a, b)] keeps [a] unless [b > a]. *)
Definition py_max (a b : float) : float := if (a <? b)%float then b else a.

(** The four assignments that follow [stats = self._stats[func]], in
    [wrapped_function] and in the ['return'] branch of [_trace_function]. *)
Definition update (s : FunctionStats) (duration : float) : FunctionStats :=
  {| call_count := call_count s + 1;
     total_time := (total_time s + duration)%float;
     min_time := py_min (min_time s) duration;
     max_time := py_max (max_time s) duration |}.

(** One update per recorded duration, oldest first. *)
Definition record_all (durations : list float) (s : FunctionStats) : FunctionStats :=
  fold_left update durations s.

(** *** Vocabulary of the statements about samples *)

(** A float that is not NaN. *)
Definition is_number (x : float) : bool := (x =? x)%float.

(** The same on the specification side of a float. *)
Definition SFnum (s : spec_float) : bool :=
  match s with S754_nan => false | _ => true end.

(** An elapsed time read off a monotonic clock: a number, not negative. *)
Definition valid_duration (d : float) : Prop := (0 <=? d)%float = true.

(** The sum of the samples in binary64 arithmetic, added oldest first. *)
Fixpoint float_sum_from (acc : float) (ds : list float) : float :=
  match ds with
  | [] => acc
  | d :: ds' => float_sum_from (acc + d)%float ds'
  end.

Definition float_sum (ds : list float) : float := float_sum_from 0%float ds.

(** [m] compares equal ([==]) to a sample and no sample is below it. *)
Definition is_minimum_of (m : float) (ds : list float) : Prop :=
  Exists (fun d => (m =? d)%float = true) ds /\
  Forall (fun d => (m <=? d)%float = true) ds.

(** [m] compares equal ([==]) to a sample and no sample is above it. *)
Definition is_maximum_of (m : float) (ds : list float) : Prop :=
  Exists (fun d => (m =? d)%float = true) ds /\
  Forall (fun d => (d <=? m)%float = true) ds.

(** 0.1 as a binary64 value (the literal [0.1] of Python). *)
Definition tenth : float := 0x1.999999999999ap-4%float.

End Stats.

(** ** Python values, errors and the monad of the tracer's operations *)

Module Py.

(** Identity of a function object ([id(func)]): what [set] and [dict] hash
    and compare when a function is an element or a key. *)
Record Callable := Fn { fn_id : nat }.

#[global] Instance Callable_eq_dec : EqDecision Callable.
Proof. solve_decision. Defined.

#[global] Instance Callable_countable : Countable Callable :=
  inj_countable' fn_id Fn (fun c => match c with Fn _ => eq_refl end).

(** Identity of a code object ([func.__code__], [frame.f_code]). *)
Abbreviation Code := nat.

(** Identity of an external trace hook (a debugger's trace function). *)
Abbreviation Hook := nat.

(** A reference to a [FunctionStats] object. *)
Abbreviation Loc := nat.

(** The values the observed code passes around; the tracer never looks
    inside them. *)
Inductive Value := VNone | VInt (n : Z) | VStr (s : string).

(** [*args, **kwargs]. *)
Record Args := mkArgs {
  positional : list Value;
  keywords : list (string * Value)
}.

(** An exception object, an instance of [Exception]: what the [except
    Exception] clauses of the tracer catch. *)
Record Exn := mkExn { exn_type : string; exn_message : string }.

Inductive result (A : Type) :=
| Returns (a : A)
| Raises (e : Exn).
Arguments Returns {A} a.
Arguments Raises {A} e.

(** A frame, as far as the tracer reads it: [id(frame)] and [frame.f_code]. *)
Record Frame := mkFrame { frame_id : nat; f_code : Code }.

(** What can sit in the interpreter's trace slot, and what a trace function
    can return as the local trace function of a frame. *)
Inductive TraceFn :=
| OwnTrace                       (* [self._trace_function] *)
| ExternalTrace (h : Hook).

(** [wrapped_function]: a closure over the cell of the loop variable [func];
    [functools.wraps(func)] copies the attributes of the function it was
    built for ([__wrapped__], [__module__], [__name__]). *)
Record Wrapped := mkWrapped { closure_cell : nat; wrapped_of : Callable }.

(** The callables that can be bound to a module attribute or handed out by
    the tracer. *)
Inductive PyCallable :=
| Original (c : Callable)        (* a function object of the program *)
| Substitute (wf : Wrapped)      (* a [wrapped_function] *)
| Decorated (c : Callable).      (* the [wrapper] returned by [trace] *)

(** One call received by an external hook. *)
Record HookCall := mkHookCall {
  hc_hook : Hook; hc_frame : Frame; hc_event : string; hc_arg : Value
}.

(** What the tracer reads from the rest of the program. *)
Record Host := mkHost {
  (** [func.__code__], [None] when [hasattr(func, '__code__')] is false *)
  code_of : Callable -> option Code;
  (** [(func.__module__, func.__name__)] when [func] has both attributes *)
  qualname_of : Callable -> option (string * string);
  (** what calling the function object does *)
  behaviour : Callable -> Args -> result Value;
  (** what an external trace hook does with an event *)
  hook_behaviour : Hook -> Frame -> string -> Value -> result (option TraceFn)
}.

End Py.

(** ** The tracer *)

Module Tracer.
Import Stats Py.

(** The fields of the [FunctionTracer] singleton, the objects it allocates
    and the parts of the process it writes to. *)
Record World := mkWorld {
  enabled : bool;
  traced_functions : list Callable;       (* a set, iterated in insertion order *)
  decorated_functions : list Callable;    (* a set *)
  stats : gmap Callable Loc;              (* defaultdict(FunctionStats) *)
  call_stack : gmap nat (Callable * float);
  original_trace_function : option TraceFn;
  builtin_functions : list Callable;      (* a set *)
  original_builtins : list (Callable * Callable);
  wrapped_builtins : list (Callable * Wrapped);
  (** the [FunctionStats] objects *)
  heap : list FunctionStats;
  (** the cells of the closure variable [func], one per run of
      [_setup_builtin_tracing]; [None] while unbound *)
  cells : list (option Callable);
  (** [sys.gettrace()] *)
  sys_trace : option TraceFn;
  (** module namespaces: [getattr(importlib.import_module(m), n)] *)
  modules : gmap string (gmap string PyCallable);
  (** the calls external hooks have received, latest last *)
  forwarded : list HookCall
}.

Definition set_enabled v w :=
  mkWorld v (traced_functions w) (decorated_functions w) (stats w) (call_stack w)
    (original_trace_function w) (builtin_functions w) (original_builtins w)
    (wrapped_builtins w) (heap w) (cells w) (sys_trace w) (modules w) (forwarded w).
Definition set_traced_functions v w :=
  mkWorld (enabled w) v (decorated_functions w) (stats w) (call_stack w)
    (original_trace_function w) (builtin_functions w) (original_builtins w)
    (wrapped_builtins w) (heap w) (cells w) (sys_trace w) (modules w) (forwarded w).
Definition set_decorated_functions v w :=
  mkWorld (enabled w) (traced_functions w) v (stats w) (call_stack w)
    (original_trace_function w) (builtin_functions w) (original_builtins w)
    (wrapped_builtins w) (heap w) (cells w) (sys_trace w) (modules w) (forwarded w).
Definition set_stats v w :=
  mkWorld (enabled w) (traced_functions w) (decorated_functions w) v (call_stack w)
    (original_trace_function w) (builtin_functions w) (original_builtins w)
    (wrapped_builtins w) (heap w) (cells w) (sys_trace w) (modules w) (forwarded w).
Definition set_call_stack v w :=
  mkWorld (enabled w) (traced_functions w) (decorated_functions w) (stats w) v
    (original_trace_function w) (builtin_functions w) (original_builtins w)
    (wrapped_builtins w) (heap w) (cells w) (sys_trace w) (modules w) (forwarded w).
Definition set_original_trace_function v w :=
  mkWorld (enabled w) (traced_functions w) (decorated_functions w) (stats w) (call_stack w)
    v (builtin_functions w) (original_builtins w)
    (wrapped_builtins w) (heap w) (cells w) (sys_trace w) (modules w) (forwarded w).
Definition set_builtin_functions v w :=
  mkWorld (enabled w) (traced_functions w) (decorated_functions w) (stats w) (call_stack w)
    (original_trace_function w) v (original_builtins w)
    (wrapped_builtins w) (heap w) (cells w) (sys_trace w) (modules w) (forwarded w).
Definition set_original_builtins v w :=
  mkWorld (enabled w) (traced_functions w) (decorated_functions w) (stats w) (call_stack w)
    (original_trace_function w) (builtin_functions w) v
    (wrapped_builtins w) (heap w) (cells w) (sys_trace w) (modules w) (forwarded w).
Definition set_wrapped_builtins v w :=
  mkWorld (enabled w) (traced_functions w) (decorated_functions w) (stats w) (call_stack w)
    (original_trace_function w) (builtin_functions w) (original_builtins w)
    v (heap w) (cells w) (sys_trace w) (modules w) (forwarded w).
Definition set_heap v w :=
  mkWorld (enabled w) (traced_functions w) (decorated_functions w) (stats w) (call_stack w)
    (original_trace_function w) (builtin_functions w) (original_builtins w)
    (wrapped_builtins w) v (cells w) (sys_trace w) (modules w) (forwarded w).
Definition set_cells v w :=
  mkWorld (enabled w) (traced_functions w) (decorated_functions w) (stats w) (call_stack w)
    (original_trace_function w) (builtin_functions w) (original_builtins w)
    (wrapped_builtins w) (heap w) v (sys_trace w) (modules w) (forwarded w).
Definition set_sys_trace v w :=
  mkWorld (enabled w) (traced_functions w) (decorated_functions w) (stats w) (call_stack w)
    (original_trace_function w) (builtin_functions w) (original_builtins w)
    (wrapped_builtins w) (heap w) (cells w) v (modules w) (forwarded w).
Definition set_modules v w :=
  mkWorld (enabled w) (traced_functions w) (decorated_functions w) (stats w) (call_stack w)
    (original_trace_function w) (builtin_functions w) (original_builtins w)
    (wrapped_builtins w) (heap w) (cells w) (sys_trace w) v (forwarded w).
Definition set_forwarded v w :=
  mkWorld (enabled w) (traced_functions w) (decorated_functions w) (stats w) (call_stack w)
    (original_trace_function w) (builtin_functions w) (original_builtins w)
    (wrapped_builtins w) (heap w) (cells w) (sys_trace w) (modules w) v.

(** [FunctionTracer.__init__], in a process whose trace slot holds
    [slot] and whose modules are [mods]. *)
Definition init_world (slot : option TraceFn)
    (mods : gmap string (gmap string PyCallable)) : World :=
  {| enabled := false;
     traced_functions := [];
     decorated_functions := [];
     stats := ∅;
     call_stack := ∅;
     original_trace_function := None;
     builtin_functions := [];
     original_builtins := [];
     wrapped_builtins := [];
     heap := [];
     cells := [];
     sys_trace := slot;
     modules := mods;
     forwarded := [] |}.

(** *** State and exceptions *)

Definition M (A : Type) : Type := World -> result A * World.

Definition ret {A} (a : A) : M A := fun w => (Returns a, w).

Definition bind {A B} (m : M A) (k : A -> M B) : M B :=
  fun w =>
    match m w with
    | (Returns a, w') => k a w'
    | (Raises e, w') => (Raises e, w')
    end.

Definition raise {A} (e : Exn) : M A := fun w => (Raises e, w).

Definition gets {A} (f : World -> A) : M A := fun w => (Returns (f w), w).

Definition modify (f : World -> World) : M unit := fun w => (Returns tt, f w).

(** [try: m except Exception as e: handler e]. *)
Definition try_except {A} (m : M A) (handler : Exn -> M A) : M A :=
  fun w =>
    match m w with
    | (Returns a, w') => (Returns a, w')
    | (Raises e, w') => handler e w'
    end.

Notation "'do' x <- m ; k" := (bind m (fun x => k))
  (at level 10, x name, m at level 100, k at level 200).
Notation "'run' m ; k" := (bind m (fun _ => k))
  (at level 10, m at level 100, k at level 200).

(** [for x in xs: body x]. *)
Fixpoint for_each {A} (xs : list A) (body : A -> M unit) : M unit :=
  match xs with
  | [] => ret tt
  | x :: xs' => run body x; for_each xs' body
  end.

(** *** Sets and dicts of function objects *)

(** [s.add(c)]. *)
Definition set_add (c : Callable) (s : list Callable) : list Callable :=
  if decide (c ∈ s) then s else s ++ [c].

(** [d[k] = v] on an insertion-ordered dict. *)
Fixpoint dict_set {V} (k : Callable) (v : V) (d : list (Callable * V))
    : list (Callable * V) :=
  match d with
  | [] => [(k, v)]
  | (k', v') :: d' =>
      if decide (k = k') then (k, v) :: d' else (k', v') :: dict_set k v d'
  end.

(** [k in d]. *)
Definition dict_mem {V} (k : Callable) (d : list (Callable * V)) : bool :=
  bool_decide (k ∈ d.*1).

(** A snapshot handed to a caller: [dict(self._stats)], a new dict with the
    same [FunctionStats] objects as values. *)
Abbreviation Snapshot := (gmap Callable Loc).

(** [table[f]] as a caller reads it in world [w]: the fields of the object
    the entry refers to. *)
Definition read_entry (table : Snapshot) (w : World) (f : Callable)
    : option FunctionStats :=
  l ← table !! f; heap w !! l.

(** The live entry of [f]. *)
Definition entry (w : World) (f : Callable) : option FunctionStats :=
  read_entry (stats w) w f.

(** *** Vocabulary of the statements and of their proofs *)

(** The reference stored for [f], if any, points into the heap. *)
Definition valid_entry (w : World) (f : Callable) : Prop :=
  forall l, stats w !! f = Some l -> (l < length (heap w))%nat.

Definition stats_wf (w : World) : Prop := forall f, valid_entry w f.

(** The statistics of [f] as the next update will find them: its entry, or
    the sentinel values when it has none yet. *)
Definition current (w : World) (f : Callable) : FunctionStats :=
  default sentinel (entry w f).

(** [m] keeps [P], whether it returns or raises. *)
Definition preserves {A} (P : World -> Prop) (m : M A) : Prop :=
  forall w, P w -> P (snd (m w)).

(** [m] returns, whatever the world. *)
Definition total {A} (m : M A) : Prop :=
  forall w, exists a, fst (m w) = Returns a.

(** [P] does not read what the wrapper writes: the cells, the wrapper's two
    dicts, its set of native functions, and the module namespaces. *)
Definition wrapper_frame (P : World -> Prop) : Prop :=
  forall w, P w ->
    (forall v, P (set_cells v w)) /\
    (forall v, P (set_original_builtins v w)) /\
    (forall v, P (set_wrapped_builtins v w)) /\
    (forall v, P (set_builtin_functions v w)) /\
    (forall v, P (set_modules v w)).

(** [P] does not read what [update_functions] writes. *)
Definition update_frame (P : World -> Prop) : Prop :=
  wrapper_frame P /\
  forall w, P w -> forall v, P (set_traced_functions v w).

(** [P] does not read what [enable] and [disable] write. *)
Definition lifecycle_frame (P : World -> Prop) : Prop :=
  update_frame P /\
  forall w, P w ->
    (forall v, P (set_original_trace_function v w)) /\
    (forall v, P (set_sys_trace v w)) /\
    (forall v, P (set_call_stack v w)) /\
    (forall v, P (set_enabled v w)).

(** Two worlds with the same statistics table and the same objects. *)
Definition same_store (w w' : World) : Prop :=
  stats w = stats w' /\ heap w = heap w'.

(** The binding of attribute [n] of module [m]. *)
Definition binding (w : World) (m n : string) : option PyCallable :=
  ns ← modules w !! m; ns !! n.

Section WithHost.
Context (host : Host).

(** *** Statistics Aggregator *)

(** [self._stats[func]] on the [defaultdict]: a missing key gets a fresh
    [FunctionStats()]. *)
Definition stats_getitem (func : Callable) : M Loc :=
  fun w =>
    match stats w !! func with
    | Some l => (Returns l, w)
    | None =>
        let l := length (heap w) in
        (Returns l, set_stats (<[func := l]> (stats w))
                      (set_heap (heap w ++ [sentinel]) w))
    end.

(** [stats = self._stats[func]] and the four updates of its fields. *)
Definition record (func : Callable) (duration : float) : M unit :=
  do l <- stats_getitem func;
  modify (fun w => set_heap (alter (fun s => update s duration) l (heap w)) w).

(** One [record] per duration, oldest first. *)
Definition record_each (func : Callable) (durations : list float) : M unit :=
  for_each durations (record func).

(** *** Opaque Function Wrapper *)

(** [_is_builtin_function]: no [__code__] attribute (a [Callable] is callable). *)
Definition _is_builtin_function (func : Callable) : bool :=
  match code_of host func with
  | Some _ => false
  | None => true
  end.

(** The guarded block of [_setup_builtin_tracing] and
    [_restore_builtin_functions]:
    [setattr(importlib.import_module(func.__module__), func.__name__, v)]
    when [func] has both attributes; a module that cannot be imported
    raises, which the [except] turns into a warning. *)
Definition rebind (func : Callable) (v : PyCallable) : M unit :=
  match qualname_of host func with
  | Some (m, n) =>
      fun w =>
        match modules w !! m with
        | Some ns => (Returns tt, set_modules (<[m := <[n := v]> ns]> (modules w)) w)
        | None => (Returns tt, w)
        end
  | None => ret tt
  end.

(** Calling a function object of the program. *)
Definition call_original (func : Callable) (args : Args) : M Value :=
  fun w => (behaviour host func args, w).

(** Reading the closure variable [func]. *)
Definition read_cell (c : nat) : M Callable :=
  fun w =>
    match cells w !! c with
    | Some (Some func) => (Returns func, w)
    | _ => (Raises (mkExn "NameError" "free variable 'func' referenced before assignment"), w)
    end.

(** The body of [wrapped_function]; [t_start] and [t_end] are the two
    readings of [time.perf_counter()]. *)
Definition wrapped_function (wf : Wrapped) (args : Args)
    (t_start t_end : float) : M Value :=
  do en <- gets enabled;
  if negb en then
    do func <- read_cell (closure_cell wf);
    call_original func args
  else
    do func <- read_cell (closure_cell wf);
    do result <- call_original func args;
    let duration := (t_end - t_start)%float in
    do func' <- read_cell (closure_cell wf);
    run record func' duration;
    ret result.

(** One turn of the loop of [_setup_builtin_tracing]: the loop variable
    [func], that is the cell, is assigned first. *)
Definition wrap_one (cell : nat) (func : Callable) : M unit :=
  run modify (fun w => set_cells (<[cell := Some func]> (cells w)) w);
  do wrapped <- gets wrapped_builtins;
  if dict_mem func wrapped then ret tt
  else
    run modify (fun w => set_original_builtins (dict_set func func (original_builtins w)) w);
    let wrapped_function := mkWrapped cell func in
    run modify (fun w =>
          set_wrapped_builtins (dict_set func wrapped_function (wrapped_builtins w)) w);
    rebind func (Substitute wrapped_function).

(** [_setup_builtin_tracing]. The loop variable [func] lives in one cell
    for the whole run; every [wrapped_function] built in the loop closes
    over that cell. *)
Definition _setup_builtin_tracing : M unit :=
  do cell <- gets (fun w => length (cells w));
  run modify (fun w => set_cells (cells w ++ [None]) w);
  do fs <- gets builtin_functions;
  for_each fs (wrap_one cell).

(** One turn of the loop of [_restore_builtin_functions]. *)
Definition restore_one (item : Callable * Callable) : M unit :=
  rebind (fst item) (Original (snd item)).

(** [_restore_builtin_functions]. *)
Definition _restore_builtin_functions : M unit :=
  do originals <- gets original_builtins;
  run for_each originals restore_one;
  run modify (set_builtin_functions []);
  run modify (set_original_builtins []);
  modify (set_wrapped_builtins []).

(** *** Tracer Controller *)

(** The loop body shared by [enable] and [update_functions]. *)
Definition register (func : Callable) : M unit :=
  if _is_builtin_function func
  then modify (fun w => set_builtin_functions (set_add func (builtin_functions w)) w)
  else modify (fun w => set_traced_functions (set_add func (traced_functions w)) w).

(** [update_functions]. *)
Definition update_functions (functions : list Callable) : M unit :=
  do en <- gets enabled;
  if negb en then raise (mkExn "RuntimeError" "Tracing is not enabled")
  else
    run _restore_builtin_functions;
    run modify (fun w => set_traced_functions (decorated_functions w) w);
    run modify (set_builtin_functions []);
    run for_each functions register;
    _setup_builtin_tracing.

(** [if functions:] is false for [None] and for the empty list. *)
Definition truthy (functions : option (list Callable)) : bool :=
  match functions with
  | Some (_ :: _) => true
  | _ => false
  end.

(** [enable]. *)
Definition enable (functions : option (list Callable)) : M unit :=
  do en <- gets enabled;
  if en then
    if truthy functions then update_functions (default [] functions) else ret tt
  else
    run modify (fun w => set_traced_functions (decorated_functions w) w);
    run (if truthy functions then for_each (default [] functions) register else ret tt);
    do current_tracer <- gets sys_trace;
    run modify (set_original_trace_function current_tracer);
    run modify (set_sys_trace (Some OwnTrace));
    run _setup_builtin_tracing;
    modify (set_enabled true).

(** [disable]. *)
Definition disable : M Snapshot :=
  do en <- gets enabled;
  if negb en then gets stats
  else
    do original <- gets original_trace_function;
    run modify (set_sys_trace original);
    run _restore_builtin_functions;
    run modify (set_enabled false);
    run modify (set_call_stack ∅);
    gets stats.

(** [get_results]. *)
Definition get_results : M Snapshot := gets stats.

(** [trace]: the inner [decorator(function)], which both
    [@FunctionTracer.trace] and [@FunctionTracer.trace()] end up calling. *)
Definition trace (function : Callable) : M PyCallable :=
  run modify (fun w => set_decorated_functions (set_add function (decorated_functions w)) w);
  ret (Decorated function).

(** The body of [wrapper]: [return function(...)] with the arguments it was given. *)
Definition wrapper (function : Callable) (args : Args) : M Value :=
  call_original function args.

(** Calling any of the callables above. *)
Definition call (p : PyCallable) (args : Args) (t_start t_end : float) : M Value :=
  match p with
  | Original c => call_original c args
  | Substitute wf => wrapped_function wf args t_start t_end
  | Decorated c => wrapper c args
  end.

(** *** Trace Hook Chain *)

(** The first traced function whose [__code__] is [code]. *)
Definition find_traced (code : Code) (traced : list Callable) : option Callable :=
  List.find (fun traced_func =>
               match code_of host traced_func with
               | Some c => bool_decide (c = code)
               | None => false
               end) traced.

(** Calling the captured hook. An external hook receives the event and
    answers as the host says. The tracer's own function is never captured
    by [enable] from a state the operations below reach; it would call
    itself until the interpreter's recursion limit, which is all this case
    records. *)
Definition call_hook (t : TraceFn) (frame : Frame) (event : string) (arg : Value)
    : M (option TraceFn) :=
  match t with
  | ExternalTrace h =>
      fun w => (hook_behaviour host h frame event arg,
                set_forwarded (forwarded w ++ [mkHookCall h frame event arg]) w)
  | OwnTrace => raise (mkExn "RecursionError" "maximum recursion depth exceeded")
  end.

(** The bookkeeping inside the [try] of [_trace_function]; the result is
    the value of the local [func] after it. [now] is the reading of
    [time.perf_counter()]. None of these steps raises in the model, so the
    [except] clause that follows them in the source has nothing to catch. *)
Definition bookkeeping (frame : Frame) (event : string) (now : float)
    : M (option Callable) :=
  if String.eqb event "call" then
    do traced <- gets traced_functions;
    match find_traced (f_code frame) traced with
    | Some func =>
        run modify (fun w =>
             set_call_stack (<[frame_id frame := (func, now)]> (call_stack w)) w);
        ret (Some func)
    | None => ret None
    end
  else if String.eqb event "return" then
    do stack <- gets call_stack;
    match stack !! frame_id frame with
    | Some (func, start_time) =>
        run modify (fun w => set_call_stack (delete (frame_id frame) (call_stack w)) w);
        let duration := (now - start_time)%float in
        run record func duration;
        ret (Some func)
    | None => ret None
    end
  else ret None.

(** [_trace_function]. *)
Definition _trace_function (frame : Frame) (event : string) (arg : Value)
    (now : float) : M (option TraceFn) :=
  do en <- gets enabled;
  if negb en then
    do original <- gets original_trace_function;
    match original with
    | Some hook => call_hook hook frame event arg
    | None => ret None
    end
  else
    do func <- bookkeeping frame event now;
    do original <- gets original_trace_function;
    do pycharm_next <-
      match original with
      | Some hook => try_except (call_hook hook frame event arg) (fun _ => ret None)
      | None => ret None
      end;
    match func with
    | Some _ => ret (Some OwnTrace)
    | None => ret pycharm_next
    end.

(** Whether [_trace_function] resolves the event to a traced function: a
    ['call'] whose code object is that of a traced function, or a
    ['return'] of a frame with an open call context. *)
Definition event_matches (w : World) (frame : Frame) (event : string) : bool :=
  if String.eqb event "call" then
    existsb (fun f => bool_decide (code_of host f = Some (f_code frame)))
      (traced_functions w)
  else if String.eqb event "return" then
    bool_decide (is_Some (call_stack w !! frame_id frame))
  else false.

(** The calls the captured hook receives for one event. *)
Definition delivered (w : World) (frame : Frame) (event : string) (arg : Value)
    : list HookCall :=
  match original_trace_function w with
  | Some (ExternalTrace h) => [mkHookCall h frame event arg]
  | _ => []
  end.

(** What the captured hook asks for; [None] when there is no hook or it
    raised. *)
Definition hook_answer (w : World) (frame : Frame) (event : string) (arg : Value)
    : option TraceFn :=
  match original_trace_function w with
  | Some (ExternalTrace h) =>
      match hook_behaviour host h frame event arg with
      | Returns t => t
      | Raises _ => None
      end
  | _ => None
  end.

(** The two events of one invocation that returns: ['call'] at [t_call],
    ['return'] at [t_return], both delivered to [_trace_function]. The
    interpreter delivers the ['return'] of a frame to the frame's local trace
    function: that is what [_trace_function] answered to the ['call'] (itself,
    for a traced function), replaced by whatever an event in between was
    answered with, unless that was [None]. With no captured hook every event
    in between is answered with [None], and the ['return'] arrives here; a
    captured hook that answers with a function of its own takes the frame
    over, and this definition does not describe that run. *)
Definition traced_invocation (frame : Frame) (arg result : Value)
    (t_call t_return : float) : M unit :=
  run _trace_function frame "call" arg t_call;
  run _trace_function frame "return" result t_return;
  ret tt.

(** One observed invocation of a traced Python function. *)
Record Invocation := mkInvocation {
  inv_frame : Frame;
  inv_arg : Value;
  inv_result : Value;
  inv_start : float;
  inv_end : float
}.


(** The elapsed time [_trace_function] computes for an invocation. *)
Definition elapsed (i : Invocation) : float := (inv_end i - inv_start i)%float.


(** The state of a session that traces [f] through its code object [c],
    with decorated set [D]. *)
Definition tracing (f : Callable) (c : Code) (D : list Callable) (w : World) : Prop :=
  enabled w = true /\
  find_traced c (traced_functions w) = Some f /\
  decorated_functions w = D.

(** The substitute built for [f] in the run that uses [cell] sits at the
    binding of [f], attribute [n] of module [m], and the wrapper's two dicts
    record it. *)
Definition installed (f : Callable) (m n : string) (cell : nat) (w : World) : Prop :=
  binding w m n = Some (Substitute (mkWrapped cell f)) /\
  (f, mkWrapped cell f) ∈ wrapped_builtins w /\
  (f, f) ∈ original_builtins w.

(** Every recorded original is the function itself, every substitute was
    built in the run that uses [cell], and only [f] claims the binding. *)
Definition records_ok (f : Callable) (m n : string) (cell : nat) (w : World) : Prop :=
  (forall g o, (g, o) ∈ original_builtins w ->
     o = g /\ (qualname_of host g = Some (m, n) -> g = f)) /\
  (forall g wf, (g, wf) ∈ wrapped_builtins w -> wf = mkWrapped cell g).

(** [enable(first)] followed by [enable(second)]. *)
Definition enable_twice (first second : list Callable) : M unit :=
  run enable (Some first);
  enable (Some second).

End WithHost.

End Tracer.

(** ** A small program to run the tracer on *)

Module Scenario.
Import Stats Py Tracer.

(** Two native functions of module [math], a native function that fails,
    and a function written in Python, whose code object is 30. *)
Definition sqrt_fn : Callable := Fn 1.
Definition floor_fn : Callable := Fn 2.
Definition work_fn : Callable := Fn 3.
Definition fail_fn : Callable := Fn 4.

Definition domain_error : Exn := mkExn "ValueError" "math domain error".

Definition host : Host :=
  {| code_of c := if decide (c = work_fn) then Some 30%nat else None;
     qualname_of c :=
       if decide (c = sqrt_fn) then Some ("math", "sqrt")
       else if decide (c = floor_fn) then Some ("math", "floor")
       else if decide (c = fail_fn) then Some ("math", "checked")
       else if decide (c = work_fn) then Some ("__main__", "work")
       else None;
     behaviour c args :=
       if decide (c = fail_fn) then Raises domain_error
       else Returns (VInt (Z.of_nat (fn_id c)));
     hook_behaviour h frame event arg := Returns (Some (ExternalTrace h)) |}.

Definition math_module : gmap string PyCallable :=
  {[ "sqrt" := Original sqrt_fn;
     "floor" := Original floor_fn;
     "checked" := Original fail_fn ]}.

(** A fresh tracer in a process with no trace hook installed. *)
Definition fresh : World := init_world None {[ "math" := math_module ]}.

Definition no_args : Args := mkArgs [] [].

(** A frame running the code of [work_fn]. *)
Definition work_frame : Frame := mkFrame 7 30.

(** [enable([checked])], with the failing native function. *)
Definition checked_session : World := snd (enable host (Some [fail_fn]) fresh).

(** The substitute that run installs at [math.checked]. *)
Definition checked_substitute : Wrapped := mkWrapped 0 fail_fn.

(** [enable([sqrt, floor])]: two native functions wrapped in one session. *)
Definition math_session : World :=
  snd (enable host (Some [sqrt_fn; floor_fn]) fresh).

(** The substitute that run installs at [math.sqrt]. *)
Definition sqrt_substitute : Wrapped := mkWrapped 0 sqrt_fn.

(** The same two functions visited in the other order, and the substitute
    installed at [math.floor]. *)
Definition math_session_reversed : World :=
  snd (enable host (Some [floor_fn; sqrt_fn]) fresh).

Definition floor_substitute : Wrapped := mkWrapped 0 floor_fn.

(** [work] marked with [@FunctionTracer.trace], then [enable()]. *)
Definition work_session : World := snd (enable host None (snd (trace work_fn fresh))).

(** [work] marked with [@FunctionTracer.trace], tracing not enabled yet. *)
Definition decorated_world : World := snd (trace work_fn fresh).

(** The same session in a process where a debugger's hook, number 9, was
    installed first. *)
Definition hooked_session : World :=
  snd (enable host None
         (snd (trace work_fn
                 (init_world (Some (ExternalTrace 9)) {[ "math" := math_module ]})))).

(** One invocation of [work] from clock reading 1 to 2 ... *)
Definition after_first_call : World :=
  snd (traced_invocation host work_frame VNone VNone 1 2 work_session).

(** ... and a second one from 3 to 5. *)
Definition after_second_call : World :=
  snd (traced_invocation host work_frame VNone VNone 3 5 after_first_call).

(** [disable()] after the first call, then a new session with one more
    call of [work], from 3 to 5. *)
Definition resumed_after_disable : World :=
  snd (traced_invocation host work_frame VNone VNone 3 5
         (snd (enable host None (snd (disable host after_first_call))))).


End Scenario.

(** ** Runs of events, and the conditions the operations keep *)

Module Runs.
Import Stats Py Tracer.

(** One event as the interpreter hands it to the trace function, with the
    clock reading the trace function would take while handling it. *)
Record Event := mkEvent {
  ev_frame : Frame;
  ev_kind : string;
  ev_arg : Value;
  ev_now : float
}.

(** What the hook captured by the tracer is told about an event. *)
Definition hook_call (h : Hook) (e : Event) : HookCall :=
  mkHookCall h (ev_frame e) (ev_kind e) (ev_arg e).

(** The captured hook is never the tracer's own function, and while the
    tracer is disabled its function is not in the interpreter's slot. *)
Definition hook_ok (w : World) : Prop :=
  original_trace_function w <> Some OwnTrace /\
  (enabled w = false -> sys_trace w <> Some OwnTrace).

(** While the tracer is disabled the wrapper keeps no bookkeeping. *)
Definition idle_ok (w : World) : Prop :=
  enabled w = false ->
  builtin_functions w = [] /\ original_builtins w = [] /\ wrapped_builtins w = [].

(** Every entry of the table refers to an object that has counted at least
    one call, and two functions never share an object. *)
Definition table_ok (w : World) : Prop :=
  (forall f l, stats w !! f = Some l ->
     exists s, heap w !! l = Some s /\ 1 <= call_count s) /\
  (forall f g l, stats w !! f = Some l -> stats w !! g = Some l -> f = g).

(** Every entry present in [w] is still present in [w'], with a call count
    that is not lower. *)
Definition never_less (w w' : World) : Prop :=
  forall f s, entry w f = Some s ->
    exists s', entry w' f = Some s' /\ call_count s <= call_count s'.

(** The names that [wrapped_function] and [_trace_function] look up each
    time they run: [time.perf_counter] through the module [time], the others
    in [builtins]. The model gives them their usual meaning. *)
Definition helper_names : list (string * string) :=
  [("time", "perf_counter"); ("builtins", "min"); ("builtins", "max");
   ("builtins", "id"); ("builtins", "hasattr"); ("builtins", "str");
   ("builtins", "print"); ("builtins", "Exception")].

(** None of those names is bound to a substitute: the tracer was not asked
    to wrap a function that its own code calls. *)
Definition helpers_pristine (w : World) : Prop :=
  forall m n wf, (m, n) ∈ helper_names -> binding w m n <> Some (Substitute wf).

Section WithHost.
Context (host : Host).

(** Handing one event to [_trace_function], whatever it returns. *)
Definition deliver (e : Event) : M unit :=
  run _trace_function host (ev_frame e) (ev_kind e) (ev_arg e) (ev_now e);
  ret tt.

(** A stream of events, one after the other. *)
Definition deliver_all (events : list Event) : M unit := for_each events deliver.

(** [_setup_builtin_tracing] with the order in which the loop visits the
    set [self._builtin_functions] made explicit: a Python set is iterated in
    an order of its own, which need not be the order of insertion. *)
Definition setup_visiting (order : list Callable) : M unit :=
  do cell <- gets (fun w => length (cells w));
  run modify (fun w => set_cells (cells w ++ [None]) w);
  for_each order (wrap_one host cell).

(** Invocations nested in one another, outermost first: each one is entered,
    the inner ones run to their end, and then it returns. Both events of
    each level reach [_trace_function], as they do when no other hook was
    captured (see [traced_invocation]). *)
Fixpoint nested (levels : list Invocation) : M unit :=
  match levels with
  | [] => ret tt
  | i :: inner =>
      run _trace_function host (inv_frame i) "call" (inv_arg i) (inv_start i);
      run nested inner;
      run _trace_function host (inv_frame i) "return" (inv_result i) (inv_end i);
      ret tt
  end.

(** The world of [enable], on a disabled tracer, once the traced set is
    reset and the functions are registered. *)
Definition registered (functions : option (list Callable)) (w : World) : World :=
  snd ((if truthy functions
        then for_each (default [] functions) (register host)
        else ret tt)
         (set_traced_functions (decorated_functions w) w)).

(** [P] is kept by every operation of the tracer. *)
Definition kept_by_tracer (P : World -> Prop) : Prop :=
  (forall functions, preserves P (enable host functions)) /\
  preserves P (disable host) /\
  (forall functions, preserves P (update_functions host functions)) /\
  preserves P get_results /\
  (forall function, preserves P (trace function)) /\
  (forall frame event arg now, preserves P (_trace_function host frame event arg now)) /\
  (forall wf args t_start t_end, preserves P (wrapped_function host wf args t_start t_end)).

(** The module attribute that [g] names, when it can be resolved, holds [g]. *)
Definition home_bound (mods : gmap string (gmap string PyCallable)) (g : Callable)
    : Prop :=
  match qualname_of host g with
  | Some (m, n) =>
      match mods !! m with
      | Some ns => ns !! n = Some (Original g)
      | None => True
      end
  | None => True
  end.

(** [g] has no binding the wrapper can write: it lacks [__module__] or
    [__name__], or its module cannot be imported. *)
Definition unresolvable (mods : gmap string (gmap string PyCallable)) (g : Callable)
    : Prop :=
  match qualname_of host g with
  | Some (m, n) => mods !! m = None
  | None => True
  end.

(** What a run of the wrapping loop has done to the namespaces of [w0]:
    the modules are the same, a binding differs only where a recorded
    original names it, and every recorded original is a function with [P],
    recorded under itself. *)
Definition touched (P : Callable -> Prop) (w0 w : World) : Prop :=
  (forall m, is_Some (modules w !! m) <-> is_Some (modules w0 !! m)) /\
  (forall m n, binding w m n = binding w0 m n \/
     exists g, (g, g) ∈ original_builtins w /\ qualname_of host g = Some (m, n)) /\
  (forall g o, (g, o) ∈ original_builtins w -> o = g /\ P g).

(** [disable()] followed by [enable()]: a new session started without
    arguments. *)
Definition restart : M unit :=
  run disable host;
  enable host None.

End WithHost.

(** A new tracer in a process where a debugger's hook, number 9, is
    installed, with the modules of the small program. *)
Definition debugged : World :=
  init_world (Some (ExternalTrace 9)) {[ "math" := Scenario.math_module ]}.

End Runs.

(** ** The name column of the report

    [format_results] labels each row with a name for the key of the entry,
    shortened to fit and padded to the width of the column. A Python string
    is modelled as a [string], one character each. *)

Module Report.

(** What [format_results] reads of a key: whether it is callable, its
    [__name__] and [__module__] when it has them (the module as the f-string
    prints it), and [str(func)]. *)
Record Described := mkDescribed {
  is_callable : bool;
  name_attr : option string;
  module_attr : option string;
  str_of : string
}.

(** The first assignment of [func_name]: the name qualified with the
    module, unless the module is ['__main__'] or missing; [str(func)] for a
    key without [__name__] or that is not callable. *)
Definition func_name (k : Described) : string :=
  if is_callable k then
    match name_attr k with
    | Some n =>
        match module_attr k with
        | Some m =>
            if String.eqb m "__main__" then n
            else String.append m (String.append "." n)
        | None => n
        end
    | None => str_of k
    end
  else str_of k.

(** [s[-n:]] for [n > 0]: the last [n] characters, all of [s] when it has
    fewer. *)
Definition last_chars (n : nat) (s : string) : string :=
  String.substring (String.length s - n)%nat n s.

(** [if len(func_name) > 38: func_name = "..." + func_name[-35:]]. *)
Definition shorten (s : string) : string :=
  if Nat.ltb 38 (String.length s) then String.append "..." (last_chars 35 s) else s.

Fixpoint spaces (n : nat) : string :=
  match n with
  | O => EmptyString
  | S n' => String Ascii.Space (spaces n')
  end.

(** The format [:<width] on a string: left-aligned, filled with spaces up
    to [width], never cut. *)
Definition left_align (width : nat) (s : string) : string :=
  String.append s (spaces (width - String.length s)%nat).

(** The first field of a row, [f"{func_name:<40}"]. *)
Definition name_column (k : Described) : string :=
  left_align 40 (shorten (func_name k)).

(** A function of a package with a long qualified name. *)
Definition long_key : Described :=
  mkDescribed true (Some "compute_weighted_average")
    (Some "analytics.pipeline.stages") "<function compute_weighted_average>".

End Report.

(* ===================================================================== *)
(** * Part II: properties                                                 *)
(* ===================================================================== *)

(** ** The order of binary64 numbers, from the specification of the
       primitive comparisons *)

Module FloatOrder.
Import Stats.

Lemma SFcompare_antisym (x y : spec_float) :
  SFcompare y x = option_map CompOpp (SFcompare x y).
Proof.
  destruct x as [sx|sx| |sx mx ex], y as [sy|sy| |sy my ey];
    try destruct sx; try destruct sy; simpl; try reflexivity.
  all: rewrite (Z.compare_antisym ex ey);
    destruct (ex ?= ey)%Z; simpl; try reflexivity.
  all: change (Pos.compare_cont Eq my mx) with (my ?= mx)%positive;
    change (Pos.compare_cont Eq mx my) with (mx ?= my)%positive;
    rewrite (Pos.compare_antisym mx my); destruct (mx ?= my)%positive; reflexivity.
Qed.

Lemma SFcompare_refl (x : spec_float) :
  SFnum x = true -> SFcompare x x = Some Eq.
Proof.
  destruct x as [s|s| |s m e]; try destruct s; simpl; try easy.
  all: intros _; rewrite Z.compare_refl;
    change (Pos.compare_cont Eq m m) with (m ?= m)%positive;
    rewrite Pos.compare_refl; reflexivity.
Qed.

Lemma SFcompare_num (x y : spec_float) :
  SFnum x = true -> SFnum y = true -> exists c, SFcompare x y = Some c.
Proof.
  destruct x as [sx|sx| |sx mx ex], y as [sy|sy| |sy my ey]; simpl;
    try discriminate; intros _ _; eexists; reflexivity.
Qed.

Lemma SFcompare_some (x y : spec_float) c :
  SFcompare x y = Some c -> SFnum x = true /\ SFnum y = true.
Proof.
  destruct x as [sx|sx| |sx mx ex], y as [sy|sy| |sy my ey]; simpl;
    try discriminate; intros _; split; reflexivity.
Qed.

Lemma SFleb_trans (x y z : spec_float) :
  SFleb x y = true -> SFleb y z = true -> SFleb x z = true.
Proof.
  unfold SFleb.
  destruct x as [sx|sx| |sx mx ex], y as [sy|sy| |sy my ey], z as [sz|sz| |sz mz ez];
    try destruct sx; try destruct sy; try destruct sz; simpl; try easy.
  all: change (Pos.compare_cont Eq ?a ?b) with (a ?= b)%positive.
  all: destruct (Z.compare_spec ex ey), (Z.compare_spec ey ez), (Z.compare_spec ex ez);
    simpl; try easy; try lia.
  all: subst; destruct (Pos.compare_spec mx my), (Pos.compare_spec my mz),
    (Pos.compare_spec mx mz); simpl; try easy; try lia.
Qed.

Lemma is_number_spec (x : float) : is_number x = SFnum (Prim2SF x).
Proof.
  unfold is_number. rewrite FloatAxioms.eqb_spec. unfold SFeqb.
  destruct (SFnum (Prim2SF x)) eqn:E.
  - rewrite SFcompare_refl by assumption. reflexivity.
  - destruct (Prim2SF x); try discriminate. reflexivity.
Qed.

Lemma leb_number (x y : float) :
  (x <=? y)%float = true -> is_number x = true /\ is_number y = true.
Proof.
  rewrite FloatAxioms.leb_spec, !is_number_spec. unfold SFleb.
  destruct (SFcompare (Prim2SF x) (Prim2SF y)) as [c|] eqn:E; [|discriminate].
  intros _. exact (SFcompare_some _ _ _ E).
Qed.

Lemma eqb_number (x y : float) :
  (x =? y)%float = true -> is_number x = true /\ is_number y = true.
Proof.
  rewrite FloatAxioms.eqb_spec, !is_number_spec. unfold SFeqb.
  destruct (SFcompare (Prim2SF x) (Prim2SF y)) as [c|] eqn:E; [|discriminate].
  intros _. exact (SFcompare_some _ _ _ E).
Qed.

Lemma leb_refl (x : float) : is_number x = true -> (x <=? x)%float = true.
Proof.
  rewrite FloatAxioms.leb_spec, is_number_spec. intros H. unfold SFleb.
  rewrite SFcompare_refl by assumption. reflexivity.
Qed.

Lemma ltb_leb (x y : float) : (x <? y)%float = true -> (x <=? y)%float = true.
Proof.
  rewrite FloatAxioms.ltb_spec, FloatAxioms.leb_spec. unfold SFltb, SFleb.
  destruct (SFcompare (Prim2SF x) (Prim2SF y)) as [[]|]; easy.
Qed.

Lemma eqb_leb (x y : float) : (x =? y)%float = true -> (x <=? y)%float = true.
Proof.
  rewrite FloatAxioms.eqb_spec, FloatAxioms.leb_spec. unfold SFeqb, SFleb.
  destruct (SFcompare (Prim2SF x) (Prim2SF y)) as [[]|]; easy.
Qed.

Lemma eqb_sym (x y : float) : (x =? y)%float = true -> (y =? x)%float = true.
Proof.
  rewrite !FloatAxioms.eqb_spec. unfold SFeqb.
  rewrite (SFcompare_antisym (Prim2SF x) (Prim2SF y)).
  destruct (SFcompare (Prim2SF x) (Prim2SF y)) as [[]|]; easy.
Qed.

(** Two numbers are always comparable: when [x < y] fails, [y <= x]. *)
Lemma not_ltb_leb (x y : float) :
  is_number x = true -> is_number y = true ->
  (x <? y)%float = false -> (y <=? x)%float = true.
Proof.
  rewrite !is_number_spec, FloatAxioms.ltb_spec, FloatAxioms.leb_spec. unfold SFltb, SFleb.
  intros Hx Hy.
  rewrite (SFcompare_antisym (Prim2SF x) (Prim2SF y)).
  destruct (SFcompare_num _ _ Hx Hy) as [c ->].
  destruct c; easy.
Qed.

Lemma leb_trans (x y z : float) :
  (x <=? y)%float = true -> (y <=? z)%float = true -> (x <=? z)%float = true.
Proof. rewrite !FloatAxioms.leb_spec. apply SFleb_trans. Qed.

Lemma leb_antisym (x y : float) :
  (x <=? y)%float = true -> (y <=? x)%float = true -> (x =? y)%float = true.
Proof.
  rewrite !FloatAxioms.leb_spec, FloatAxioms.eqb_spec. unfold SFleb, SFeqb.
  rewrite (SFcompare_antisym (Prim2SF x) (Prim2SF y)).
  destruct (SFcompare (Prim2SF x) (Prim2SF y)) as [[]|]; easy.
Qed.

Lemma leb_infinity (x : float) :
  is_number x = true -> (x <=? infinity)%float = true.
Proof.
  rewrite is_number_spec, FloatAxioms.leb_spec.
  change (Prim2SF infinity) with (S754_infinity false).
  destruct (Prim2SF x) as [s|s| |s m e]; try destruct s; easy.
Qed.

Lemma valid_duration_number (d : float) :
  valid_duration d -> is_number d = true.
Proof. intros H. apply (leb_number _ _ H). Qed.

End FloatOrder.

(** ** The aggregator's update on a single [FunctionStats] *)

Module StatsFacts.
Import Stats FloatOrder.

Lemma record_all_snoc ds d s :
  record_all (ds ++ [d]) s = update (record_all ds s) d.
Proof. unfold record_all. rewrite fold_left_app. reflexivity. Qed.


Lemma call_count_record_all ds s :
  call_count (record_all ds s) = call_count s + Z.of_nat (length ds).
Proof.
  revert s. induction ds as [|d ds IH]; intros s; simpl.
  - lia.
  - rewrite IH. simpl. lia.
Qed.

Lemma total_time_record_all ds s :
  total_time (record_all ds s) = float_sum_from (total_time s) ds.
Proof.
  revert s. induction ds as [|d ds IH]; intros s; simpl.
  - reflexivity.
  - rewrite IH. reflexivity.
Qed.

(** The first sample replaces both sentinels, up to [==]. *)
Lemma minimum_first d :
  valid_duration d -> is_minimum_of (py_min infinity d) [d].
Proof.
  intros Hd. pose proof (valid_duration_number d Hd) as Hn.
  unfold py_min. destruct (d <? infinity)%float eqn:E.
  - split; constructor; auto using leb_refl.
  - assert ((infinity <=? d)%float = true) as Hle
      by (apply not_ltb_leb; [assumption|reflexivity|assumption]).
    split; constructor; auto.
    apply leb_antisym; auto using leb_infinity.
Qed.

Lemma maximum_first d :
  valid_duration d -> is_maximum_of (py_max 0 d) [d].
Proof.
  intros Hd. pose proof (valid_duration_number d Hd) as Hn.
  unfold py_max. destruct (0 <? d)%float eqn:E.
  - split; constructor; auto using leb_refl.
  - assert ((d <=? 0)%float = true) as Hle
      by (apply not_ltb_leb; [reflexivity|assumption|assumption]).
    split; constructor; auto.
    apply leb_antisym; auto.
Qed.

Lemma minimum_number m ds : is_minimum_of m ds -> is_number m = true.
Proof.
  intros [Hex _]. apply Exists_exists in Hex as (d & _ & Hd).
  apply (eqb_number _ _ Hd).
Qed.

Lemma maximum_number m ds : is_maximum_of m ds -> is_number m = true.
Proof.
  intros [Hex _]. apply Exists_exists in Hex as (d & _ & Hd).
  apply (eqb_number _ _ Hd).
Qed.

Lemma minimum_step m ds d :
  is_minimum_of m ds -> is_number d = true ->
  is_minimum_of (py_min m d) (ds ++ [d]).
Proof.
  intros Hm Hd. pose proof (minimum_number _ _ Hm) as Hn.
  destruct Hm as [Hex Hall]. unfold py_min.
  destruct (d <? m)%float eqn:E.
  - split.
    + apply Exists_app. right. constructor. exact Hd.
    + apply Forall_app. split.
      * eapply Forall_impl; [exact Hall|]. intros x Hx. simpl in Hx.
        eapply leb_trans; [apply ltb_leb; exact E|exact Hx].
      * constructor; auto using leb_refl.
  - split.
    + apply Exists_app. left. exact Hex.
    + apply Forall_app. split; [exact Hall|].
      constructor; auto. apply not_ltb_leb; assumption.
Qed.

Lemma maximum_step m ds d :
  is_maximum_of m ds -> is_number d = true ->
  is_maximum_of (py_max m d) (ds ++ [d]).
Proof.
  intros Hm Hd. pose proof (maximum_number _ _ Hm) as Hn.
  destruct Hm as [Hex Hall]. unfold py_max.
  destruct (m <? d)%float eqn:E.
  - split.
    + apply Exists_app. right. constructor. exact Hd.
    + apply Forall_app. split.
      * eapply Forall_impl; [exact Hall|]. intros x Hx. simpl in Hx.
        eapply leb_trans; [exact Hx|apply ltb_leb; exact E].
      * constructor; auto using leb_refl.
  - split.
    + apply Exists_app. left. exact Hex.
    + apply Forall_app. split; [exact Hall|].
      constructor; auto. apply not_ltb_leb; assumption.
Qed.

(** After at least one sample the two extremes are those of the samples. *)
Lemma extremes_record_all ds :
  ds <> [] -> Forall valid_duration ds ->
  is_minimum_of (min_time (record_all ds sentinel)) ds /\
  is_maximum_of (max_time (record_all ds sentinel)) ds.
Proof.
  induction ds as [|d ds IH] using rev_ind; [congruence|].
  intros _ Hall. apply Forall_app in Hall as [Hds Hd].
  apply Forall_inv in Hd. rewrite record_all_snoc. simpl.
  destruct ds as [|d0 ds0].
  - simpl. split; [apply minimum_first|apply maximum_first]; assumption.
  - destruct IH as [Hmin Hmax]; [congruence|assumption|].
    split; [apply minimum_step|apply maximum_step];
      auto using valid_duration_number.
Qed.

(** The smallest sample never exceeds the largest. *)
Lemma min_le_max m M ds :
  is_minimum_of m ds -> is_maximum_of M ds -> (m <=? M)%float = true.
Proof.
  intros [Hex Hlow] [_ Hhigh].
  apply Exists_exists in Hex as (d & Hin & Hd).
  rewrite Forall_forall in Hhigh.
  eapply leb_trans; [apply eqb_leb; exact Hd|]. apply Hhigh, Hin.
Qed.

End StatsFacts.

(** ** The statistics table: entries, references and the heap *)

Module TableFacts.
Import Stats Py Tracer FloatOrder StatsFacts.

Lemma stats_wf_init slot mods : stats_wf (init_world slot mods).
Proof. intros f l. simpl. rewrite lookup_empty. discriminate. Qed.

Lemma record_returns f d w : fst (record f d w) = Returns tt.
Proof.
  unfold record, bind, stats_getitem, modify.
  destruct (stats w !! f); reflexivity.
Qed.

Lemma record_absent f d w :
  stats w !! f = None ->
  stats (snd (record f d w)) = <[f := length (heap w)]> (stats w) /\
  heap (snd (record f d w)) = heap w ++ [update sentinel d].
Proof.
  intros Hf. unfold record, bind, stats_getitem, modify. rewrite Hf. simpl.
  split; [reflexivity|].
  rewrite alter_app_r_alt by lia.
  rewrite Nat.sub_diag. reflexivity.
Qed.

Lemma record_present f d w l :
  stats w !! f = Some l ->
  stats (snd (record f d w)) = stats w /\
  heap (snd (record f d w)) = alter (fun s => update s d) l (heap w).
Proof.
  intros Hf. unfold record, bind, stats_getitem, modify. rewrite Hf. simpl.
  split; reflexivity.
Qed.

(** [record] touches the table and the heap only. *)
Lemma record_frame f d w :
  snd (record f d w) =
  set_heap (heap (snd (record f d w))) (set_stats (stats (snd (record f d w))) w).
Proof.
  unfold record, bind, stats_getitem, modify.
  destruct (stats w !! f); destruct w; reflexivity.
Qed.

(** What [record] does to the table and the heap depends on them only. *)
Lemma record_store f d w w' :
  stats w = stats w' -> heap w = heap w' ->
  stats (snd (record f d w)) = stats (snd (record f d w')) /\
  heap (snd (record f d w)) = heap (snd (record f d w')).
Proof.
  intros Hs Hh. unfold record, bind, stats_getitem, modify.
  rewrite <- Hs, <- Hh. destruct (stats w !! f); simpl; rewrite <- ?Hh, <- ?Hs; auto.
Qed.

Lemma valid_entry_record f g d w :
  valid_entry w g -> valid_entry (snd (record f d w)) g.
Proof.
  intros Hg l. destruct (stats w !! f) as [lf|] eqn:Hf.
  - destruct (record_present f d w lf Hf) as [-> ->].
    rewrite length_alter. apply Hg.
  - destruct (record_absent f d w Hf) as [-> ->].
    rewrite length_app. simpl.
    destruct (decide (f = g)) as [->|Hne].
    + rewrite lookup_insert_eq. intros [= <-]. lia.
    + rewrite lookup_insert_ne by assumption. intros Hl. apply Hg in Hl. lia.
Qed.

Lemma stats_wf_record f d w : stats_wf w -> stats_wf (snd (record f d w)).
Proof. intros Hw g. apply valid_entry_record, Hw. Qed.

(** The update lands on the entry of [f]: a fresh sentinel when [f] has
    none yet. *)
Lemma entry_record f d w :
  valid_entry w f ->
  entry (snd (record f d w)) f = Some (update (current w f) d).
Proof.
  intros Hv. unfold current, entry, read_entry.
  destruct (stats w !! f) as [l|] eqn:Hf.
  - destruct (record_present f d w l Hf) as [-> ->].
    rewrite Hf. simpl. rewrite list_lookup_alter_eq.
    destruct (lookup_lt_is_Some_2 (heap w) l (Hv l Hf)) as [s Hs].
    rewrite Hs. reflexivity.
  - destruct (record_absent f d w Hf) as [-> ->].
    rewrite lookup_insert_eq. simpl.
    rewrite lookup_app_r by lia. rewrite Nat.sub_diag. reflexivity.
Qed.

(** A table copied before an update reads the updated object afterwards:
    the copy holds the reference, not the fields. *)
Lemma read_entry_follows_record f d w l s :
  stats w !! f = Some l -> heap w !! l = Some s ->
  read_entry (stats w) w f = Some s /\
  read_entry (stats w) (snd (record f d w)) f = Some (update s d).
Proof.
  intros Hf Hs. unfold read_entry. rewrite Hf. simpl.
  split; [exact Hs|].
  destruct (record_present f d w l Hf) as [_ ->].
  rewrite list_lookup_alter_eq, Hs. reflexivity.
Qed.


Lemma record_each_returns f ds w : fst (record_each f ds w) = Returns tt.
Proof.
  revert w. induction ds as [|d ds IH]; intros w; [reflexivity|].
  unfold record_each in *. simpl. unfold bind at 1.
  pose proof (record_returns f d w) as Hr.
  destruct (record f d w) as [r w1]. simpl in Hr. subst r. apply IH.
Qed.

Lemma record_each_cons f d ds w :
  snd (record_each f (d :: ds) w) = snd (record_each f ds (snd (record f d w))).
Proof.
  unfold record_each. simpl. unfold bind at 1.
  pose proof (record_returns f d w) as Hr.
  destruct (record f d w) as [r w1]. simpl in Hr. subst r. reflexivity.
Qed.


Lemma entry_record_each f ds w :
  valid_entry w f -> ds <> [] ->
  entry (snd (record_each f ds w)) f = Some (record_all ds (current w f)).
Proof.
  intros Hv Hne. destruct ds as [|d ds]; [congruence|].
  rewrite record_each_cons.
  pose proof (valid_entry_record f f d w Hv) as Hv1.
  pose proof (entry_record f d w Hv) as He.
  clear Hne. simpl.
  remember (snd (record f d w)) as w1 eqn:Hw1.
  remember (update (current w f) d) as s1 eqn:Hs1. clear Hw1 Hs1 Hv w.
  revert w1 s1 Hv1 He. induction ds as [|d' ds IH]; intros w1 s1 Hv1 He.
  - exact He.
  - rewrite record_each_cons. simpl. apply IH.
    + apply valid_entry_record; exact Hv1.
    + rewrite entry_record by assumption. unfold current. rewrite He. reflexivity.
Qed.

End TableFacts.

(** ** Statistics Aggregator *)

Module Aggregator.
Import Stats Py Tracer FloatOrder StatsFacts TableFacts.

(** C5. For every function identity [f] that has no entry yet (its entry is
    created from the sentinel values on the first access) and every
    non-empty sequence [ds] of recorded durations (elapsed times: numbers,
    not negative), one [record] per duration leaves an entry for [f] with
    [call_count == N], [total_time == sum(ds)] (the binary64 sum, oldest
    sample first), [min_time == min(ds)], [max_time == max(ds)] and
    [avg_time == total_time / N], where [N] is the length of [ds]. *)
Theorem record_each_summary (f : Callable) (ds : list float) (w : World) :
  ds <> [] ->
  Forall valid_duration ds ->
  stats w !! f = None ->
  exists s,
    entry (snd (record_each f ds w)) f = Some s /\
    call_count s = Z.of_nat (length ds) /\
    total_time s = float_sum ds /\
    is_minimum_of (min_time s) ds /\
    is_maximum_of (max_time s) ds /\
    avg_time s = (total_time s / float_of_int (Z.of_nat (length ds)))%float.
Proof.
  intros Hne Hvalid Hfresh.
  assert (valid_entry w f) as Hv by (intros l; rewrite Hfresh; discriminate).
  assert (current w f = sentinel) as Hcur
    by (unfold current, entry, read_entry; rewrite Hfresh; reflexivity).
  exists (record_all ds sentinel).
  rewrite entry_record_each, Hcur by assumption.
  destruct (extremes_record_all ds Hne Hvalid) as [Hmin Hmax].
  assert (call_count (record_all ds sentinel) = Z.of_nat (length ds)) as Hcount
    by (rewrite call_count_record_all; simpl; lia).
  split; [reflexivity|]. split; [exact Hcount|].
  split; [apply total_time_record_all|].
  split; [exact Hmin|]. split; [exact Hmax|].
  unfold avg_time. rewrite Hcount.
  destruct ds as [|d ds']; [congruence|]. reflexivity.
Qed.

(** Three samples recorded for a function that has no entry yet. *)
Lemma record_each_summary_witness :
  exists s,
    entry (snd (record_each (Fn 3) [tenth; 0.25%float; tenth]
                  (init_world None ∅))) (Fn 3) = Some s /\
    call_count s = Z.of_nat (length [tenth; 0.25%float; tenth]) /\
    total_time s = float_sum [tenth; 0.25%float; tenth] /\
    is_minimum_of (min_time s) [tenth; 0.25%float; tenth] /\
    is_maximum_of (max_time s) [tenth; 0.25%float; tenth] /\
    avg_time s =
      (total_time s /
         float_of_int (Z.of_nat (length [tenth; 0.25%float; tenth])))%float.
Proof.
  apply (record_each_summary (Fn 3) [tenth; 0.25%float; tenth] (init_world None ∅)).
  - discriminate.
  - repeat constructor.
  - reflexivity.
Defined.

(** C8, as the specification states it, fails on three samples of 0.1:
    the binary64 sum of the three is 0.30000000000000004 and its quotient
    by 3 is 0.10000000000000002, above [max_time = 0.1]. *)
Lemma avg_time_above_max_time :
  Forall valid_duration [tenth; tenth; tenth] /\
  call_count (record_all [tenth; tenth; tenth] sentinel) = 3 /\
  max_time (record_all [tenth; tenth; tenth] sentinel) = tenth /\
  (avg_time (record_all [tenth; tenth; tenth] sentinel)
     <=? max_time (record_all [tenth; tenth; tenth] sentinel))%float = false.
Proof. repeat split; repeat constructor. Qed.

(** C8 (amended). For every [FunctionStats] entry reached from the sentinel
    entry by aggregator updates with durations that are numbers and not
    negative: while [call_count = 0] the entry has [avg_time = 0],
    [min_time] at the infinity sentinel and [max_time] at the 0 sentinel;
    once [call_count >= 1], [min_time <= max_time] and [avg_time] is the
    binary64 quotient [total_time / call_count] (which rounding can place
    outside the interval from [min_time] to [max_time]). *)
Theorem stats_entry_invariant (ds : list float) :
  Forall valid_duration ds ->
  call_count (record_all ds sentinel) = Z.of_nat (length ds) /\
  (call_count (record_all ds sentinel) = 0 ->
     avg_time (record_all ds sentinel) = 0%float /\
     min_time (record_all ds sentinel) = infinity /\
     max_time (record_all ds sentinel) = 0%float) /\
  (1 <= call_count (record_all ds sentinel) ->
     (min_time (record_all ds sentinel)
        <=? max_time (record_all ds sentinel))%float = true /\
     avg_time (record_all ds sentinel) =
       (total_time (record_all ds sentinel)
          / float_of_int (call_count (record_all ds sentinel)))%float).
Proof.
  intros Hvalid.
  assert (call_count (record_all ds sentinel) = Z.of_nat (length ds)) as Hcount
    by (rewrite call_count_record_all; simpl; lia).
  split; [exact Hcount|]. split.
  - intros Hzero. rewrite Hcount in Hzero.
    destruct ds as [|d ds']; [|simpl in Hzero; lia].
    repeat split; reflexivity.
  - intros Hpos. rewrite Hcount in Hpos.
    assert (ds <> []) as Hne by (intros ->; simpl in Hpos; lia).
    destruct (extremes_record_all ds Hne Hvalid) as [Hmin Hmax].
    split; [eapply min_le_max; eassumption|].
    unfold avg_time. rewrite Hcount.
    destruct (0 <? Z.of_nat (length ds))%Z eqn:E; [reflexivity|].
    apply Z.ltb_ge in E. lia.
Qed.

(** The three samples of 0.1 again. *)
Lemma stats_entry_invariant_witness :
  call_count (record_all [tenth; tenth; tenth] sentinel)
    = Z.of_nat (length [tenth; tenth; tenth]) /\
  (call_count (record_all [tenth; tenth; tenth] sentinel) = 0 ->
     avg_time (record_all [tenth; tenth; tenth] sentinel) = 0%float /\
     min_time (record_all [tenth; tenth; tenth] sentinel) = infinity /\
     max_time (record_all [tenth; tenth; tenth] sentinel) = 0%float) /\
  (1 <= call_count (record_all [tenth; tenth; tenth] sentinel) ->
     (min_time (record_all [tenth; tenth; tenth] sentinel)
        <=? max_time (record_all [tenth; tenth; tenth] sentinel))%float = true /\
     avg_time (record_all [tenth; tenth; tenth] sentinel) =
       (total_time (record_all [tenth; tenth; tenth] sentinel)
          / float_of_int (call_count (record_all [tenth; tenth; tenth] sentinel)))%float).
Proof.
  apply (stats_entry_invariant [tenth; tenth; tenth]).
  repeat constructor.
Defined.

End Aggregator.

(** ** Reasoning about the operations: outcomes and frames *)

Module MonadFacts.
Import Stats Py Tracer.

Lemma bind_gets {A B} (f : World -> A) (k : A -> M B) w :
  bind (gets f) k w = k (f w) w.
Proof. reflexivity. Qed.

Lemma bind_modify {B} (f : World -> World) (k : unit -> M B) w :
  bind (modify f) k w = k tt (f w).
Proof. reflexivity. Qed.

Lemma bind_ret {A B} (a : A) (k : A -> M B) w : bind (ret a) k w = k a w.
Proof. reflexivity. Qed.

Lemma bind_returns {A B} (m : M A) (k : A -> M B) w a :
  fst (m w) = Returns a -> bind m k w = k a (snd (m w)).
Proof. unfold bind. destruct (m w) as [r w1]. simpl. intros ->. reflexivity. Qed.

Lemma total_unit (m : M unit) w : total m -> fst (m w) = Returns tt.
Proof. intros Hm. destruct (Hm w) as [[] Ha]. exact Ha. Qed.

Lemma bind_total (m : M unit) {B} (k : unit -> M B) w :
  total m -> bind m k w = k tt (snd (m w)).
Proof. intros Hm. apply bind_returns, total_unit, Hm. Qed.

Lemma total_ret {A} (a : A) : total (ret a).
Proof. intros w. eexists. reflexivity. Qed.

Lemma total_gets {A} (f : World -> A) : total (gets f).
Proof. intros w. eexists. reflexivity. Qed.

Lemma total_modify f : total (modify f).
Proof. intros w. eexists. reflexivity. Qed.

Lemma total_bind {A B} (m : M A) (k : A -> M B) :
  total m -> (forall a, total (k a)) -> total (bind m k).
Proof.
  intros Hm Hk w. destruct (Hm w) as [a Ha].
  rewrite (bind_returns _ _ _ _ Ha). apply Hk.
Qed.

Lemma total_for_each {A} (xs : list A) body :
  (forall x, total (body x)) -> total (for_each xs body).
Proof.
  intros Hb. induction xs as [|x xs IH]; simpl.
  - apply total_ret.
  - apply total_bind; auto.
Qed.

Lemma total_try_except {A} (m : M A) handler :
  (forall e, total (handler e)) -> total (try_except m handler).
Proof.
  intros Hh w. unfold try_except. destruct (m w) as [[a|e] w1].
  - eexists. reflexivity.
  - apply Hh.
Qed.

(** A loop whose body always returns is a fold over the worlds. *)
Lemma for_each_fold {A} (xs : list A) (body : A -> M unit) w :
  (forall x, total (body x)) ->
  for_each xs body w = (Returns tt, fold_left (fun w x => snd (body x w)) xs w).
Proof.
  intros Hb. revert w. induction xs as [|x xs IH]; intros w; simpl.
  - reflexivity.
  - rewrite bind_total by apply Hb. apply IH.
Qed.

Lemma preserves_ret {A} P (a : A) : preserves P (ret a).
Proof. intros w Hw. exact Hw. Qed.

Lemma preserves_gets {A} P (f : World -> A) : preserves P (gets f).
Proof. intros w Hw. exact Hw. Qed.

Lemma preserves_raise {A} P e : preserves P (@raise A e).
Proof. intros w Hw. exact Hw. Qed.

Lemma preserves_modify P f :
  (forall w, P w -> P (f w)) -> preserves P (modify f).
Proof. intros Hf w Hw. apply Hf, Hw. Qed.

Lemma preserves_bind {A B} P (m : M A) (k : A -> M B) :
  preserves P m -> (forall a, preserves P (k a)) -> preserves P (bind m k).
Proof.
  intros Hm Hk w Hw. unfold bind. specialize (Hm w Hw).
  destruct (m w) as [[a|e] w1]; simpl in *.
  - apply Hk, Hm.
  - exact Hm.
Qed.

Lemma preserves_for_each {A} P (xs : list A) body :
  (forall x, preserves P (body x)) -> preserves P (for_each xs body).
Proof.
  intros Hb. induction xs as [|x xs IH]; simpl.
  - apply preserves_ret.
  - apply preserves_bind; auto.
Qed.

Lemma preserves_try_except {A} P (m : M A) handler :
  preserves P m -> (forall e, preserves P (handler e)) ->
  preserves P (try_except m handler).
Proof.
  intros Hm Hh w Hw. unfold try_except. specialize (Hm w Hw).
  destruct (m w) as [[a|e] w1]; simpl in *.
  - exact Hm.
  - apply Hh, Hm.
Qed.

(** Splits an operation into its steps; what is left are the steps that
    write a field. *)
Ltac frame_steps :=
  repeat match goal with
    | |- preserves _ (ret _) => apply preserves_ret
    | |- preserves _ (gets _) => apply preserves_gets
    | |- preserves _ (raise _) => apply preserves_raise
    | |- preserves _ (bind _ _) => apply preserves_bind; [|intros ?]
    | |- preserves _ (for_each _ _) => apply preserves_for_each; intros ?
    | |- preserves _ (try_except _ _) => apply preserves_try_except; [|intros ?]
    | |- preserves _ (modify _) => apply preserves_modify; intros ? ?
    | |- preserves _ (if ?b then _ else _) => destruct b
    | |- preserves _ (match ?x with _ => _ end) => destruct x
    end.

(** Closes a frame condition on a predicate that reads other fields. *)
Ltac solve_frame :=
  repeat split; intros;
  repeat match goal with
    | H : same_store _ _ |- _ => destruct H
    | H : _ /\ _ |- _ => destruct H
    end;
  match goal with H : _ |- _ => exact H end.

Ltac total_steps :=
  repeat match goal with
    | |- total (ret _) => apply total_ret
    | |- total (gets _) => apply total_gets
    | |- total (modify _) => apply total_modify
    | |- total (bind _ _) => apply total_bind; [|intros ?]
    | |- total (for_each _ _) => apply total_for_each; intros ?
    | |- total (try_except _ _) => apply total_try_except; intros ?
    | |- total (if ?b then _ else _) => destruct b
    | |- total (match ?x with _ => _ end) => destruct x
    end.

End MonadFacts.

(** ** Opaque Function Wrapper: frames and outcomes *)

Module WrapperFacts.
Import Stats Py Tracer MonadFacts.

Section WithHost.
Context (host : Host).

Lemma total_rebind func v : total (rebind host func v).
Proof.
  intros w. unfold rebind. destruct (qualname_of host func) as [[m n]|].
  - destruct (modules w !! m); eexists; reflexivity.
  - eexists; reflexivity.
Qed.

Lemma total_wrap_one cell func : total (wrap_one host cell func).
Proof. unfold wrap_one. cbv zeta. total_steps. apply total_rebind. Qed.

Lemma total_setup : total (_setup_builtin_tracing host).
Proof.
  unfold _setup_builtin_tracing.
  apply total_bind; [apply total_gets|intros cell].
  apply total_bind; [apply total_modify|intros _].
  apply total_bind; [apply total_gets|intros fs].
  apply total_for_each. intros func. apply total_wrap_one.
Qed.

Lemma total_restore : total (_restore_builtin_functions host).
Proof.
  unfold _restore_builtin_functions, restore_one. total_steps. apply total_rebind.
Qed.

Lemma total_register func : total (register host func).
Proof. unfold register. total_steps. Qed.

(** [rebind] writes module namespaces only. *)
Lemma preserves_rebind P func v :
  (forall w mods, P w -> P (set_modules mods w)) ->
  preserves P (rebind host func v).
Proof.
  intros HP w Hw. unfold rebind. destruct (qualname_of host func) as [[m n]|].
  - destruct (modules w !! m); simpl; auto.
  - exact Hw.
Qed.

Lemma preserves_wrap_one P cell func :
  wrapper_frame P -> preserves P (wrap_one host cell func).
Proof.
  intros HP. unfold wrap_one. cbv zeta. frame_steps.
  all: try (apply preserves_rebind; intros; apply HP; assumption).
  all: apply HP; assumption.
Qed.

Lemma preserves_setup P :
  wrapper_frame P -> preserves P (_setup_builtin_tracing host).
Proof.
  intros HP. unfold _setup_builtin_tracing.
  apply preserves_bind; [apply preserves_gets|intros cell].
  apply preserves_bind; [apply preserves_modify; intros; apply HP; assumption|intros _].
  apply preserves_bind; [apply preserves_gets|intros fs].
  apply preserves_for_each. intros func. apply preserves_wrap_one, HP.
Qed.

Lemma preserves_restore P :
  wrapper_frame P -> preserves P (_restore_builtin_functions host).
Proof.
  intros HP. unfold _restore_builtin_functions.
  apply preserves_bind; [apply preserves_gets|intros originals].
  apply preserves_bind; [|intros _].
  { apply preserves_for_each. intros item. unfold restore_one.
    apply preserves_rebind. intros; apply HP; assumption. }
  frame_steps; apply HP; assumption.
Qed.

End WithHost.
End WrapperFacts.

(** ** Tracer Controller: frames and outcomes *)

Module ControllerFacts.
Import Stats Py Tracer MonadFacts WrapperFacts.

Section WithHost.
Context (host : Host).

Lemma preserves_register P func :
  update_frame P -> preserves P (register host func).
Proof.
  intros [HP HT]. unfold register. frame_steps.
  - apply HP; assumption.
  - apply HT; assumption.
Qed.

Lemma preserves_update_functions P functions :
  update_frame P -> preserves P (update_functions host functions).
Proof.
  intros HP. pose proof HP as [HW HT]. unfold update_functions.
  apply preserves_bind; [apply preserves_gets|intros en].
  destruct (negb en); [apply preserves_raise|].
  apply preserves_bind; [apply preserves_restore, HW|intros _].
  apply preserves_bind; [apply preserves_modify; intros; apply HT; assumption|intros _].
  apply preserves_bind; [apply preserves_modify; intros; apply HW; assumption|intros _].
  apply preserves_bind; [|intros _; apply preserves_setup, HW].
  apply preserves_for_each. intros func. apply preserves_register, HP.
Qed.

Lemma preserves_enable P functions :
  lifecycle_frame P -> preserves P (enable host functions).
Proof.
  intros [HU HL]. pose proof HU as [HW HT]. unfold enable.
  apply preserves_bind; [apply preserves_gets|intros en].
  destruct en.
  - destruct (truthy functions);
      [apply preserves_update_functions, HU|apply preserves_ret].
  - apply preserves_bind; [apply preserves_modify; intros; apply HT; assumption|intros _].
    apply preserves_bind; [|intros _].
    { destruct (truthy functions); [|apply preserves_ret].
      apply preserves_for_each. intros func. apply preserves_register, HU. }
    apply preserves_bind; [apply preserves_gets|intros current_tracer].
    apply preserves_bind; [apply preserves_modify; intros; apply HL; assumption|intros _].
    apply preserves_bind; [apply preserves_modify; intros; apply HL; assumption|intros _].
    apply preserves_bind; [apply preserves_setup, HW|intros _].
    apply preserves_modify; intros; apply HL; assumption.
Qed.

Lemma preserves_disable P : lifecycle_frame P -> preserves P (disable host).
Proof.
  intros [HU HL]. pose proof HU as [HW HT]. unfold disable.
  apply preserves_bind; [apply preserves_gets|intros en].
  destruct (negb en); [apply preserves_gets|].
  apply preserves_bind; [apply preserves_gets|intros original].
  apply preserves_bind; [apply preserves_modify; intros; apply HL; assumption|intros _].
  apply preserves_bind; [apply preserves_restore, HW|intros _].
  apply preserves_bind; [apply preserves_modify; intros; apply HL; assumption|intros _].
  apply preserves_bind; [apply preserves_modify; intros; apply HL; assumption|intros _].
  apply preserves_gets.
Qed.

(** Frames used below: the statistics, the decorated set, the enabled flag. *)
Lemma lifecycle_frame_store w0 : lifecycle_frame (fun w => same_store w w0).
Proof. solve_frame. Qed.

Lemma lifecycle_frame_decorated D :
  lifecycle_frame (fun w => decorated_functions w = D).
Proof. solve_frame. Qed.

Lemma update_frame_enabled b : update_frame (fun w => enabled w = b).
Proof. solve_frame. Qed.

Lemma wrapper_frame_traced T D :
  wrapper_frame (fun w => traced_functions w = T /\ decorated_functions w = D).
Proof. solve_frame. Qed.

Lemma enable_store functions w : same_store (snd (enable host functions w)) w.
Proof.
  apply (preserves_enable (fun x => same_store x w)).
  - apply lifecycle_frame_store.
  - split; reflexivity.
Qed.

Lemma disable_store w : same_store (snd (disable host w)) w.
Proof.
  apply (preserves_disable (fun x => same_store x w)).
  - apply lifecycle_frame_store.
  - split; reflexivity.
Qed.

Lemma total_registers (functions : option (list Callable)) :
  total (if truthy functions
         then for_each (default [] functions) (register host)
         else ret tt).
Proof.
  destruct (truthy functions); [|apply total_ret].
  apply total_for_each. intros func. apply total_register.
Qed.

(** [enable] always returns, and leaves tracing enabled. *)
Lemma enable_returns functions w : fst (enable host functions w) = Returns tt.
Proof.
  unfold enable. rewrite bind_gets.
  destruct (enabled w) eqn:Hen.
  - destruct (truthy functions); [|reflexivity].
    unfold update_functions. rewrite bind_gets, Hen. simpl.
    rewrite bind_total by apply total_restore.
    rewrite !bind_modify.
    rewrite bind_total by (apply total_for_each; intros; apply total_register).
    apply total_unit, total_setup.
  - rewrite bind_modify.
    rewrite bind_total by apply total_registers.
    rewrite bind_gets, !bind_modify.
    rewrite bind_total by apply total_setup.
    reflexivity.
Qed.

Lemma enable_enables functions w : enabled (snd (enable host functions w)) = true.
Proof.
  unfold enable. rewrite bind_gets.
  destruct (enabled w) eqn:Hen.
  - destruct (truthy functions); [|exact Hen].
    apply (preserves_update_functions (fun x => enabled x = true));
      [apply update_frame_enabled|exact Hen].
  - rewrite bind_modify.
    rewrite bind_total by apply total_registers.
    rewrite bind_gets, !bind_modify.
    rewrite bind_total by apply total_setup.
    reflexivity.
Qed.

(** [enable()] on a disabled tracer traces the decorated functions. *)
Lemma enable_none_disabled w :
  enabled w = false ->
  traced_functions (snd (enable host None w)) = decorated_functions w /\
  decorated_functions (snd (enable host None w)) = decorated_functions w.
Proof.
  intros Hdis. unfold enable. rewrite bind_gets, Hdis.
  rewrite bind_modify. simpl truthy. cbv iota.
  rewrite bind_ret, bind_gets, !bind_modify.
  rewrite bind_total by apply total_setup.
  unfold modify. simpl.
  apply (preserves_setup host
           (fun x => traced_functions x = decorated_functions w /\
                     decorated_functions x = decorated_functions w));
    [apply wrapper_frame_traced|].
  split; reflexivity.
Qed.

(** [disable] returns the table it leaves behind, which is the table it found. *)
Lemma disable_returns w : fst (disable host w) = Returns (stats w).
Proof.
  unfold disable. rewrite bind_gets.
  destruct (enabled w) eqn:Hen; simpl; [|reflexivity].
  rewrite bind_gets, bind_modify.
  rewrite bind_total by apply total_restore.
  rewrite !bind_modify. unfold gets. simpl. f_equal.
  apply (preserves_restore host (fun x => stats x = stats w)).
  - solve_frame.
  - reflexivity.
Qed.


End WithHost.
End ControllerFacts.

(** ** Opaque Function Wrapper *)

Module Wrapper.
Import Stats Py Tracer MonadFacts WrapperFacts.

(** C1 fails on the code when the wrapped native function raises:
    [math.checked] is wrapped, tracing is enabled, the original raises
    [ValueError]; the substitute raises the same error, and afterwards there
    is no statistics entry for the function at all: the failed call is not
    counted and no duration is recorded, where the claim has the update
    applied before the error is raised again. *)
Lemma failed_call_is_not_recorded :
  enabled Scenario.checked_session = true /\
  binding Scenario.checked_session "math" "checked"
    = Some (Substitute Scenario.checked_substitute) /\
  fst (wrapped_function Scenario.host Scenario.checked_substitute Scenario.no_args 1 2
         Scenario.checked_session) = Raises Scenario.domain_error /\
  entry (snd (wrapped_function Scenario.host Scenario.checked_substitute
                Scenario.no_args 1 2 Scenario.checked_session))
        Scenario.fail_fn = None.
Proof. repeat split; vm_compute; reflexivity. Qed.

(** The same for every substitute invoked while tracing is enabled: when
    the original callable it calls raises, the error leaves
    [wrapped_function] at [result = func(...)], before the duration is
    computed and before the entry is read. The caller gets the error
    unchanged, and no aggregator update is applied. *)
Theorem wrapped_function_propagates (host : Host) (wf : Wrapped) (args : Args)
    (t_start t_end : float) (w : World) (func : Callable) (e : Exn) :
  enabled w = true ->
  cells w !! closure_cell wf = Some (Some func) ->
  behaviour host func args = Raises e ->
  wrapped_function host wf args t_start t_end w = (Raises e, w).
Proof.
  intros Hen Hcell Hraise.
  unfold wrapped_function, bind, gets, read_cell, call_original.
  rewrite Hen. simpl. rewrite Hcell, Hraise. reflexivity.
Qed.

(** The failing native function of the scenario. *)
Lemma wrapped_function_propagates_witness :
  wrapped_function Scenario.host Scenario.checked_substitute Scenario.no_args 1 2
    Scenario.checked_session
  = (Raises Scenario.domain_error, Scenario.checked_session).
Proof.
  apply (wrapped_function_propagates Scenario.host Scenario.checked_substitute
           Scenario.no_args 1 2 Scenario.checked_session Scenario.fail_fn
           Scenario.domain_error); reflexivity.
Defined.

(** The other recording path does count a call that fails: when a traced
    Python function is left by an exception the interpreter still delivers
    the ['return'] event of its frame, with [None] as the argument, and
    [_trace_function] records the elapsed time of the call. *)
Lemma unwinding_call_is_recorded :
  entry (snd (traced_invocation Scenario.host Scenario.work_frame VNone VNone 1 2
                Scenario.work_session)) Scenario.work_fn
  = Some (update sentinel 1).
Proof. vm_compute. reflexivity. Qed.

(** C2 fails on the code when two native functions are wrapped in one
    session: the substitute installed at [math.sqrt] (built for [sqrt], as
    its [__wrapped__] says) reads the loop variable [func] when it is called,
    and by then the loop has left [floor] in it. Called while tracing is
    enabled, it returns what [floor] returns and records the call under
    [floor]; [sqrt] gets no entry. When the set is visited in the other
    order it is the substitute at [math.floor] that calls [sqrt]. *)
Theorem substitute_calls_last_wrapped :
  binding Scenario.math_session "math" "sqrt"
    = Some (Substitute Scenario.sqrt_substitute) /\
  wrapped_of Scenario.sqrt_substitute = Scenario.sqrt_fn /\
  behaviour Scenario.host Scenario.sqrt_fn Scenario.no_args = Returns (VInt 1) /\
  behaviour Scenario.host Scenario.floor_fn Scenario.no_args = Returns (VInt 2) /\
  fst (call Scenario.host (Substitute Scenario.sqrt_substitute) Scenario.no_args 1 2
         Scenario.math_session) = Returns (VInt 2) /\
  entry (snd (call Scenario.host (Substitute Scenario.sqrt_substitute)
                Scenario.no_args 1 2 Scenario.math_session))
        Scenario.sqrt_fn = None /\
  entry (snd (call Scenario.host (Substitute Scenario.sqrt_substitute)
                Scenario.no_args 1 2 Scenario.math_session))
        Scenario.floor_fn = Some (update sentinel 1) /\
  binding Scenario.math_session_reversed "math" "floor"
    = Some (Substitute Scenario.floor_substitute) /\
  fst (call Scenario.host (Substitute Scenario.floor_substitute) Scenario.no_args 1 2
         Scenario.math_session_reversed) = Returns (VInt 1).
Proof. repeat split; vm_compute; reflexivity. Qed.

End Wrapper.

(** ** Tracer Controller *)

Module Controller.
Import Stats Py Tracer MonadFacts WrapperFacts TableFacts.

Lemma elem_of_set_add (c : Callable) (s : list Callable) : c ∈ set_add c s.
Proof.
  unfold set_add. destruct (decide (c ∈ s)); [assumption|].
  apply elem_of_app. right. apply list_elem_of_singleton. reflexivity.
Qed.

(** C10. [FunctionTracer.trace(f)] adds [f] itself to the decorated set,
    changes nothing else, and returns a wrapper that does what [f] does:
    for every argument list and in every world, calling the wrapper returns
    or raises exactly what calling [f] returns or raises, and leaves the
    same world. *)
Theorem trace_registers_and_is_transparent (host : Host) (f : Callable) (w : World) :
  trace f w =
    (Returns (Decorated f),
     set_decorated_functions (set_add f (decorated_functions w)) w) /\
  f ∈ decorated_functions (snd (trace f w)) /\
  forall (args : Args) (t_start t_end : float) (w' : World),
    call host (Decorated f) args t_start t_end w'
    = call host (Original f) args t_start t_end w'.
Proof.
  split; [reflexivity|]. split.
  - simpl. apply elem_of_set_add.
  - intros args t_start t_end w'. reflexivity.
Qed.

(** C7. With tracing disabled, [update_functions] raises
    [RuntimeError("Tracing is not enabled")] and leaves the world as it was:
    the traced sets, the wrapper bookkeeping, the statistics, the call
    contexts and the installed hook. *)
Theorem update_functions_disabled (host : Host) (functions : list Callable) (w : World) :
  enabled w = false ->
  update_functions host functions w
  = (Raises (mkExn "RuntimeError" "Tracing is not enabled"), w).
Proof.
  intros Hdis. unfold update_functions, bind, gets. rewrite Hdis. reflexivity.
Qed.

(** A fresh tracer is disabled. *)
Lemma update_functions_disabled_witness :
  update_functions Scenario.host [Scenario.sqrt_fn] Scenario.fresh
  = (Raises (mkExn "RuntimeError" "Tracing is not enabled"), Scenario.fresh).
Proof.
  apply (update_functions_disabled Scenario.host [Scenario.sqrt_fn] Scenario.fresh).
  reflexivity.
Defined.

(** C4 fails on the code: [get_results()] copies the table, not the
    [FunctionStats] objects in it. After one invocation of [work] the
    returned map shows one call lasting 1; after a second invocation, of
    length 2, the same map shows two calls, a total of 3 and a maximum of 2.
    The map returned by [disable()] changes in the same way once tracing
    is enabled again. *)
Theorem snapshot_follows_later_updates :
  get_results Scenario.after_first_call
    = (Returns {[ Scenario.work_fn := 0%nat ]}, Scenario.after_first_call) /\
  read_entry {[ Scenario.work_fn := 0%nat ]} Scenario.after_first_call Scenario.work_fn
    = Some (mkStats 1 1 1 1) /\
  read_entry {[ Scenario.work_fn := 0%nat ]} Scenario.after_second_call Scenario.work_fn
    = Some (mkStats 2 3 1 2) /\
  fst (disable Scenario.host Scenario.after_first_call)
    = Returns {[ Scenario.work_fn := 0%nat ]} /\
  read_entry {[ Scenario.work_fn := 0%nat ]} Scenario.resumed_after_disable
    Scenario.work_fn
    = Some (mkStats 2 3 1 2).
Proof. repeat split; vm_compute; reflexivity. Qed.

End Controller.

(** ** Trace Hook Chain *)

Module HookChain.
Import Stats Py Tracer MonadFacts TableFacts.

Section WithHost.
Context (host : Host).

Lemma find_traced_matches (code : Code) (traced : list Callable) :
  match find_traced host code traced with Some _ => true | None => false end
  = existsb (fun f => bool_decide (code_of host f = Some code)) traced.
Proof.
  unfold find_traced. induction traced as [|f fs IH]; simpl; [reflexivity|].
  destruct (code_of host f) as [c|] eqn:Hc.
  - destruct (decide (c = code)) as [->|Hne].
    + rewrite !bool_decide_eq_true_2 by reflexivity. reflexivity.
    + rewrite !bool_decide_eq_false_2 by congruence. exact IH.
  - rewrite bool_decide_eq_false_2 by congruence. exact IH.
Qed.

Lemma set_forwarded_same (w : World) : set_forwarded (forwarded w) w = w.
Proof. destruct w. reflexivity. Qed.

(** The bookkeeping returns, says whether the event matched, and leaves the
    captured hook and the record of forwarded calls alone. *)
Lemma bookkeeping_outcome (frame : Frame) (event : string) (now : float) (w : World) :
  exists func,
    fst (bookkeeping host frame event now w) = Returns func /\
    match func with Some _ => true | None => false end
      = event_matches host w frame event /\
    forwarded (snd (bookkeeping host frame event now w)) = forwarded w /\
    original_trace_function (snd (bookkeeping host frame event now w))
      = original_trace_function w.
Proof.
  unfold bookkeeping, event_matches.
  destruct (String.eqb event "call").
  - rewrite <- find_traced_matches. unfold bind, gets. simpl.
    destruct (find_traced host (f_code frame) (traced_functions w)) as [func|];
      eexists; repeat split; reflexivity.
  - destruct (String.eqb event "return"); [|exists None; repeat split; reflexivity].
    unfold bind, gets, modify. simpl.
    destruct (call_stack w !! frame_id frame) as [[func start_time]|] eqn:Hctx.
    + rewrite bool_decide_eq_true_2 by (eexists; reflexivity).
      set (w1 := set_call_stack _ w).
      pose proof (record_returns func (now - start_time)%float w1) as Hr.
      pose proof (record_frame func (now - start_time)%float w1) as Hf.
      destruct (record func (now - start_time)%float w1) as [r w2].
      simpl in Hr, Hf. subst r.
      exists (Some func). unfold ret. simpl. rewrite Hf.
      repeat split; reflexivity.
    + rewrite bool_decide_eq_false_2 by (intros [? ?]; discriminate).
      exists None. repeat split; reflexivity.
Qed.

End WithHost.

(** C3. For every event [_trace_function] receives, provided the hook it
    captured is an external one or none (never itself):
    - with tracing disabled the call is the captured hook's call, with the
      same frame, event and argument: its result or error is handed back,
      and nothing of the tracer changes ([None] and no change at all when
      there is no hook);
    - with tracing enabled the bookkeeping runs first, the captured hook then
      receives the same frame, event and argument exactly once, an error it
      raises is swallowed, and the result is the tracer's own trace function
      when the event matched a traced function, otherwise what the hook
      returned ([None] when there is no hook or it raised). *)
Theorem trace_function_chain (host : Host) (w : World) (frame : Frame)
    (event : string) (arg : Value) (now : float) :
  original_trace_function w <> Some OwnTrace ->
  (enabled w = false ->
     _trace_function host frame event arg now w =
       (match original_trace_function w with
        | Some (ExternalTrace h) => hook_behaviour host h frame event arg
        | _ => Returns None
        end,
        set_forwarded (forwarded w ++ delivered w frame event arg) w)) /\
  (enabled w = true ->
     forwarded (snd (bookkeeping host frame event now w)) = forwarded w /\
     _trace_function host frame event arg now w =
       (Returns (if event_matches host w frame event then Some OwnTrace
                 else hook_answer host w frame event arg),
        set_forwarded (forwarded w ++ delivered w frame event arg)
          (snd (bookkeeping host frame event now w)))).
Proof.
  intros Hext. split; intros Hen.
  - unfold _trace_function, bind, gets, delivered. rewrite Hen. simpl.
    destruct (original_trace_function w) as [[|h]|]; [congruence| |].
    + reflexivity.
    + rewrite app_nil_r, set_forwarded_same. reflexivity.
  - destruct (bookkeeping_outcome host frame event now w)
      as (func & Hret & Hmatch & Hlog & Horig).
    split; [exact Hlog|].
    unfold _trace_function, hook_answer, delivered.
    rewrite bind_gets, Hen. simpl.
    rewrite (bind_returns _ _ _ _ Hret), bind_gets, Horig. rewrite <- Hmatch.
    destruct (original_trace_function w) as [[|h]|]; [congruence| |].
    + unfold bind, try_except, call_hook, ret. rewrite Hlog.
      destruct (hook_behaviour host h frame event arg) as [t|e];
        destruct func; reflexivity.
    + unfold bind, ret. rewrite app_nil_r, <- Hlog, set_forwarded_same.
      destruct func; reflexivity.
Qed.

(** A ['call'] event of [work] with a debugger's hook captured. *)
Lemma trace_function_chain_witness :
  (enabled Scenario.hooked_session = false ->
     _trace_function Scenario.host Scenario.work_frame "call" VNone 1
       Scenario.hooked_session =
       (match original_trace_function Scenario.hooked_session with
        | Some (ExternalTrace h) =>
            hook_behaviour Scenario.host h Scenario.work_frame "call" VNone
        | _ => Returns None
        end,
        set_forwarded
          (forwarded Scenario.hooked_session
             ++ delivered Scenario.hooked_session Scenario.work_frame "call" VNone)
          Scenario.hooked_session)) /\
  (enabled Scenario.hooked_session = true ->
     forwarded (snd (bookkeeping Scenario.host Scenario.work_frame "call" 1
                       Scenario.hooked_session))
       = forwarded Scenario.hooked_session /\
     _trace_function Scenario.host Scenario.work_frame "call" VNone 1
       Scenario.hooked_session =
       (Returns (if event_matches Scenario.host Scenario.hooked_session
                      Scenario.work_frame "call"
                 then Some OwnTrace
                 else hook_answer Scenario.host Scenario.hooked_session
                        Scenario.work_frame "call" VNone),
        set_forwarded
          (forwarded Scenario.hooked_session
             ++ delivered Scenario.hooked_session Scenario.work_frame "call" VNone)
          (snd (bookkeeping Scenario.host Scenario.work_frame "call" 1
                  Scenario.hooked_session)))).
Proof.
  apply (trace_function_chain Scenario.host Scenario.hooked_session
           Scenario.work_frame "call" VNone 1).
  intros H. vm_compute in H. discriminate.
Defined.

End HookChain.

(** ** Sessions: what a run of traced invocations leaves in the table *)

Module SessionFacts.
Import Stats Py Tracer MonadFacts WrapperFacts ControllerFacts TableFacts HookChain.

Section WithHost.
Context (host : Host).

Lemma same_store_refl w : same_store w w.
Proof. split; reflexivity. Qed.

Lemma same_store_trans w1 w2 w3 :
  same_store w1 w2 -> same_store w2 w3 -> same_store w1 w3.
Proof. intros [H1 H2] [H3 H4]. split; congruence. Qed.


Lemma same_store_record f d w w' :
  same_store w w' -> same_store (snd (record f d w)) (snd (record f d w')).
Proof. intros [Hs Hh]. apply record_store; assumption. Qed.

Lemma same_store_record_each f ds w w' :
  same_store w w' ->
  same_store (snd (record_each f ds w)) (snd (record_each f ds w')).
Proof.
  revert w w'. induction ds as [|d ds IH]; intros w w' Hs; [exact Hs|].
  rewrite !record_each_cons. apply IH, same_store_record, Hs.
Qed.



(** With tracing enabled [_trace_function] returns, and leaves the world
    of its bookkeeping, up to the record of forwarded calls. *)
Lemma trace_function_enabled frame event arg now w :
  enabled w = true ->
  exists r log,
    _trace_function host frame event arg now w =
      (Returns r, set_forwarded log (snd (bookkeeping host frame event now w))).
Proof.
  intros Hen.
  destruct (bookkeeping_outcome host frame event now w)
    as (func & Hret & _ & Hlog & _).
  unfold _trace_function. rewrite bind_gets, Hen. simpl.
  rewrite (bind_returns _ _ _ _ Hret), bind_gets.
  set (wb := snd (bookkeeping host frame event now w)).
  destruct (original_trace_function wb) as [[|h]|].
  - exists (match func with Some _ => Some OwnTrace | None => None end), (forwarded wb).
    unfold bind, try_except, call_hook, raise, ret. simpl.
    rewrite set_forwarded_same. destruct func; reflexivity.
  - destruct (hook_behaviour host h frame event arg) as [t|e] eqn:Hh.
    + exists (match func with Some _ => Some OwnTrace | None => t end),
        (forwarded wb ++ [mkHookCall h frame event arg]).
      unfold bind, try_except, call_hook, ret. rewrite Hh.
      destruct func; reflexivity.
    + exists (match func with Some _ => Some OwnTrace | None => None end),
        (forwarded wb ++ [mkHookCall h frame event arg]).
      unfold bind, try_except, call_hook, ret. rewrite Hh.
      destruct func; reflexivity.
  - exists (match func with Some _ => Some OwnTrace | None => None end), (forwarded wb).
    unfold bind, ret. rewrite set_forwarded_same. destruct func; reflexivity.
Qed.

Lemma bookkeeping_call frame now w f :
  find_traced host (f_code frame) (traced_functions w) = Some f ->
  snd (bookkeeping host frame "call" now w)
  = set_call_stack (<[frame_id frame := (f, now)]> (call_stack w)) w.
Proof.
  intros Hf. unfold bookkeeping. simpl. rewrite bind_gets, Hf. reflexivity.
Qed.

Lemma bookkeeping_return frame now w f start_time :
  call_stack w !! frame_id frame = Some (f, start_time) ->
  snd (bookkeeping host frame "return" now w)
  = snd (record f (now - start_time)%float
           (set_call_stack (delete (frame_id frame) (call_stack w)) w)).
Proof.
  intros Hf. unfold bookkeeping. simpl. rewrite bind_gets, Hf.
  rewrite bind_modify.
  rewrite bind_returns with (a := tt) by apply record_returns.
  reflexivity.
Qed.




End WithHost.
End SessionFacts.

(** ** Rebinding one module attribute: install and restore *)

Module RebindFacts.
Import Stats Py Tracer MonadFacts WrapperFacts ControllerFacts.

Lemma elem_of_set_add_iff (x c : Callable) (s : list Callable) :
  x ∈ set_add c s <-> x = c \/ x ∈ s.
Proof.
  unfold set_add. destruct (decide (c ∈ s)) as [Hin|Hout].
  - split; [auto|]. intros [->|H]; assumption.
  - rewrite elem_of_app, list_elem_of_singleton. tauto.
Qed.

Lemma dict_set_elem {V} (k : Callable) (v : V) d : (k, v) ∈ dict_set k v d.
Proof.
  induction d as [|[k' v'] d IH]; simpl.
  - apply list_elem_of_singleton. reflexivity.
  - destruct (decide (k = k')); [left|right; exact IH].
Qed.

Lemma dict_set_elem_ne {V} (k k' : Callable) (v v' : V) d :
  k <> k' -> (k', v') ∈ d -> (k', v') ∈ dict_set k v d.
Proof.
  intros Hne. induction d as [|[k0 v0] d IH]; simpl; intros Hin.
  - inversion Hin.
  - apply elem_of_cons in Hin as [Heq|Hin].
    + injection Heq as <- <-.
      destruct (decide (k = k')); [contradiction|left].
    + destruct (decide (k = k0)); right; auto.
Qed.

Lemma dict_set_elem_inv {V} (k : Callable) (v : V) p d :
  p ∈ dict_set k v d -> p = (k, v) \/ p ∈ d.
Proof.
  induction d as [|[k0 v0] d IH]; simpl; intros Hin.
  - apply list_elem_of_singleton in Hin. auto.
  - destruct (decide (k = k0)).
    + apply elem_of_cons in Hin as [->|Hin]; [auto|]. right. right. exact Hin.
    + apply elem_of_cons in Hin as [->|Hin]; [right; left|].
      destruct (IH Hin); [auto|]. right. right. assumption.
Qed.

Lemma dict_mem_elem {V} (k : Callable) (v : V) d : (k, v) ∈ d -> dict_mem k d = true.
Proof.
  intros Hin. unfold dict_mem. apply bool_decide_eq_true_2.
  apply list_elem_of_fmap. exists (k, v). split; [reflexivity|exact Hin].
Qed.

Lemma dict_mem_set_ne {V} (k k' : Callable) (v : V) d :
  k <> k' -> dict_mem k' d = false -> dict_mem k' (dict_set k v d) = false.
Proof.
  intros Hne Hout. unfold dict_mem in *.
  apply bool_decide_eq_false in Hout. apply bool_decide_eq_false_2.
  intros Hin. apply Hout.
  apply list_elem_of_fmap in Hin as ([k0 v0] & Hk & Hin). simpl in Hk. subst k0.
  apply dict_set_elem_inv in Hin as [Heq|Hin].
  - injection Heq as -> _. contradiction.
  - apply list_elem_of_fmap. exists (k', v0). split; [reflexivity|exact Hin].
Qed.

Section WithHost.
Context (host : Host) (f : Callable) (m n : string).
Hypothesis Hname : qualname_of host f = Some (m, n).

Lemma rebind_frame g v w :
  snd (rebind host g v w) = set_modules (modules (snd (rebind host g v w))) w.
Proof.
  unfold rebind. destruct (qualname_of host g) as [[m' n']|].
  - destruct (modules w !! m'); destruct w; reflexivity.
  - destruct w; reflexivity.
Qed.

Lemma rebind_binding_hit g v w :
  qualname_of host g = Some (m, n) -> is_Some (modules w !! m) ->
  binding (snd (rebind host g v w)) m n = Some v.
Proof.
  intros Hg [ns Hns]. unfold rebind. rewrite Hg, Hns. unfold binding. simpl.
  rewrite lookup_insert_eq. simpl. apply lookup_insert_eq.
Qed.

Lemma rebind_binding_miss g v w :
  qualname_of host g <> Some (m, n) ->
  binding (snd (rebind host g v w)) m n = binding w m n.
Proof.
  intros Hg. unfold rebind. destruct (qualname_of host g) as [[m' n']|]; [|reflexivity].
  destruct (modules w !! m') as [ns|] eqn:Hns; [|reflexivity].
  unfold binding. simpl. destruct (decide (m' = m)) as [->|Hm].
  - rewrite lookup_insert_eq, Hns. simpl.
    apply lookup_insert_ne. congruence.
  - rewrite lookup_insert_ne by assumption. reflexivity.
Qed.

Lemma rebind_loaded g v w :
  is_Some (modules w !! m) -> is_Some (modules (snd (rebind host g v w)) !! m).
Proof.
  intros Hm. unfold rebind. destruct (qualname_of host g) as [[m' n']|]; [|exact Hm].
  destruct (modules w !! m') as [ns|] eqn:Hns; [|exact Hm]. simpl.
  destruct (decide (m' = m)) as [->|Hne].
  - rewrite lookup_insert_eq. eexists; reflexivity.
  - rewrite lookup_insert_ne by assumption. exact Hm.
Qed.

Lemma wrap_one_skip cell g w :
  dict_mem g (wrapped_builtins w) = true ->
  snd (wrap_one host cell g w) = set_cells (<[cell := Some g]> (cells w)) w.
Proof.
  intros Hmem. unfold wrap_one. rewrite bind_modify, bind_gets. simpl.
  rewrite Hmem. reflexivity.
Qed.

Lemma wrap_one_wrap cell g w :
  dict_mem g (wrapped_builtins w) = false ->
  snd (wrap_one host cell g w) =
  snd (rebind host g (Substitute (mkWrapped cell g))
         (set_wrapped_builtins (dict_set g (mkWrapped cell g) (wrapped_builtins w))
            (set_original_builtins (dict_set g g (original_builtins w))
               (set_cells (<[cell := Some g]> (cells w)) w)))).
Proof.
  intros Hmem. unfold wrap_one. rewrite bind_modify, bind_gets. simpl.
  rewrite Hmem. reflexivity.
Qed.

Lemma wrap_one_loaded cell g w :
  is_Some (modules w !! m) -> is_Some (modules (snd (wrap_one host cell g w)) !! m).
Proof.
  intros Hm. destruct (dict_mem g (wrapped_builtins w)) eqn:Hmem.
  - rewrite wrap_one_skip by assumption. exact Hm.
  - rewrite wrap_one_wrap by assumption. apply rebind_loaded. exact Hm.
Qed.

Lemma wrap_one_installs cell w :
  is_Some (modules w !! m) ->
  dict_mem f (wrapped_builtins w) = false ->
  installed f m n cell (snd (wrap_one host cell f w)).
Proof.
  intros Hm Hmem. rewrite wrap_one_wrap by assumption. split.
  - apply rebind_binding_hit; [exact Hname|exact Hm].
  - rewrite rebind_frame. simpl. split; apply dict_set_elem.
Qed.

Lemma wrap_one_keeps cell g w :
  installed f m n cell w ->
  (qualname_of host g = Some (m, n) -> g = f) ->
  installed f m n cell (snd (wrap_one host cell g w)).
Proof.
  intros (Hb & Hw & Ho) Hg. destruct (dict_mem g (wrapped_builtins w)) eqn:Hmem.
  - rewrite wrap_one_skip by assumption. split; [exact Hb|]. split; assumption.
  - assert (g <> f) as Hne.
    { intros ->. rewrite (dict_mem_elem _ _ _ Hw) in Hmem. discriminate. }
    rewrite wrap_one_wrap by assumption. split.
    + rewrite rebind_binding_miss; [exact Hb|]. intros Hq. apply Hne, Hg, Hq.
    + rewrite rebind_frame. simpl. split; apply dict_set_elem_ne; assumption.
Qed.

Lemma wrap_one_absent cell g w :
  g <> f ->
  dict_mem f (wrapped_builtins w) = false ->
  dict_mem f (wrapped_builtins (snd (wrap_one host cell g w))) = false.
Proof.
  intros Hne Hout. destruct (dict_mem g (wrapped_builtins w)) eqn:Hmem.
  - rewrite wrap_one_skip by assumption. exact Hout.
  - rewrite wrap_one_wrap by assumption. rewrite rebind_frame. simpl.
    apply dict_mem_set_ne; assumption.
Qed.

Lemma wrap_one_records cell g w :
  records_ok host f m n cell w ->
  (qualname_of host g = Some (m, n) -> g = f) ->
  records_ok host f m n cell (snd (wrap_one host cell g w)).
Proof.
  intros [Ho Hw] Hg. destruct (dict_mem g (wrapped_builtins w)) eqn:Hmem.
  - rewrite wrap_one_skip by assumption. split; assumption.
  - rewrite wrap_one_wrap by assumption. rewrite rebind_frame. simpl. split.
    + intros g' o Hin. apply dict_set_elem_inv in Hin as [Heq|Hin]; [|auto].
      injection Heq as -> ->. auto.
    + intros g' wf Hin. apply dict_set_elem_inv in Hin as [Heq|Hin]; [|auto].
      injection Heq as -> ->. reflexivity.
Qed.

(** The loop of [_setup_builtin_tracing], as a fold. *)
Lemma setup_loop cell fs w :
  is_Some (modules w !! m) ->
  (forall g, g ∈ fs -> qualname_of host g = Some (m, n) -> g = f) ->
  (f ∈ fs /\ dict_mem f (wrapped_builtins w) = false) \/ installed f m n cell w ->
  records_ok host f m n cell w ->
  installed f m n cell (fold_left (fun w x => snd (wrap_one host cell x w)) fs w) /\
  is_Some (modules (fold_left (fun w x => snd (wrap_one host cell x w)) fs w) !! m) /\
  records_ok host f m n cell (fold_left (fun w x => snd (wrap_one host cell x w)) fs w).
Proof.
  revert w. induction fs as [|g fs IH]; intros w Hm Hunique Hcase Hrec.
  - simpl. destruct Hcase as [[Hin _]|Hinst]; [inversion Hin|]. auto.
  - simpl. apply IH.
    + apply wrap_one_loaded, Hm.
    + intros g' Hin. apply Hunique. right. exact Hin.
    + destruct Hcase as [[Hin Hout]|Hinst].
      * destruct (decide (g = f)) as [->|Hne].
        -- right. apply wrap_one_installs; assumption.
        -- left. split.
           ++ apply elem_of_cons in Hin as [Heq|Hin]; [congruence|exact Hin].
           ++ apply wrap_one_absent; assumption.
      * right. apply wrap_one_keeps; [exact Hinst|]. apply Hunique. left.
    + apply wrap_one_records; [exact Hrec|]. apply Hunique. left.
Qed.

(** The loop of [_restore_builtin_functions], as a fold. *)
Lemma restore_loop items w :
  is_Some (modules w !! m) ->
  (forall g o, (g, o) ∈ items ->
     o = g /\ (qualname_of host g = Some (m, n) -> g = f)) ->
  (f, f) ∈ items \/ binding w m n = Some (Original f) ->
  binding (fold_left (fun w p => snd (restore_one host p w)) items w) m n
  = Some (Original f).
Proof.
  revert w. induction items as [|[g o] items IH]; intros w Hm Hok Hcase.
  - simpl. destruct Hcase as [Hin|Hb]; [inversion Hin|exact Hb].
  - simpl. apply IH.
    + unfold restore_one. apply rebind_loaded, Hm.
    + intros g' o' Hin. apply Hok. right. exact Hin.
    + unfold restore_one. simpl.
      destruct (Hok g o) as [-> Hg]; [left|].
      destruct (decide (qualname_of host g = Some (m, n))) as [Hq|Hq].
      * right. rewrite (Hg Hq). apply rebind_binding_hit; [exact Hname|exact Hm].
      * rewrite rebind_binding_miss by exact Hq.
        destruct Hcase as [Hin|Hb]; [|right; exact Hb].
        apply elem_of_cons in Hin as [Heq|Hin]; [|left; exact Hin].
        injection Heq as <-. contradiction.
Qed.

End WithHost.
End RebindFacts.

(** ** The controller's runs of install and restore *)

Module InstallFacts.
Import Stats Py Tracer MonadFacts WrapperFacts ControllerFacts RebindFacts.

Section WithHost.
Context (host : Host) (f : Callable) (m n : string).
Hypothesis Hname : qualname_of host f = Some (m, n).
Hypothesis Hnative : _is_builtin_function host f = true.

Lemma total_restore_one p : total (restore_one host p).
Proof. unfold restore_one. apply total_rebind. Qed.

Lemma restore_world w :
  snd (_restore_builtin_functions host w) =
  set_wrapped_builtins [] (set_original_builtins [] (set_builtin_functions []
    (fold_left (fun w p => snd (restore_one host p w)) (original_builtins w) w))).
Proof.
  unfold _restore_builtin_functions. rewrite bind_gets.
  unfold bind at 1. rewrite for_each_fold by apply total_restore_one.
  reflexivity.
Qed.

Lemma restore_fold_loaded items w :
  is_Some (modules w !! m) ->
  is_Some (modules (fold_left (fun w p => snd (restore_one host p w)) items w) !! m).
Proof.
  revert w. induction items as [|p items IH]; intros w Hm; [exact Hm|].
  simpl. apply IH. unfold restore_one. apply rebind_loaded, Hm.
Qed.

Lemma setup_world w :
  snd (_setup_builtin_tracing host w) =
  fold_left (fun w' x => snd (wrap_one host (length (cells w)) x w'))
    (builtin_functions w) (set_cells (cells w ++ [None]) w).
Proof.
  unfold _setup_builtin_tracing. rewrite bind_gets, bind_modify, bind_gets.
  rewrite for_each_fold by (intros x; apply total_wrap_one). reflexivity.
Qed.

Lemma wrap_one_cells cell g w :
  cells (snd (wrap_one host cell g w)) = <[cell := Some g]> (cells w).
Proof.
  destruct (dict_mem g (wrapped_builtins w)) eqn:Hmem.
  - rewrite wrap_one_skip by assumption. reflexivity.
  - rewrite wrap_one_wrap by assumption. rewrite rebind_frame. reflexivity.
Qed.

Lemma wrap_fold_cells_length cell fs w :
  length (cells (fold_left (fun w' x => snd (wrap_one host cell x w')) fs w))
  = length (cells w).
Proof.
  revert w. induction fs as [|g fs IH]; intros w; [reflexivity|].
  simpl. rewrite IH, wrap_one_cells. apply length_insert.
Qed.

(** When a run of [_setup_builtin_tracing] ends, the cell that all its
    substitutes share holds the function the loop visited last. *)
Lemma setup_cell_holds_last w fs g :
  builtin_functions w = fs ++ [g] ->
  cells (snd (_setup_builtin_tracing host w)) !! length (cells w) = Some (Some g).
Proof.
  intros Hfs. rewrite setup_world, Hfs, fold_left_app. simpl.
  rewrite wrap_one_cells. apply list_lookup_insert_eq.
  rewrite wrap_fold_cells_length. simpl. rewrite length_app. simpl. lia.
Qed.

Lemma register_fold_keeps (P : World -> Prop) fs w :
  (forall w v, P w -> P (set_builtin_functions v w)) ->
  (forall w v, P w -> P (set_traced_functions v w)) ->
  P w -> P (fold_left (fun w g => snd (register host g w)) fs w).
Proof.
  intros HB HT. revert w. induction fs as [|g fs IH]; intros w Hw; [exact Hw|].
  simpl. apply IH. unfold register.
  destruct (_is_builtin_function host g); simpl; auto.
Qed.

Lemma register_fold_builtin fs w g :
  g ∈ builtin_functions (fold_left (fun w g => snd (register host g w)) fs w) <->
  g ∈ builtin_functions w \/ (g ∈ fs /\ _is_builtin_function host g = true).
Proof.
  revert w. induction fs as [|x fs IH]; intros w; simpl.
  - split; [auto|]. intros [H|[H _]]; [exact H|inversion H].
  - rewrite IH. unfold register.
    destruct (_is_builtin_function host x) eqn:Hx; simpl.
    + rewrite elem_of_set_add_iff, elem_of_cons. split.
      * intros [[->|H]|[H1 H2]]; auto.
      * intros [H|[[->|H1] H2]]; auto.
    + rewrite elem_of_cons. split.
      * intros [H|[H1 H2]]; auto.
      * intros [H|[[->|H1] H2]]; auto. congruence.
Qed.

(** [update_functions] on an enabled tracer: restore, re-register, install. *)
Lemma update_functions_world functions w :
  enabled w = true ->
  snd (update_functions host functions w) =
  snd (_setup_builtin_tracing host
         (fold_left (fun w g => snd (register host g w)) functions
            (set_builtin_functions []
               (set_traced_functions
                  (decorated_functions (snd (_restore_builtin_functions host w)))
                  (snd (_restore_builtin_functions host w)))))).
Proof.
  intros Hen. unfold update_functions. rewrite bind_gets, Hen. simpl.
  rewrite bind_total by apply total_restore.
  rewrite !bind_modify.
  unfold bind at 1. rewrite for_each_fold by (intros x; apply total_register).
  reflexivity.
Qed.

Lemma update_functions_installs functions w :
  enabled w = true ->
  is_Some (modules w !! m) ->
  f ∈ functions ->
  (forall g, g ∈ functions -> _is_builtin_function host g = true ->
             qualname_of host g = Some (m, n) -> g = f) ->
  exists cell,
    installed f m n cell (snd (update_functions host functions w)) /\
    records_ok host f m n cell (snd (update_functions host functions w)) /\
    is_Some (modules (snd (update_functions host functions w)) !! m).
Proof.
  intros Hen Hm Hin Hunique.
  rewrite update_functions_world by exact Hen.
  rewrite restore_world.
  set (wr := fold_left (fun w p => snd (restore_one host p w)) (original_builtins w) w).
  assert (is_Some (modules wr !! m)) as Hmr by (apply restore_fold_loaded, Hm).
  simpl decorated_functions.
  set (wa := set_builtin_functions [] (set_traced_functions _ _)).
  set (wb := fold_left (fun w g => snd (register host g w)) functions wa).
  assert (wrapped_builtins wb = [] /\ original_builtins wb = [] /\
          is_Some (modules wb !! m)) as (Hw & Ho & Hmb).
  { apply (register_fold_keeps
             (fun x => wrapped_builtins x = [] /\ original_builtins x = [] /\
                       is_Some (modules x !! m))); auto;
      repeat split; exact Hmr. }
  rewrite setup_world. exists (length (cells wb)).
  set (w0 := set_cells (cells wb ++ [None]) wb).
  destruct (setup_loop host f m n Hname (length (cells wb)) (builtin_functions wb) w0)
    as (Hinst & Hload & Hrec).
  - exact Hmb.
  - intros g Hg Hq. apply (register_fold_builtin functions wa g) in Hg.
    destruct Hg as [Hg|[Hg Hb]]; [inversion Hg|]. apply Hunique; assumption.
  - left. split.
    + apply (register_fold_builtin functions wa f). right. split; assumption.
    + simpl. rewrite Hw. reflexivity.
  - split; simpl.
    + intros g o Hg. rewrite Ho in Hg. inversion Hg.
    + intros g wf Hg. rewrite Hw in Hg. inversion Hg.
  - auto.
Qed.

Lemma disable_world w :
  enabled w = true ->
  snd (disable host w) =
  set_call_stack ∅ (set_enabled false
    (snd (_restore_builtin_functions host
            (set_sys_trace (original_trace_function w) w)))).
Proof.
  intros Hen. unfold disable. rewrite bind_gets, Hen. simpl.
  rewrite bind_gets, bind_modify.
  rewrite bind_total by apply total_restore.
  rewrite !bind_modify. reflexivity.
Qed.

Lemma disable_restores cell w :
  enabled w = true ->
  is_Some (modules w !! m) ->
  installed f m n cell w ->
  records_ok host f m n cell w ->
  binding (snd (disable host w)) m n = Some (Original f).
Proof.
  intros Hen Hm (_ & _ & Ho) [Hrec _].
  rewrite disable_world by exact Hen. rewrite restore_world.
  apply (restore_loop host f m n Hname (original_builtins w)
           (set_sys_trace (original_trace_function w) w)).
  - exact Hm.
  - exact Hrec.
  - left. exact Ho.
Qed.

Lemma enable_again functions w :
  enabled w = true -> functions <> [] ->
  enable host (Some functions) w = update_functions host functions w.
Proof.
  intros Hen Hne. unfold enable. rewrite bind_gets, Hen.
  destruct functions; [congruence|reflexivity].
Qed.

(** [enable] never unloads a module. *)
Lemma enable_loaded functions w :
  is_Some (modules w !! m) ->
  is_Some (modules (snd (enable host functions w)) !! m).
Proof.
  intros Hm. unfold enable. rewrite bind_gets.
  assert (forall fs w', is_Some (modules w' !! m) ->
            is_Some (modules (fold_left (fun w g => snd (register host g w)) fs w') !! m))
    as Hreg.
  { intros fs w' Hw'.
    apply (register_fold_keeps (fun x => is_Some (modules x !! m))); auto. }
  assert (forall w', is_Some (modules w' !! m) ->
            is_Some (modules (snd (_setup_builtin_tracing host w')) !! m)) as Hsetup.
  { intros w' Hw'. rewrite setup_world.
    generalize (length (cells w')). intros cell.
    assert (is_Some (modules (set_cells (cells w' ++ [None]) w') !! m)) as H0
      by exact Hw'.
    revert H0. generalize (set_cells (cells w' ++ [None]) w').
    induction (builtin_functions w') as [|g gs IH]; intros w0 H0; [exact H0|].
    simpl. apply IH. apply (wrap_one_loaded host m), H0. }
  destruct (enabled w) eqn:Hen.
  - destruct (truthy functions); [|exact Hm].
    rewrite update_functions_world by exact Hen.
    apply Hsetup, Hreg. rewrite restore_world. simpl.
    apply restore_fold_loaded, Hm.
  - rewrite bind_modify.
    rewrite bind_total by apply total_registers.
    rewrite bind_gets, !bind_modify.
    rewrite bind_total by apply total_setup.
    unfold modify. simpl. apply Hsetup. simpl.
    destruct (truthy functions); [|exact Hm].
    rewrite for_each_fold by (intros x; apply total_register).
    simpl. apply Hreg. exact Hm.
Qed.

End WithHost.
End InstallFacts.

(** ** Lifecycle: sessions and repeated installs *)

Module Lifecycle.
Import Stats Py Tracer MonadFacts WrapperFacts ControllerFacts TableFacts.
Import StatsFacts SessionFacts RebindFacts InstallFacts.

(** C6. For every opaque function [f] whose binding location (module [m],
    name [n]) can be resolved and is claimed by no other opaque function of
    the second list: after [enable] is called twice with [f] in both lists,
    the binding of [f] holds a substitute built for [f], the wrapper's
    bookkeeping has that one substitute for [f] and records [f] itself as
    its original (not a previous substitute), and a single [disable()] puts
    [f] back at its binding. *)
Theorem enable_twice_wraps_once (host : Host) (w : World) (f : Callable)
    (m n : string) (first second : list Callable) :
  _is_builtin_function host f = true ->
  qualname_of host f = Some (m, n) ->
  is_Some (modules w !! m) ->
  f ∈ first ->
  f ∈ second ->
  (forall g, g ∈ second -> _is_builtin_function host g = true ->
             qualname_of host g = Some (m, n) -> g = f) ->
  exists wf,
    binding (snd (enable_twice host first second w)) m n = Some (Substitute wf) /\
    wrapped_of wf = f /\
    (forall wf', (f, wf') ∈ wrapped_builtins (snd (enable_twice host first second w))
                 <-> wf' = wf) /\
    (forall o, (f, o) ∈ original_builtins (snd (enable_twice host first second w))
               <-> o = f) /\
    binding (snd (disable host (snd (enable_twice host first second w)))) m n
      = Some (Original f).
Proof.
  intros Hnative Hname Hm Hfirst Hsecond Hunique.
  unfold enable_twice.
  rewrite bind_returns with (a := tt) by apply enable_returns.
  set (w1 := snd (enable host (Some first) w)).
  assert (enabled w1 = true) as Hen1 by apply enable_enables.
  assert (is_Some (modules w1 !! m)) as Hm1 by (apply enable_loaded, Hm).
  assert (second <> []) as Hne by (intros ->; inversion Hsecond).
  assert (enabled (snd (enable host (Some second) w1)) = true) as Hen2
    by apply enable_enables.
  rewrite (enable_again host second w1 Hen1 Hne) in *.
  destruct (update_functions_installs host f m n Hname Hnative second w1
              Hen1 Hm1 Hsecond Hunique) as (cell & Hinst & Hrec & Hm2).
  exists (mkWrapped cell f).
  pose proof Hinst as (Hb & Hw & Ho). pose proof Hrec as [Hro Hrw].
  split; [exact Hb|]. split; [reflexivity|]. split; [|split].
  - intros wf'. split; [apply Hrw|intros ->; exact Hw].
  - intros o. split; [intros Hin; apply (Hro f o Hin)|intros ->; exact Ho].
  - eapply disable_restores; eassumption.
Qed.

(** [enable([sqrt])], then [enable([sqrt, floor])]. *)
Lemma enable_twice_wraps_once_witness :
  exists wf,
    binding (snd (enable_twice Scenario.host [Scenario.sqrt_fn]
                    [Scenario.sqrt_fn; Scenario.floor_fn] Scenario.fresh))
      "math" "sqrt" = Some (Substitute wf) /\
    wrapped_of wf = Scenario.sqrt_fn /\
    (forall wf',
       (Scenario.sqrt_fn, wf') ∈
         wrapped_builtins (snd (enable_twice Scenario.host [Scenario.sqrt_fn]
                                  [Scenario.sqrt_fn; Scenario.floor_fn] Scenario.fresh))
       <-> wf' = wf) /\
    (forall o,
       (Scenario.sqrt_fn, o) ∈
         original_builtins (snd (enable_twice Scenario.host [Scenario.sqrt_fn]
                                   [Scenario.sqrt_fn; Scenario.floor_fn] Scenario.fresh))
       <-> o = Scenario.sqrt_fn) /\
    binding (snd (disable Scenario.host
                    (snd (enable_twice Scenario.host [Scenario.sqrt_fn]
                            [Scenario.sqrt_fn; Scenario.floor_fn] Scenario.fresh))))
      "math" "sqrt" = Some (Original Scenario.sqrt_fn).
Proof.
  apply (enable_twice_wraps_once Scenario.host Scenario.fresh Scenario.sqrt_fn
           "math" "sqrt" [Scenario.sqrt_fn] [Scenario.sqrt_fn; Scenario.floor_fn]).
  - reflexivity.
  - reflexivity.
  - exists Scenario.math_module. reflexivity.
  - left.
  - left.
  - intros g Hg _ Hq.
    apply elem_of_cons in Hg as [->|Hg]; [reflexivity|].
    apply list_elem_of_singleton in Hg as ->.
    vm_compute in Hq. discriminate.
Defined.



End Lifecycle.

(** ** Conditions kept by every operation *)

Module KeptFacts.
Import Stats Py Tracer Runs MonadFacts WrapperFacts ControllerFacts TableFacts.
Import HookChain SessionFacts InstallFacts.

Section WithHost.
Context (host : Host).

Lemma preserves_record_frame P f d :
  (forall w v, P w -> P (set_stats v w)) ->
  (forall w v, P w -> P (set_heap v w)) ->
  preserves P (record f d).
Proof.
  intros HS HH w Hw. rewrite record_frame. apply HH, HS, Hw.
Qed.

Lemma preserves_bookkeeping P frame event now :
  (forall w v, P w -> P (set_call_stack v w)) ->
  (forall f d, preserves P (record f d)) ->
  preserves P (bookkeeping host frame event now).
Proof.
  intros HC HR. unfold bookkeeping.
  destruct (String.eqb event "call").
  - apply preserves_bind; [apply preserves_gets|intros traced].
    destruct (find_traced host (f_code frame) traced); [|apply preserves_ret].
    apply preserves_bind; [|intros _; apply preserves_ret].
    apply preserves_modify. intros; apply HC; assumption.
  - destruct (String.eqb event "return"); [|apply preserves_ret].
    apply preserves_bind; [apply preserves_gets|intros stack].
    destruct (stack !! frame_id frame) as [[func start_time]|]; [|apply preserves_ret].
    apply preserves_bind; [apply preserves_modify; intros; apply HC; assumption|intros _].
    apply preserves_bind; [apply HR|intros _; apply preserves_ret].
Qed.

Lemma preserves_call_hook P t frame event arg :
  (forall w v, P w -> P (set_forwarded v w)) ->
  preserves P (call_hook host t frame event arg).
Proof.
  intros HF. destruct t as [|h]; [apply preserves_raise|].
  intros w Hw. simpl. apply HF, Hw.
Qed.

Lemma preserves_trace_function P frame event arg now :
  (forall w v, P w -> P (set_call_stack v w)) ->
  (forall w v, P w -> P (set_forwarded v w)) ->
  (forall f d, preserves P (record f d)) ->
  preserves P (_trace_function host frame event arg now).
Proof.
  intros HC HF HR. unfold _trace_function.
  apply preserves_bind; [apply preserves_gets|intros en].
  destruct (negb en).
  - apply preserves_bind; [apply preserves_gets|intros original].
    destruct original; [apply preserves_call_hook, HF|apply preserves_ret].
  - apply preserves_bind; [apply preserves_bookkeeping; assumption|intros func].
    apply preserves_bind; [apply preserves_gets|intros original].
    apply preserves_bind.
    + destruct original; [|apply preserves_ret].
      apply preserves_try_except; [apply preserves_call_hook, HF|].
      intros e. apply preserves_ret.
    + intros next. destruct func; apply preserves_ret.
Qed.

Lemma preserves_read_cell P c : preserves P (read_cell c).
Proof.
  intros w Hw. unfold read_cell. destruct (cells w !! c) as [[func|]|]; exact Hw.
Qed.

Lemma preserves_call_original P func args : preserves P (call_original host func args).
Proof. intros w Hw. exact Hw. Qed.

Lemma preserves_wrapped_function P wf args t_start t_end :
  (forall f d, preserves P (record f d)) ->
  preserves P (wrapped_function host wf args t_start t_end).
Proof.
  intros HR. unfold wrapped_function.
  apply preserves_bind; [apply preserves_gets|intros en].
  destruct (negb en).
  - apply preserves_bind; [apply preserves_read_cell|intros func].
    apply preserves_call_original.
  - apply preserves_bind; [apply preserves_read_cell|intros func].
    apply preserves_bind; [apply preserves_call_original|intros result].
    cbv zeta.
    apply preserves_bind; [apply preserves_read_cell|intros func'].
    apply preserves_bind; [apply HR|intros _; apply preserves_ret].
Qed.

Lemma preserves_trace P function :
  (forall w v, P w -> P (set_decorated_functions v w)) ->
  preserves P (trace function).
Proof.
  intros HD. unfold trace.
  apply preserves_bind; [|intros _; apply preserves_ret].
  apply preserves_modify. intros; apply HD; assumption.
Qed.

(** A condition that reads the statistics only is kept by the tracer as
    soon as [record] keeps it. *)
Lemma kept_by_tracer_store P :
  lifecycle_frame P ->
  (forall w v, P w -> P (set_forwarded v w)) ->
  (forall w v, P w -> P (set_decorated_functions v w)) ->
  (forall f d, preserves P (record f d)) ->
  kept_by_tracer host P.
Proof.
  intros HL HF HD HR. pose proof HL as [HU HL'].
  split; [intros; apply preserves_enable, HL|].
  split; [apply preserves_disable, HL|].
  split; [intros; apply preserves_update_functions, HU|].
  split; [apply preserves_gets|].
  split; [intros; apply preserves_trace, HD|].
  split; [intros; apply preserves_trace_function; auto; intros; apply HL'; assumption|].
  intros; apply preserves_wrapped_function, HR.
Qed.

(** *** The statistics table *)

Lemma table_ok_init slot mods : table_ok (init_world slot mods).
Proof.
  split; intros f; intros; simpl in *; rewrite lookup_empty in *; discriminate.
Qed.

Lemma table_ok_valid w f : table_ok w -> valid_entry w f.
Proof.
  intros [Hc _] l Hl. destruct (Hc f l Hl) as (s & Hs & _).
  apply lookup_lt_is_Some_1. eexists; exact Hs.
Qed.

Lemma update_counts s d : call_count s <= call_count (update s d).
Proof. simpl. lia. Qed.

Lemma table_ok_record f d w : table_ok w -> table_ok (snd (record f d w)).
Proof.
  intros Hok. pose proof Hok as [Hc Hi].
  destruct (stats w !! f) as [lf|] eqn:Hf.
  - destruct (record_present f d w lf Hf) as [Hs Hh]. split.
    + intros g l. rewrite Hs, Hh. intros Hg.
      destruct (Hc g l Hg) as (s & Hl & Hpos).
      destruct (decide (lf = l)) as [->|Hne].
      * exists (update s d). rewrite list_lookup_alter_eq, Hl. simpl. split; [reflexivity|lia].
      * exists s. rewrite list_lookup_alter_ne by assumption. auto.
    + intros g1 g2 l. rewrite Hs. apply Hi.
  - destruct (record_absent f d w Hf) as [Hs Hh]. split.
    + intros g l. rewrite Hs, Hh.
      destruct (decide (f = g)) as [->|Hne].
      * rewrite lookup_insert_eq. intros [= <-].
        exists (update sentinel d).
        rewrite lookup_app_r by lia. rewrite Nat.sub_diag. simpl.
        split; [reflexivity|lia].
      * rewrite lookup_insert_ne by assumption. intros Hg.
        destruct (Hc g l Hg) as (s & Hl & Hpos). exists s.
        rewrite lookup_app_l by (apply lookup_lt_is_Some_1; eexists; exact Hl). auto.
    + intros g1 g2 l. rewrite Hs.
      assert (forall g, stats w !! g = Some (length (heap w)) -> False) as Hfresh.
      { intros g Hg. destruct (Hc g _ Hg) as (s & Hl & _).
        apply lookup_lt_Some in Hl. lia. }
      destruct (decide (g1 = f)) as [->|Hn1], (decide (g2 = f)) as [->|Hn2].
      * reflexivity.
      * rewrite lookup_insert_eq, lookup_insert_ne by congruence.
        intros [= <-] Hg. destruct (Hfresh _ Hg).
      * rewrite lookup_insert_eq, lookup_insert_ne by congruence.
        intros Hg [= <-]. destruct (Hfresh _ Hg).
      * rewrite !lookup_insert_ne by congruence. apply Hi.
Qed.

(** An update for [f] does not reach the entry of another function. *)
Lemma entry_record_other f g d w :
  table_ok w -> f <> g -> entry (snd (record f d w)) g = entry w g.
Proof.
  intros [Hc Hi] Hne. unfold entry, read_entry.
  destruct (stats w !! f) as [lf|] eqn:Hf.
  - destruct (record_present f d w lf Hf) as [-> ->].
    destruct (stats w !! g) as [lg|] eqn:Hg; [|reflexivity]. simpl.
    apply list_lookup_alter_ne. intros ->. apply Hne. eapply Hi; eassumption.
  - destruct (record_absent f d w Hf) as [-> ->].
    rewrite lookup_insert_ne by assumption.
    destruct (stats w !! g) as [lg|] eqn:Hg; [|reflexivity]. simpl.
    destruct (Hc g lg Hg) as (s & Hl & _).
    apply lookup_app_l. apply lookup_lt_is_Some_1. eexists; exact Hl.
Qed.

End WithHost.
End KeptFacts.

(** ** What enable, disable and update_functions leave behind *)

Module LifecycleFacts.
Import Stats Py Tracer Runs MonadFacts WrapperFacts ControllerFacts TableFacts.
Import HookChain SessionFacts RebindFacts InstallFacts KeptFacts.

Section WithHost.
Context (host : Host).

Lemma enable_world functions w :
  enabled w = false ->
  snd (enable host functions w) =
  set_enabled true
    (snd (_setup_builtin_tracing host
            (set_sys_trace (Some OwnTrace)
               (set_original_trace_function (sys_trace (registered host functions w))
                  (registered host functions w))))).
Proof.
  intros Hdis. unfold enable, registered. rewrite bind_gets, Hdis.
  rewrite bind_modify.
  rewrite bind_total by apply total_registers.
  rewrite bind_gets, !bind_modify.
  rewrite bind_total by apply total_setup.
  reflexivity.
Qed.

Lemma preserves_registration P functions :
  update_frame P ->
  preserves P (if truthy functions
               then for_each (default [] functions) (register host)
               else ret tt).
Proof.
  intros HP. destruct (truthy functions); [|apply preserves_ret].
  apply preserves_for_each. intros func. apply preserves_register, HP.
Qed.

Lemma registered_keeps (P : World -> Prop) functions w :
  update_frame P -> P w -> P (registered host functions w).
Proof.
  intros HP Hw. unfold registered.
  apply (preserves_registration P functions HP).
  destruct HP as [_ HT]. apply HT, Hw.
Qed.

Lemma update_frame_slot s o c :
  update_frame (fun w => sys_trace w = s /\ original_trace_function w = o /\
                         call_stack w = c).
Proof. solve_frame. Qed.

Lemma wrapper_frame_slot s o e :
  wrapper_frame (fun w => sys_trace w = s /\ original_trace_function w = o /\
                          enabled w = e).
Proof. solve_frame. Qed.

(** On a disabled tracer [enable] captures the slot and takes it. *)
Lemma enable_captures functions w :
  enabled w = false ->
  sys_trace (snd (enable host functions w)) = Some OwnTrace /\
  original_trace_function (snd (enable host functions w)) = sys_trace w.
Proof.
  intros Hdis. rewrite enable_world by exact Hdis.
  assert (sys_trace (registered host functions w) = sys_trace w) as Hslot.
  { apply (registered_keeps (fun x => sys_trace x = sys_trace w /\
                                      original_trace_function x = original_trace_function w /\
                                      call_stack x = call_stack w));
      [apply update_frame_slot|repeat split]. }
  rewrite Hslot.
  pose proof (preserves_setup host
                (fun x => sys_trace x = Some OwnTrace /\
                          original_trace_function x = sys_trace w /\
                          enabled x = enabled (registered host functions w))
                (wrapper_frame_slot _ _ _)) as Hsetup.
  destruct (Hsetup
              (set_sys_trace (Some OwnTrace)
                 (set_original_trace_function (sys_trace w) (registered host functions w))))
    as (H1 & H2 & _); [repeat split|].
  split; assumption.
Qed.

(** On an enabled tracer [enable] and [update_functions] leave the slot,
    the captured hook and the open call contexts alone. *)
Lemma update_keeps_slot functions w :
  sys_trace (snd (update_functions host functions w)) = sys_trace w /\
  original_trace_function (snd (update_functions host functions w))
    = original_trace_function w /\
  call_stack (snd (update_functions host functions w)) = call_stack w.
Proof.
  apply (preserves_update_functions host
           (fun x => sys_trace x = sys_trace w /\
                     original_trace_function x = original_trace_function w /\
                     call_stack x = call_stack w)).
  - apply update_frame_slot.
  - repeat split.
Qed.

Lemma enable_enabled_keeps_slot functions w :
  enabled w = true ->
  sys_trace (snd (enable host functions w)) = sys_trace w /\
  original_trace_function (snd (enable host functions w)) = original_trace_function w /\
  call_stack (snd (enable host functions w)) = call_stack w.
Proof.
  intros Hen. unfold enable. rewrite bind_gets, Hen.
  destruct (truthy functions); [apply update_keeps_slot|repeat split].
Qed.

Lemma restore_keeps_slot w :
  sys_trace (snd (_restore_builtin_functions host w)) = sys_trace w /\
  original_trace_function (snd (_restore_builtin_functions host w))
    = original_trace_function w /\
  enabled (snd (_restore_builtin_functions host w)) = enabled w.
Proof.
  apply (preserves_restore host
           (fun x => sys_trace x = sys_trace w /\
                     original_trace_function x = original_trace_function w /\
                     enabled x = enabled w)).
  - apply wrapper_frame_slot.
  - repeat split.
Qed.

(** What [disable] leaves on an enabled tracer. *)
Lemma disable_clears w :
  enabled w = true ->
  enabled (snd (disable host w)) = false /\
  sys_trace (snd (disable host w)) = original_trace_function w /\
  original_trace_function (snd (disable host w)) = original_trace_function w /\
  call_stack (snd (disable host w)) = ∅ /\
  builtin_functions (snd (disable host w)) = [] /\
  original_builtins (snd (disable host w)) = [] /\
  wrapped_builtins (snd (disable host w)) = [].
Proof.
  intros Hen. rewrite disable_world by exact Hen.
  destruct (restore_keeps_slot (set_sys_trace (original_trace_function w) w))
    as (Hs & Ho & _).
  rewrite restore_world in *. simpl in *.
  repeat split; assumption.
Qed.

Lemma disable_disabled w : enabled w = false -> disable host w = (Returns (stats w), w).
Proof. intros Hdis. unfold disable. rewrite bind_gets, Hdis. reflexivity. Qed.

(** *** The three conditions *)

Lemma hook_ok_enable functions : preserves hook_ok (enable host functions).
Proof.
  intros w [Ho Hs]. destruct (enabled w) eqn:Hen.
  - destruct (enable_enabled_keeps_slot functions w Hen) as (_ & Ho' & _).
    split; [rewrite Ho'; exact Ho|].
    rewrite enable_enables. discriminate.
  - destruct (enable_captures functions w Hen) as [_ Ho'].
    split; [rewrite Ho'; apply Hs; reflexivity|].
    rewrite enable_enables. discriminate.
Qed.

Lemma hook_ok_disable : preserves hook_ok (disable host).
Proof.
  intros w [Ho Hs]. destruct (enabled w) eqn:Hen.
  - destruct (disable_clears w Hen) as (_ & Hs' & Ho' & _).
    split; [rewrite Ho'; exact Ho|]. intros _. rewrite Hs'. exact Ho.
  - rewrite disable_disabled by exact Hen.
    split; [exact Ho|intros _; apply Hs; reflexivity].
Qed.

Lemma update_functions_raises functions w :
  enabled w = false ->
  update_functions host functions w
  = (Raises (mkExn "RuntimeError" "Tracing is not enabled"), w).
Proof. intros Hdis. unfold update_functions, bind, gets. rewrite Hdis. reflexivity. Qed.

Lemma update_functions_enabled functions w :
  enabled (snd (update_functions host functions w)) = enabled w.
Proof.
  apply (preserves_update_functions host (fun x => enabled x = enabled w));
    [apply update_frame_enabled|reflexivity].
Qed.

Lemma hook_ok_update functions : preserves hook_ok (update_functions host functions).
Proof.
  intros w [Ho Hs].
  destruct (update_keeps_slot functions w) as (Hs' & Ho' & _).
  split; [rewrite Ho'; exact Ho|].
  rewrite update_functions_enabled, Hs'. exact Hs.
Qed.

Lemma hook_ok_record f d : preserves hook_ok (record f d).
Proof. apply preserves_record_frame; intros w v H; exact H. Qed.

Lemma idle_ok_record f d : preserves idle_ok (record f d).
Proof. apply preserves_record_frame; intros w v H; exact H. Qed.

Lemma idle_ok_enable functions : preserves idle_ok (enable host functions).
Proof. intros w _ Hdis. rewrite enable_enables in Hdis. discriminate. Qed.

Lemma idle_ok_disable : preserves idle_ok (disable host).
Proof.
  intros w Hw. destruct (enabled w) eqn:Hen.
  - intros _. destruct (disable_clears w Hen) as (_ & _ & _ & _ & H1 & H2 & H3).
    repeat split; assumption.
  - rewrite disable_disabled by exact Hen. exact Hw.
Qed.

Lemma idle_ok_update functions : preserves idle_ok (update_functions host functions).
Proof.
  intros w Hw. destruct (enabled w) eqn:Hen.
  - intros Hdis. rewrite update_functions_enabled, Hen in Hdis. discriminate.
  - rewrite update_functions_raises by exact Hen. exact Hw.
Qed.

Lemma table_ok_store w w' : same_store w w' -> table_ok w -> table_ok w'.
Proof. intros [Hs Hh]. unfold table_ok. rewrite Hs, Hh. auto. Qed.

Lemma lifecycle_frame_table : lifecycle_frame table_ok.
Proof.
  split; [split|].
  - intros w H. split; [|split; [|split; [|split]]]; intros v;
      (eapply table_ok_store; [|exact H]; split; reflexivity).
  - intros w H v. eapply table_ok_store; [|exact H]. split; reflexivity.
  - intros w H. split; [|split; [|split]]; intros v;
      (eapply table_ok_store; [|exact H]; split; reflexivity).
Qed.

End WithHost.
End LifecycleFacts.

(** ** How the operations move the statistics *)

Module StoreFacts.
Import Stats Py Tracer Runs MonadFacts WrapperFacts ControllerFacts TableFacts.
Import HookChain SessionFacts KeptFacts LifecycleFacts.

Section WithHost.
Context (host : Host).

Lemma entry_store f w w' : same_store w w' -> entry w f = entry w' f.
Proof. intros [Hs Hh]. unfold entry, read_entry. rewrite Hs, Hh. reflexivity. Qed.

Lemma never_less_same w w' : same_store w' w -> never_less w w'.
Proof.
  intros Hs f s Hf. exists s. rewrite (entry_store f _ _ Hs). split; [exact Hf|lia].
Qed.

Lemma never_less_store w w1 w2 :
  same_store w2 w1 -> never_less w w1 -> never_less w w2.
Proof.
  intros Hs Hn f s Hf. destruct (Hn f s Hf) as (s' & Hs' & Hle).
  exists s'. rewrite (entry_store f _ _ Hs). auto.
Qed.

Lemma never_less_record f d w : table_ok w -> never_less w (snd (record f d w)).
Proof.
  intros Hok g s Hg. destruct (decide (f = g)) as [->|Hne].
  - exists (update s d). split; [|apply update_counts].
    rewrite entry_record by (apply table_ok_valid, Hok).
    unfold current. rewrite Hg. reflexivity.
  - exists s. rewrite entry_record_other by assumption. split; [exact Hg|lia].
Qed.

(** The bookkeeping of one event applies at most one update. *)
Lemma bookkeeping_store frame event now w :
  same_store (snd (bookkeeping host frame event now w)) w \/
  exists f d, same_store (snd (bookkeeping host frame event now w)) (snd (record f d w)).
Proof.
  unfold bookkeeping. destruct (String.eqb event "call").
  - left. rewrite bind_gets.
    destruct (find_traced host (f_code frame) (traced_functions w));
      split; reflexivity.
  - destruct (String.eqb event "return"); [|left; split; reflexivity].
    rewrite bind_gets.
    destruct (call_stack w !! frame_id frame) as [[func start_time]|];
      [|left; split; reflexivity].
    right. exists func, (now - start_time)%float.
    rewrite bind_modify.
    rewrite bind_returns with (a := tt) by apply record_returns.
    exact (same_store_record func (now - start_time)%float
             (set_call_stack (delete (frame_id frame) (call_stack w)) w) w
             (conj eq_refl eq_refl)).
Qed.

Lemma trace_function_store frame event arg now w :
  same_store (snd (_trace_function host frame event arg now w)) w \/
  exists f d,
    same_store (snd (_trace_function host frame event arg now w)) (snd (record f d w)).
Proof.
  destruct (enabled w) eqn:Hen.
  - destruct (trace_function_enabled host frame event arg now w Hen) as (r & log & E).
    rewrite E. simpl.
    destruct (bookkeeping_store frame event now w) as [H|(f & d & H)];
      [left|right; exists f, d]; exact H.
  - left. unfold _trace_function. rewrite bind_gets, Hen. simpl. rewrite bind_gets.
    destruct (original_trace_function w) as [[|h]|]; split; reflexivity.
Qed.

Lemma wrapped_function_store wf args t_start t_end w :
  same_store (snd (wrapped_function host wf args t_start t_end w)) w \/
  exists f d,
    same_store (snd (wrapped_function host wf args t_start t_end w)) (snd (record f d w)).
Proof.
  unfold wrapped_function, bind, gets, read_cell, call_original.
  destruct (enabled w); simpl.
  - destruct (cells w !! closure_cell wf) as [[func|]|] eqn:Hc;
      [|left; split; reflexivity|left; split; reflexivity].
    destruct (behaviour host func args) as [v|e]; [|left; split; reflexivity].
    simpl. rewrite Hc.
    right. exists func, (t_end - t_start)%float.
    pose proof (record_returns func (t_end - t_start)%float w) as Hr.
    destruct (record func (t_end - t_start)%float w) as [r w1].
    simpl in Hr. subst r. split; reflexivity.
  - left. destruct (cells w !! closure_cell wf) as [[func|]|]; split; reflexivity.
Qed.

Lemma never_less_step w w' :
  table_ok w ->
  same_store w' w \/ (exists f d, same_store w' (snd (record f d w))) ->
  never_less w w'.
Proof.
  intros Hok [H|(f & d & H)].
  - apply never_less_same, H.
  - eapply never_less_store; [exact H|]. apply never_less_record, Hok.
Qed.

End WithHost.

Lemma after_first_call_stats :
  stats Scenario.after_first_call = {[ Scenario.work_fn := 0%nat ]}.
Proof. vm_compute. reflexivity. Qed.

Lemma after_first_call_table : table_ok Scenario.after_first_call.
Proof.
  split.
  - intros f l Hl. rewrite after_first_call_stats in Hl.
    apply lookup_singleton_Some in Hl as [<- <-].
    exists (mkStats 1 1 1 1). split; [reflexivity|simpl; lia].
  - intros f g l Hf Hg. rewrite after_first_call_stats in Hf, Hg.
    apply lookup_singleton_Some in Hf as [<- _].
    apply lookup_singleton_Some in Hg as [<- _]. reflexivity.
Qed.

End StoreFacts.

(** ** Conditions that hold in every state the tracer reaches *)

Module Invariants.
Import Stats Py Tracer Runs MonadFacts WrapperFacts ControllerFacts TableFacts.
Import HookChain SessionFacts KeptFacts LifecycleFacts StoreFacts.

(** X1. The tracer never chains to itself: a tracer constructed while some
    other hook (or none) is installed never captures its own trace function
    as the previous hook, and never leaves its function installed once
    disabled; every operation keeps this. *)
Theorem hook_never_self (host : Host) :
  (forall slot mods, slot <> Some OwnTrace -> hook_ok (init_world slot mods)) /\
  kept_by_tracer host hook_ok.
Proof.
  split.
  - intros slot mods Hslot. split; [discriminate|intros _; exact Hslot].
  - split; [intros; apply hook_ok_enable|].
    split; [apply hook_ok_disable|].
    split; [intros; apply hook_ok_update|].
    split; [apply preserves_gets|].
    split; [intros; apply preserves_trace; intros w v H; exact H|].
    split.
    + intros. apply preserves_trace_function;
        [intros w v H; exact H|intros w v H; exact H|apply hook_ok_record].
    + intros. apply preserves_wrapped_function, hook_ok_record.
Qed.

(** X2. While the tracer is disabled the opaque-function wrapper holds no
    state: the set of opaque functions and the two dicts of originals and
    substitutes are empty at construction, and after any operation that
    leaves the tracer disabled. *)
Theorem wrapper_idle_when_disabled (host : Host) :
  (forall slot mods, idle_ok (init_world slot mods)) /\
  kept_by_tracer host idle_ok.
Proof.
  split.
  - intros slot mods _. repeat split.
  - split; [intros; apply idle_ok_enable|].
    split; [apply idle_ok_disable|].
    split; [intros; apply idle_ok_update|].
    split; [apply preserves_gets|].
    split; [intros; apply preserves_trace; intros w v H; exact H|].
    split.
    + intros. apply preserves_trace_function;
        [intros w v H; exact H|intros w v H; exact H|apply idle_ok_record].
    + intros. apply preserves_wrapped_function, idle_ok_record.
Qed.

(** X3. Every entry of the statistics table, in every state the operations
    reach from a new tracer, refers to a [FunctionStats] object that has
    counted at least one call, and no two functions share an object: an
    entry is only ever created by the update that records its first call. *)
Theorem table_entries_counted (host : Host) :
  (forall slot mods, table_ok (init_world slot mods)) /\
  kept_by_tracer host table_ok.
Proof.
  split; [apply table_ok_init|].
  apply kept_by_tracer_store.
  - apply lifecycle_frame_table.
  - intros w v H. eapply table_ok_store; [|exact H]. split; reflexivity.
  - intros w v H. eapply table_ok_store; [|exact H]. split; reflexivity.
  - intros f d w H. apply table_ok_record, H.
Qed.

(** X4. Recording a duration for one function changes that function's
    entry only: its entry becomes the update of what it had (or of the
    sentinel), and the entry of every other function reads as before. *)
Theorem record_touches_one_entry (f g : Callable) (d : float) (w : World) :
  table_ok w ->
  f <> g ->
  entry (snd (record f d w)) f = Some (update (current w f) d) /\
  entry (snd (record f d w)) g = entry w g.
Proof.
  intros Hok Hne. split.
  - apply entry_record, table_ok_valid, Hok.
  - apply entry_record_other; assumption.
Qed.

(** An update for [sqrt] after one call of [work]. *)
Lemma record_touches_one_entry_witness :
  entry (snd (record Scenario.sqrt_fn 1 Scenario.after_first_call)) Scenario.sqrt_fn
    = Some (update (current Scenario.after_first_call Scenario.sqrt_fn) 1) /\
  entry (snd (record Scenario.sqrt_fn 1 Scenario.after_first_call)) Scenario.work_fn
    = entry Scenario.after_first_call Scenario.work_fn.
Proof.
  apply (record_touches_one_entry Scenario.sqrt_fn Scenario.work_fn 1
           Scenario.after_first_call).
  - apply after_first_call_table.
  - discriminate.
Defined.

(** X5. No operation removes an entry of the statistics table or lowers
    its call count: whatever [enable], [disable], [update_functions],
    [trace], the trace function or a substitute does, every function that
    had an entry still has one, with at least the same [call_count]. *)
Theorem entries_never_lost (host : Host) (w : World) :
  table_ok w ->
  (forall functions, never_less w (snd (enable host functions w))) /\
  never_less w (snd (disable host w)) /\
  (forall functions, never_less w (snd (update_functions host functions w))) /\
  (forall function, never_less w (snd (trace function w))) /\
  (forall frame event arg now,
     never_less w (snd (_trace_function host frame event arg now w))) /\
  (forall wf args t_start t_end,
     never_less w (snd (wrapped_function host wf args t_start t_end w))).
Proof.
  intros Hok.
  split; [intros; apply never_less_same, enable_store|].
  split; [apply never_less_same, disable_store|].
  split.
  { intros functions. apply never_less_same.
    apply (preserves_update_functions host (fun x => same_store x w));
      [apply lifecycle_frame_store|split; reflexivity]. }
  split; [intros; apply never_less_same; split; reflexivity|].
  split.
  - intros. apply never_less_step; [exact Hok|apply trace_function_store].
  - intros. apply never_less_step; [exact Hok|apply wrapped_function_store].
Qed.

(** The world after one call of [work]. *)
Lemma entries_never_lost_witness :
  (forall functions,
     never_less Scenario.after_first_call
       (snd (enable Scenario.host functions Scenario.after_first_call))) /\
  never_less Scenario.after_first_call
    (snd (disable Scenario.host Scenario.after_first_call)) /\
  (forall functions,
     never_less Scenario.after_first_call
       (snd (update_functions Scenario.host functions Scenario.after_first_call))) /\
  (forall function,
     never_less Scenario.after_first_call (snd (trace function Scenario.after_first_call))) /\
  (forall frame event arg now,
     never_less Scenario.after_first_call
       (snd (_trace_function Scenario.host frame event arg now
               Scenario.after_first_call))) /\
  (forall wf args t_start t_end,
     never_less Scenario.after_first_call
       (snd (wrapped_function Scenario.host wf args t_start t_end
               Scenario.after_first_call))).
Proof.
  apply (entries_never_lost Scenario.host Scenario.after_first_call).
  apply after_first_call_table.
Defined.

End Invariants.

(** ** The sets of traced functions across enable, update and disable *)

Module SetFacts.
Import Stats Py Tracer Runs MonadFacts WrapperFacts ControllerFacts TableFacts.
Import HookChain SessionFacts RebindFacts InstallFacts KeptFacts LifecycleFacts.

Section WithHost.
Context (host : Host).

Lemma register_fold_traced fs w g :
  g ∈ traced_functions (fold_left (fun w g => snd (register host g w)) fs w) <->
  g ∈ traced_functions w \/ (g ∈ fs /\ _is_builtin_function host g = false).
Proof.
  revert w. induction fs as [|x fs IH]; intros w; simpl.
  - split; [auto|]. intros [H|[H _]]; [exact H|inversion H].
  - rewrite IH. unfold register.
    destruct (_is_builtin_function host x) eqn:Hx; simpl.
    + rewrite elem_of_cons. split.
      * intros [H|[H1 H2]]; auto.
      * intros [H|[[->|H1] H2]]; auto. congruence.
    + rewrite elem_of_set_add_iff, elem_of_cons. split.
      * intros [[->|H]|[H1 H2]]; auto.
      * intros [H|[[->|H1] H2]]; auto.
Qed.

(** The registration step, as a fold, whether or not functions were given. *)
Lemma registered_fold functions w :
  registered host functions w =
  fold_left (fun w g => snd (register host g w)) (default [] functions)
    (set_traced_functions (decorated_functions w) w).
Proof.
  unfold registered. destruct (truthy functions) eqn:Ht.
  - rewrite for_each_fold by (intros y; apply total_register). reflexivity.
  - destruct functions as [[|x fs]|]; try discriminate; reflexivity.
Qed.

(** [_setup_builtin_tracing] writes the cells, the two dicts and the
    module namespaces, and nothing else. *)
Lemma setup_keeps (P : World -> Prop) w :
  (forall w v, P w -> P (set_cells v w)) ->
  (forall w v, P w -> P (set_original_builtins v w)) ->
  (forall w v, P w -> P (set_wrapped_builtins v w)) ->
  (forall w v, P w -> P (set_modules v w)) ->
  P w -> P (snd (_setup_builtin_tracing host w)).
Proof.
  intros HC HO HW HM Hw. rewrite setup_world.
  generalize (length (cells w)). intros cell.
  assert (P (set_cells (cells w ++ [None]) w)) as H0 by (apply HC, Hw).
  revert H0. generalize (set_cells (cells w ++ [None]) w).
  induction (builtin_functions w) as [|g gs IH]; intros w0 H0; [exact H0|].
  simpl. apply IH.
  destruct (dict_mem g (wrapped_builtins w0)) eqn:Hmem.
  - rewrite wrap_one_skip by assumption. apply HC, H0.
  - rewrite wrap_one_wrap by assumption. rewrite rebind_frame.
    apply HM, HW, HO, HC, H0.
Qed.

Lemma setup_keeps_sets w :
  traced_functions (snd (_setup_builtin_tracing host w)) = traced_functions w /\
  builtin_functions (snd (_setup_builtin_tracing host w)) = builtin_functions w /\
  decorated_functions (snd (_setup_builtin_tracing host w)) = decorated_functions w /\
  call_stack (snd (_setup_builtin_tracing host w)) = call_stack w.
Proof.
  apply (setup_keeps
           (fun x => traced_functions x = traced_functions w /\
                     builtin_functions x = builtin_functions w /\
                     decorated_functions x = decorated_functions w /\
                     call_stack x = call_stack w));
    try (intros x v H; exact H).
  repeat split.
Qed.

Lemma register_fold_frame (P : World -> Prop) fs w :
  (forall w v, P w -> P (set_builtin_functions v w)) ->
  (forall w v, P w -> P (set_traced_functions v w)) ->
  P w -> P (fold_left (fun w g => snd (register host g w)) fs w).
Proof. apply register_fold_keeps. Qed.

(** The sets [enable] leaves on a disabled tracer. *)
Lemma enable_sets functions w g :
  enabled w = false ->
  (g ∈ traced_functions (snd (enable host functions w)) <->
     g ∈ decorated_functions w \/
     (g ∈ default [] functions /\ _is_builtin_function host g = false)) /\
  (g ∈ builtin_functions (snd (enable host functions w)) <->
     g ∈ builtin_functions w \/
     (g ∈ default [] functions /\ _is_builtin_function host g = true)).
Proof.
  intros Hdis. rewrite enable_world by exact Hdis. simpl.
  destruct (setup_keeps_sets
              (set_sys_trace (Some OwnTrace)
                 (set_original_trace_function (sys_trace (registered host functions w))
                    (registered host functions w)))) as (Ht & Hb & _).
  rewrite Ht, Hb. simpl. rewrite registered_fold.
  rewrite register_fold_traced, register_fold_builtin. simpl.
  split; reflexivity.
Qed.






End WithHost.
End SetFacts.

(** ** Registration and the trace slot across the lifecycle *)

Module Registration.
Import Stats Py Tracer Runs MonadFacts WrapperFacts ControllerFacts TableFacts.
Import HookChain SessionFacts RebindFacts InstallFacts KeptFacts LifecycleFacts.
Import StoreFacts SetFacts.

(** X6. On a disabled tracer, [enable] records whatever trace hook the
    interpreter had (possibly none) as the previous hook and installs the
    tracer's own function; the following [disable] puts the previous hook
    back in the slot and leaves the tracer disabled. *)
Theorem enable_disable_restores_hook (host : Host) (w : World)
    (functions : option (list Callable)) :
  enabled w = false ->
  sys_trace (snd (enable host functions w)) = Some OwnTrace /\
  original_trace_function (snd (enable host functions w)) = sys_trace w /\
  sys_trace (snd (disable host (snd (enable host functions w)))) = sys_trace w /\
  enabled (snd (disable host (snd (enable host functions w)))) = false.
Proof.
  intros Hdis.
  destruct (enable_captures host functions w Hdis) as [Hs Ho].
  destruct (disable_clears host (snd (enable host functions w)))
    as (Hd & Hs' & _); [apply enable_enables|].
  repeat split; try assumption. rewrite Hs'. exact Ho.
Qed.

(** With a debugger's hook installed first. *)
Lemma enable_disable_restores_hook_witness :
  sys_trace (snd (enable Scenario.host (Some [Scenario.sqrt_fn]) debugged))
    = Some OwnTrace /\
  original_trace_function (snd (enable Scenario.host (Some [Scenario.sqrt_fn]) debugged))
    = sys_trace debugged /\
  sys_trace (snd (disable Scenario.host
                    (snd (enable Scenario.host (Some [Scenario.sqrt_fn]) debugged))))
    = sys_trace debugged /\
  enabled (snd (disable Scenario.host
                  (snd (enable Scenario.host (Some [Scenario.sqrt_fn]) debugged))))
    = false.
Proof.
  apply (enable_disable_restores_hook Scenario.host debugged (Some [Scenario.sqrt_fn])).
  reflexivity.
Defined.





(** X9. On a disabled tracer [enable] returns, enables tracing and sorts
    the functions it is given: the traced set becomes exactly the decorated
    functions plus the given functions that have a code object (functions
    of an earlier session are gone), and the given functions that have none
    are added to the opaque set; [None] and the empty list add nothing. *)
Theorem enable_registers (host : Host) (w : World) (functions : option (list Callable)) :
  enabled w = false ->
  fst (enable host functions w) = Returns tt /\
  enabled (snd (enable host functions w)) = true /\
  (forall g, g ∈ traced_functions (snd (enable host functions w)) <->
     g ∈ decorated_functions w \/
     (g ∈ default [] functions /\ _is_builtin_function host g = false)) /\
  (forall g, g ∈ builtin_functions (snd (enable host functions w)) <->
     g ∈ builtin_functions w \/
     (g ∈ default [] functions /\ _is_builtin_function host g = true)) /\
  decorated_functions (snd (enable host functions w)) = decorated_functions w.
Proof.
  intros Hdis.
  split; [apply enable_returns|]. split; [apply enable_enables|].
  split; [intros g; apply enable_sets, Hdis|].
  split; [intros g; apply enable_sets, Hdis|].
  apply (preserves_enable host (fun x => decorated_functions x = decorated_functions w));
    [apply lifecycle_frame_decorated|reflexivity].
Qed.

(** [work] is decorated; [enable([sqrt])] on the disabled tracer. *)
Lemma enable_registers_witness :
  fst (enable Scenario.host (Some [Scenario.sqrt_fn]) Scenario.decorated_world)
    = Returns tt /\
  enabled (snd (enable Scenario.host (Some [Scenario.sqrt_fn]) Scenario.decorated_world))
    = true /\
  (forall g,
     g ∈ traced_functions
           (snd (enable Scenario.host (Some [Scenario.sqrt_fn]) Scenario.decorated_world))
     <-> g ∈ decorated_functions Scenario.decorated_world \/
         (g ∈ default [] (Some [Scenario.sqrt_fn]) /\
          _is_builtin_function Scenario.host g = false)) /\
  (forall g,
     g ∈ builtin_functions
           (snd (enable Scenario.host (Some [Scenario.sqrt_fn]) Scenario.decorated_world))
     <-> g ∈ builtin_functions Scenario.decorated_world \/
         (g ∈ default [] (Some [Scenario.sqrt_fn]) /\
          _is_builtin_function Scenario.host g = true)) /\
  decorated_functions
    (snd (enable Scenario.host (Some [Scenario.sqrt_fn]) Scenario.decorated_world))
    = decorated_functions Scenario.decorated_world.
Proof.
  apply (enable_registers Scenario.host Scenario.decorated_world
           (Some [Scenario.sqrt_fn])).
  reflexivity.
Defined.

(** X10. Opaque and listed functions belong to one session: after
    [disable()] and a new [enable()] without arguments on a tracer that was
    enabled, the traced set is exactly the decorated set, no opaque function
    is registered, and the wrapper holds no original and no substitute. *)
Theorem restart_traces_decorated_only (host : Host) (w : World) :
  enabled w = true ->
  fst (restart host w) = Returns tt /\
  enabled (snd (restart host w)) = true /\
  traced_functions (snd (restart host w)) = decorated_functions w /\
  builtin_functions (snd (restart host w)) = [] /\
  original_builtins (snd (restart host w)) = [] /\
  wrapped_builtins (snd (restart host w)) = [].
Proof.
  intros Hen. unfold restart.
  rewrite (bind_returns _ _ _ _ (disable_returns host w)).
  set (wd := snd (disable host w)).
  destruct (disable_clears host w Hen) as (Hdis & _ & _ & _ & Hb & Ho & Hw).
  fold wd in Hdis, Hb, Ho, Hw.
  assert (decorated_functions wd = decorated_functions w) as Hdec.
  { apply (preserves_disable host (fun x => decorated_functions x = decorated_functions w));
      [apply lifecycle_frame_decorated|reflexivity]. }
  split; [apply enable_returns|]. split; [apply enable_enables|].
  split.
  { destruct (enable_none_disabled host wd Hdis) as [Ht _]. rewrite Ht. exact Hdec. }
  rewrite enable_world by exact Hdis. rewrite setup_world. simpl.
  rewrite Hb. simpl. rewrite Hb, Ho, Hw. repeat split.
Qed.

(** The session of two native functions, restarted. *)
Lemma restart_traces_decorated_only_witness :
  fst (restart Scenario.host Scenario.math_session) = Returns tt /\
  enabled (snd (restart Scenario.host Scenario.math_session)) = true /\
  traced_functions (snd (restart Scenario.host Scenario.math_session))
    = decorated_functions Scenario.math_session /\
  builtin_functions (snd (restart Scenario.host Scenario.math_session)) = [] /\
  original_builtins (snd (restart Scenario.host Scenario.math_session)) = [] /\
  wrapped_builtins (snd (restart Scenario.host Scenario.math_session)) = [].
Proof.
  apply (restart_traces_decorated_only Scenario.host Scenario.math_session).
  reflexivity.
Defined.



End Registration.

(** ** Streams of events and nested invocations *)

Module EventFacts.
Import Stats Py Tracer Runs MonadFacts WrapperFacts ControllerFacts TableFacts.
Import HookChain SessionFacts KeptFacts LifecycleFacts StoreFacts.

Section WithHost.
Context (host : Host).

Lemma bookkeeping_keeps (P : World -> Prop) frame event now w :
  (forall w v, P w -> P (set_call_stack v w)) ->
  (forall w v, P w -> P (set_stats v w)) ->
  (forall w v, P w -> P (set_heap v w)) ->
  P w -> P (snd (bookkeeping host frame event now w)).
Proof.
  intros HC HS HH. apply preserves_bookkeeping; [exact HC|].
  intros f d. apply preserves_record_frame; assumption.
Qed.

(** One event, with a hook captured and tracing enabled. *)
Lemma trace_function_forwards h frame event arg now w :
  enabled w = true ->
  original_trace_function w = Some (ExternalTrace h) ->
  (exists r, fst (_trace_function host frame event arg now w) = Returns r) /\
  forwarded (snd (_trace_function host frame event arg now w))
    = forwarded w ++ [mkHookCall h frame event arg] /\
  enabled (snd (_trace_function host frame event arg now w)) = true /\
  original_trace_function (snd (_trace_function host frame event arg now w))
    = Some (ExternalTrace h).
Proof.
  intros Hen Hh.
  destruct (bookkeeping_outcome host frame event now w)
    as (func & Hret & _ & Hlog & Horig).
  assert (enabled (snd (bookkeeping host frame event now w)) = true) as Hen'.
  { apply (bookkeeping_keeps (fun x => enabled x = true));
      try (intros x v H; exact H). exact Hen. }
  unfold _trace_function. rewrite bind_gets, Hen. simpl.
  rewrite (bind_returns _ _ _ _ Hret), bind_gets, Horig, Hh.
  unfold bind, try_except, call_hook, ret.
  destruct (hook_behaviour host h frame event arg) as [t|e]; destruct func;
    simpl; rewrite Hlog, Horig, Hh, Hen';
    (split; [eexists; reflexivity|repeat split]).
Qed.

Lemma deliver_all_forwards h events w :
  enabled w = true ->
  original_trace_function w = Some (ExternalTrace h) ->
  fst (deliver_all host events w) = Returns tt /\
  forwarded (snd (deliver_all host events w))
    = forwarded w ++ map (hook_call h) events.
Proof.
  revert w. induction events as [|e es IH]; intros w Hen Hh.
  - split; [reflexivity|]. simpl. rewrite app_nil_r. reflexivity.
  - destruct (trace_function_forwards h (ev_frame e) (ev_kind e) (ev_arg e) (ev_now e)
                w Hen Hh) as ([r Hr] & Hlog & Hen1 & Hh1).
    assert (deliver host e w
            = (Returns tt,
               snd (_trace_function host (ev_frame e) (ev_kind e) (ev_arg e)
                      (ev_now e) w))) as Hd.
    { unfold deliver. rewrite (bind_returns _ _ _ _ Hr). reflexivity. }
    assert (deliver_all host (e :: es) w
            = deliver_all host es
                (snd (_trace_function host (ev_frame e) (ev_kind e) (ev_arg e)
                        (ev_now e) w))) as Hstep.
    { unfold deliver_all. simpl for_each. unfold bind at 1. rewrite Hd. reflexivity. }
    rewrite Hstep.
    destruct (IH _ Hen1 Hh1) as [Hret Hfw].
    split; [exact Hret|].
    rewrite Hfw, Hlog. rewrite <- app_assoc. reflexivity.
Qed.

(** *** Nested invocations *)

Lemma record_each_app f ds1 ds2 w :
  snd (record_each f (ds1 ++ ds2) w)
  = snd (record_each f ds2 (snd (record_each f ds1 w))).
Proof.
  revert w. induction ds1 as [|d ds1 IH]; intros w; [reflexivity|].
  simpl app. rewrite !record_each_cons. apply IH.
Qed.

Lemma tracing_frame f c D w w' :
  tracing host f c D w ->
  enabled w' = enabled w ->
  traced_functions w' = traced_functions w ->
  decorated_functions w' = decorated_functions w ->
  tracing host f c D w'.
Proof.
  intros (He & Hf & Hd) H1 H2 H3. unfold tracing. rewrite H1, H2, H3. auto.
Qed.

(** The two events of a level, with whatever runs in between. *)
Lemma call_event_world f c D frame arg now w :
  tracing host f c D w -> f_code frame = c ->
  exists r log,
    _trace_function host frame "call" arg now w =
      (Returns r,
       set_forwarded log
         (set_call_stack (<[frame_id frame := (f, now)]> (call_stack w)) w)).
Proof.
  intros (Hen & Hfind & _) <-.
  destruct (trace_function_enabled host frame "call" arg now w Hen) as (r & log & E).
  rewrite (bookkeeping_call host frame now w f Hfind) in E. eauto.
Qed.

Lemma return_event_world f start_time frame result now w :
  enabled w = true ->
  call_stack w !! frame_id frame = Some (f, start_time) ->
  exists r log,
    _trace_function host frame "return" result now w =
      (Returns r,
       set_forwarded log
         (snd (record f (now - start_time)%float
                 (set_call_stack (delete (frame_id frame) (call_stack w)) w)))).
Proof.
  intros Hen Hctx.
  destruct (trace_function_enabled host frame "return" result now w Hen)
    as (r & log & E).
  rewrite (bookkeeping_return host frame now w f start_time Hctx) in E. eauto.
Qed.

Lemma nested_effect f c D levels w :
  tracing host f c D w ->
  Forall (fun i => f_code (inv_frame i) = c) levels ->
  NoDup (map (fun i => frame_id (inv_frame i)) levels) ->
  fst (nested host levels w) = Returns tt /\
  tracing host f c D (snd (nested host levels w)) /\
  same_store (snd (nested host levels w))
             (snd (record_each f (rev (map elapsed levels)) w)) /\
  (forall k, k ∉ map (fun i => frame_id (inv_frame i)) levels ->
     call_stack (snd (nested host levels w)) !! k = call_stack w !! k).
Proof.
  revert w. induction levels as [|i inner IH]; intros w Htr Hall Hnd.
  - simpl. split; [reflexivity|]. split; [exact Htr|].
    split; [split; reflexivity|]. intros k _. reflexivity.
  - apply Forall_cons in Hall as [Hi Hall].
    apply NoDup_cons in Hnd as [Hfresh Hnd].
    set (k0 := frame_id (inv_frame i)) in *.
    destruct (call_event_world f c D (inv_frame i) (inv_arg i) (inv_start i) w Htr Hi)
      as (r1 & log1 & E1).
    set (w1 := set_forwarded log1
                 (set_call_stack (<[k0 := (f, inv_start i)]> (call_stack w)) w)) in E1.
    assert (tracing host f c D w1) as Htr1
      by (apply (tracing_frame f c D w); [exact Htr|reflexivity..]).
    destruct (IH w1 Htr1 Hall Hnd) as (Hret2 & Htr2 & Hst2 & Hcs2).
    set (w2 := snd (nested host inner w1)) in *.
    assert (call_stack w2 !! k0 = Some (f, inv_start i)) as Hctx.
    { rewrite (Hcs2 k0 Hfresh). simpl. apply lookup_insert_eq. }
    destruct (return_event_world f (inv_start i) (inv_frame i) (inv_result i)
                (inv_end i) w2 (proj1 Htr2) Hctx) as (r3 & log3 & E3).
    fold k0 in E3.
    set (w2' := set_call_stack (delete k0 (call_stack w2)) w2) in E3.
    assert (nested host (i :: inner) w =
            (Returns tt,
             set_forwarded log3
               (snd (record f (inv_end i - inv_start i)%float w2')))) as E.
    { simpl nested. unfold bind at 1. rewrite E1.
      rewrite (bind_returns _ _ _ _ Hret2). fold w2.
      unfold bind at 1. rewrite E3. reflexivity. }
    rewrite E. cbn [fst snd].
    pose proof (record_frame f (inv_end i - inv_start i)%float w2') as Hframe.
    split; [reflexivity|]. split; [|split].
    + apply (tracing_frame f c D w2); [exact Htr2| | |]; rewrite Hframe; reflexivity.
    + simpl map. simpl rev. rewrite record_each_app.
      rewrite (record_each_cons f (elapsed i) []).
      change (snd (record_each f [] ?x)) with x.
      eapply same_store_trans.
      * exact (same_store_record f (inv_end i - inv_start i)%float w2' w2
                 (conj eq_refl eq_refl)).
      * apply same_store_record.
        eapply same_store_trans; [exact Hst2|].
        apply same_store_record_each. split; reflexivity.
    + intros k Hk. simpl in Hk. apply not_elem_of_cons in Hk as [Hne Hk].
      rewrite Hframe. simpl.
      assert (k0 <> k) as Hne' by (intros Heq; apply Hne; symmetry; exact Heq).
      rewrite lookup_delete_ne by exact Hne'.
      rewrite (Hcs2 k Hk). simpl. apply lookup_insert_ne. exact Hne'.
Qed.

End WithHost.
End EventFacts.

(** ** What a substitute does when it is called *)

Module SubstituteFacts.
Import Stats Py Tracer Runs MonadFacts WrapperFacts ControllerFacts TableFacts.
Import SessionFacts RebindFacts InstallFacts KeptFacts LifecycleFacts StoreFacts.

Section WithHost.
Context (host : Host).

(** A call of a substitute whose closure variable holds [func]. *)
Lemma wrapped_function_held wf args t_start t_end w func :
  cells w !! closure_cell wf = Some (Some func) ->
  wrapped_function host wf args t_start t_end w =
  if enabled w then
    match behaviour host func args with
    | Returns v => (Returns v, snd (record func (t_end - t_start)%float w))
    | Raises e => (Raises e, w)
    end
  else (behaviour host func args, w).
Proof.
  intros Hc. unfold wrapped_function, bind, gets, read_cell, call_original.
  destruct (enabled w); simpl; rewrite Hc; [|reflexivity].
  destruct (behaviour host func args) as [v|e]; [|reflexivity].
  simpl. rewrite Hc.
  pose proof (record_returns func (t_end - t_start)%float w) as Hr.
  destruct (record func (t_end - t_start)%float w) as [r w1].
  simpl in Hr. subst r. reflexivity.
Qed.

Lemma wrapped_function_result wf args t_start t_end w func :
  cells w !! closure_cell wf = Some (Some func) ->
  fst (wrapped_function host wf args t_start t_end w) = behaviour host func args.
Proof.
  intros Hc. rewrite (wrapped_function_held wf args t_start t_end w func Hc).
  destruct (enabled w); [|reflexivity].
  destruct (behaviour host func args); reflexivity.
Qed.

(** Every substitute a run of the loop leaves in the dict was there before
    or closes over the cell of the run. *)
Lemma wrap_fold_wrapped cell fs w f wf :
  (f, wf) ∈ wrapped_builtins (fold_left (fun w' x => snd (wrap_one host cell x w')) fs w) ->
  (f, wf) ∈ wrapped_builtins w \/ (wf = mkWrapped cell f /\ f ∈ fs).
Proof.
  revert w. induction fs as [|g fs IH]; intros w Hin; [left; exact Hin|].
  simpl in Hin. apply IH in Hin as [Hin|[-> Hf]].
  - destruct (dict_mem g (wrapped_builtins w)) eqn:Hmem.
    + rewrite wrap_one_skip in Hin by assumption. left. exact Hin.
    + rewrite wrap_one_wrap in Hin by assumption. rewrite rebind_frame in Hin.
      simpl in Hin. apply dict_set_elem_inv in Hin as [Heq|Hin]; [|left; exact Hin].
      injection Heq as -> ->. right. split; [reflexivity|left].
  - right. split; [reflexivity|right; exact Hf].
Qed.

(** The loop of [_setup_builtin_tracing] visits the set in some order. *)
Lemma setup_visits_builtin_functions w :
  _setup_builtin_tracing host w = setup_visiting host (builtin_functions w) w.
Proof. reflexivity. Qed.

Lemma setup_visiting_world order w :
  snd (setup_visiting host order w) =
  fold_left (fun w' x => snd (wrap_one host (length (cells w)) x w'))
    order (set_cells (cells w ++ [None]) w).
Proof.
  unfold setup_visiting. rewrite bind_gets, bind_modify.
  rewrite for_each_fold by (intros x; apply total_wrap_one). reflexivity.
Qed.

Lemma setup_visiting_wrapped order w f wf :
  wrapped_builtins w = [] ->
  (f, wf) ∈ wrapped_builtins (snd (setup_visiting host order w)) ->
  wf = mkWrapped (length (cells w)) f /\ f ∈ order.
Proof.
  intros Hempty Hin. rewrite setup_visiting_world in Hin.
  apply wrap_fold_wrapped in Hin as [Hin|H]; [|exact H].
  simpl in Hin. rewrite Hempty in Hin. inversion Hin.
Qed.

Lemma setup_visiting_cell w fs g :
  cells (snd (setup_visiting host (fs ++ [g]) w)) !! length (cells w) = Some (Some g).
Proof.
  rewrite setup_visiting_world, fold_left_app. simpl.
  rewrite wrap_one_cells. apply list_lookup_insert_eq.
  rewrite wrap_fold_cells_length. simpl. rewrite length_app. simpl. lia.
Qed.

End WithHost.

(** A process in which the modules [time] and [builtins] are out of the
    tracer's reach has every helper name untouched. *)
Lemma pristine_without_modules (w : World) :
  modules w !! "time" = None -> modules w !! "builtins" = None ->
  helpers_pristine w.
Proof.
  intros Ht Hb m n wf Hin. unfold helper_names in Hin. unfold binding.
  repeat (apply elem_of_cons in Hin as [Heq|Hin];
          [injection Heq as -> ->; first [rewrite Ht|rewrite Hb]; discriminate|]).
  inversion Hin.
Qed.


End SubstituteFacts.

(** ** Event streams, nested calls and substitutes *)

Module Events.
Import Stats Py Tracer Runs MonadFacts WrapperFacts ControllerFacts TableFacts.
Import FloatOrder SessionFacts InstallFacts KeptFacts LifecycleFacts StoreFacts.
Import SetFacts EventFacts SubstituteFacts.

(** X12. While tracing is enabled and a hook was captured, a whole stream
    of events handed to [_trace_function] reaches the hook: one call per
    event, in the order of the stream, each with the frame, the event name
    and the argument of its event, whether or not the event matched a traced
    function and whatever the hook answers or raises. *)
Theorem hook_sees_every_event (host : Host) (h : Hook) (events : list Event)
    (w : World) :
  enabled w = true ->
  original_trace_function w = Some (ExternalTrace h) ->
  fst (deliver_all host events w) = Returns tt /\
  forwarded (snd (deliver_all host events w))
    = forwarded w ++ map (hook_call h) events.
Proof. apply deliver_all_forwards. Qed.

(** A call of [work], a line event and its return, under the debugger's hook. *)
Lemma hook_sees_every_event_witness :
  fst (deliver_all Scenario.host
         [mkEvent Scenario.work_frame "call" VNone 1;
          mkEvent Scenario.work_frame "line" VNone 1.5;
          mkEvent Scenario.work_frame "return" VNone 2]
         Scenario.hooked_session) = Returns tt /\
  forwarded (snd (deliver_all Scenario.host
                    [mkEvent Scenario.work_frame "call" VNone 1;
                     mkEvent Scenario.work_frame "line" VNone 1.5;
                     mkEvent Scenario.work_frame "return" VNone 2]
                    Scenario.hooked_session))
    = forwarded Scenario.hooked_session ++
      map (hook_call 9)
        [mkEvent Scenario.work_frame "call" VNone 1;
         mkEvent Scenario.work_frame "line" VNone 1.5;
         mkEvent Scenario.work_frame "return" VNone 2].
Proof.
  apply (hook_sees_every_event Scenario.host 9
           [mkEvent Scenario.work_frame "call" VNone 1;
            mkEvent Scenario.work_frame "line" VNone 1.5;
            mkEvent Scenario.work_frame "return" VNone 2]
           Scenario.hooked_session); reflexivity.
Defined.

(** X13. Invocations of a traced function nested in one another (a
    recursion), each in a frame of its own, in a session that captured no
    other trace hook and wraps none of the tracer's own helpers: every level
    is recorded, the innermost first, each with the time between its own two
    events; the statistics end as one aggregator update per level in that
    order, and the open call contexts of all other frames are as before. *)
Theorem nested_calls_recorded_inside_out (host : Host) (f : Callable) (c : Code)
    (D : list Callable) (levels : list Invocation) (w : World) :
  tracing host f c D w ->
  original_trace_function w = None ->
  helpers_pristine w ->
  Forall (fun i => f_code (inv_frame i) = c) levels ->
  NoDup (map (fun i => frame_id (inv_frame i)) levels) ->
  fst (nested host levels w) = Returns tt /\
  same_store (snd (nested host levels w))
             (snd (record_each f (rev (map elapsed levels)) w)) /\
  (forall k, k ∉ map (fun i => frame_id (inv_frame i)) levels ->
     call_stack (snd (nested host levels w)) !! k = call_stack w !! k).
Proof.
  intros Htr _ _ Hall Hnd.
  destruct (nested_effect host f c D levels w Htr Hall Hnd) as (H1 & _ & H2 & H3).
  split; [exact H1|]. split; [exact H2|exact H3].
Qed.

(** [work] calling itself once: the outer call from 1 to 4, the inner one
    from 2 to 3. *)
Lemma nested_calls_recorded_inside_out_witness :
  fst (nested Scenario.host
         [mkInvocation (mkFrame 7 30) VNone VNone 1 4;
          mkInvocation (mkFrame 8 30) VNone VNone 2 3]
         Scenario.work_session) = Returns tt /\
  same_store
    (snd (nested Scenario.host
            [mkInvocation (mkFrame 7 30) VNone VNone 1 4;
             mkInvocation (mkFrame 8 30) VNone VNone 2 3]
            Scenario.work_session))
    (snd (record_each Scenario.work_fn
            (rev (map elapsed
                    [mkInvocation (mkFrame 7 30) VNone VNone 1 4;
                     mkInvocation (mkFrame 8 30) VNone VNone 2 3]))
            Scenario.work_session)) /\
  (forall k,
     k ∉ map (fun i => frame_id (inv_frame i))
           [mkInvocation (mkFrame 7 30) VNone VNone 1 4;
            mkInvocation (mkFrame 8 30) VNone VNone 2 3] ->
     call_stack (snd (nested Scenario.host
                        [mkInvocation (mkFrame 7 30) VNone VNone 1 4;
                         mkInvocation (mkFrame 8 30) VNone VNone 2 3]
                        Scenario.work_session)) !! k
     = call_stack Scenario.work_session !! k).
Proof.
  apply (nested_calls_recorded_inside_out Scenario.host Scenario.work_fn 30%nat
           [Scenario.work_fn]
           [mkInvocation (mkFrame 7 30) VNone VNone 1 4;
            mkInvocation (mkFrame 8 30) VNone VNone 2 3]
           Scenario.work_session).
  - split; [reflexivity|split; reflexivity].
  - reflexivity.
  - apply pristine_without_modules; reflexivity.
  - repeat constructor.
  - simpl. apply NoDup_cons. split; [|apply NoDup_singleton].
    rewrite list_elem_of_singleton. discriminate.
Defined.



(** X15. Every substitute that one run of the loop of
    [_setup_builtin_tracing] builds closes over the same loop variable, which
    ends holding the function the loop visited last. Whatever the order in
    which the loop visits the set of opaque functions, and starting with no
    substitute on record (as when the tracer is enabled or its list
    updated): a substitute on record afterwards was built for one of the
    functions of the set, and a later call of it, while the helpers it
    looks up are untouched, gives the result or the error of the function
    visited last, whichever function it was built for. *)
Theorem substitutes_share_loop_variable (host : Host) (order fs : list Callable)
    (g : Callable) (w : World) (f : Callable) (wf : Wrapped) :
  wrapped_builtins w = [] ->
  order ≡ₚ builtin_functions w ->
  order = fs ++ [g] ->
  (f, wf) ∈ wrapped_builtins (snd (setup_visiting host order w)) ->
  wrapped_of wf = f /\
  f ∈ builtin_functions w /\
  cells (snd (setup_visiting host order w)) !! closure_cell wf = Some (Some g) /\
  (forall w' args t_start t_end,
     cells w' = cells (snd (setup_visiting host order w)) ->
     helpers_pristine w' ->
     fst (wrapped_function host wf args t_start t_end w') = behaviour host g args).
Proof.
  intros Hempty Hperm -> Hin.
  destruct (setup_visiting_wrapped host (fs ++ [g]) w f wf Hempty Hin) as [-> Hf].
  pose proof (setup_visiting_cell host w fs g) as Hcell.
  split; [reflexivity|]. split; [rewrite <- Hperm; exact Hf|].
  split; [exact Hcell|].
  intros w' args t_start t_end Hcells _.
  apply wrapped_function_result. rewrite Hcells. exact Hcell.
Qed.

(** [sqrt] and [floor] registered, and the loop visiting [floor] first: the
    substitute built for [floor] calls [sqrt]. *)
Lemma substitutes_share_loop_variable_witness :
  wrapped_of Scenario.floor_substitute = Scenario.floor_fn /\
  Scenario.floor_fn ∈
    builtin_functions
      (registered Scenario.host (Some [Scenario.sqrt_fn; Scenario.floor_fn])
         Scenario.fresh) /\
  cells (snd (setup_visiting Scenario.host [Scenario.floor_fn; Scenario.sqrt_fn]
                (registered Scenario.host (Some [Scenario.sqrt_fn; Scenario.floor_fn])
                   Scenario.fresh)))
    !! closure_cell Scenario.floor_substitute
    = Some (Some Scenario.sqrt_fn) /\
  (forall w' args t_start t_end,
     cells w' =
       cells (snd (setup_visiting Scenario.host [Scenario.floor_fn; Scenario.sqrt_fn]
                     (registered Scenario.host
                        (Some [Scenario.sqrt_fn; Scenario.floor_fn]) Scenario.fresh))) ->
     helpers_pristine w' ->
     fst (wrapped_function Scenario.host Scenario.floor_substitute args t_start t_end w')
     = behaviour Scenario.host Scenario.sqrt_fn args).
Proof.
  apply (substitutes_share_loop_variable Scenario.host
           [Scenario.floor_fn; Scenario.sqrt_fn] [Scenario.floor_fn] Scenario.sqrt_fn
           (registered Scenario.host (Some [Scenario.sqrt_fn; Scenario.floor_fn])
              Scenario.fresh)
           Scenario.floor_fn Scenario.floor_substitute).
  - reflexivity.
  - apply Permutation_swap.
  - reflexivity.
  - vm_compute. constructor.
Defined.

(** X16. One aggregator update of an entry whose extremes are numbers, with
    a duration that is a number: the call count rises by one, the minimum
    does not rise and the maximum does not fall, both bound the new
    duration, each is the old extreme or the new duration, and an entry
    whose minimum was not above its maximum stays so. *)
Theorem update_widens_range (s : FunctionStats) (d : float) :
  is_number (min_time s) = true ->
  is_number (max_time s) = true ->
  is_number d = true ->
  call_count (update s d) = call_count s + 1 /\
  (min_time (update s d) <=? min_time s)%float = true /\
  (min_time (update s d) <=? d)%float = true /\
  (max_time s <=? max_time (update s d))%float = true /\
  (d <=? max_time (update s d))%float = true /\
  (min_time (update s d) = min_time s \/ min_time (update s d) = d) /\
  (max_time (update s d) = max_time s \/ max_time (update s d) = d) /\
  ((min_time s <=? max_time s)%float = true ->
   (min_time (update s d) <=? max_time (update s d))%float = true).
Proof.
  intros Hmin Hmax Hd.
  assert ((py_min (min_time s) d <=? min_time s)%float = true) as H1.
  { unfold py_min. destruct (d <? min_time s)%float eqn:E.
    - apply ltb_leb, E.
    - apply leb_refl, Hmin. }
  assert ((py_min (min_time s) d <=? d)%float = true) as H2.
  { unfold py_min. destruct (d <? min_time s)%float eqn:E.
    - apply leb_refl, Hd.
    - apply not_ltb_leb; assumption. }
  assert ((max_time s <=? py_max (max_time s) d)%float = true) as H3.
  { unfold py_max. destruct (max_time s <? d)%float eqn:E.
    - apply ltb_leb, E.
    - apply leb_refl, Hmax. }
  assert ((d <=? py_max (max_time s) d)%float = true) as H4.
  { unfold py_max. destruct (max_time s <? d)%float eqn:E.
    - apply leb_refl, Hd.
    - apply not_ltb_leb; assumption. }
  simpl.
  split; [reflexivity|]. split; [exact H1|]. split; [exact H2|].
  split; [exact H3|]. split; [exact H4|].
  split; [unfold py_min; destruct (d <? min_time s)%float; auto|].
  split; [unfold py_max; destruct (max_time s <? d)%float; auto|].
  intros Hle. eapply leb_trans; [exact H1|]. eapply leb_trans; [exact Hle|exact H3].
Qed.

(** The entry after one call of one second, updated with a call of two. *)
Lemma update_widens_range_witness :
  call_count (update (mkStats 1 1 1 1) 2) = call_count (mkStats 1 1 1 1) + 1 /\
  (min_time (update (mkStats 1 1 1 1) 2) <=? min_time (mkStats 1 1 1 1))%float = true /\
  (min_time (update (mkStats 1 1 1 1) 2) <=? 2)%float = true /\
  (max_time (mkStats 1 1 1 1) <=? max_time (update (mkStats 1 1 1 1) 2))%float = true /\
  (2 <=? max_time (update (mkStats 1 1 1 1) 2))%float = true /\
  (min_time (update (mkStats 1 1 1 1) 2) = min_time (mkStats 1 1 1 1) \/
   min_time (update (mkStats 1 1 1 1) 2) = 2%float) /\
  (max_time (update (mkStats 1 1 1 1) 2) = max_time (mkStats 1 1 1 1) \/
   max_time (update (mkStats 1 1 1 1) 2) = 2%float) /\
  ((min_time (mkStats 1 1 1 1) <=? max_time (mkStats 1 1 1 1))%float = true ->
   (min_time (update (mkStats 1 1 1 1) 2) <=? max_time (update (mkStats 1 1 1 1) 2))%float
   = true).
Proof.
  apply (update_widens_range (mkStats 1 1 1 1) 2); reflexivity.
Defined.

End Events.

(** ** The module namespaces across a session *)

Module NamespaceFacts.
Import Stats Py Tracer Runs MonadFacts WrapperFacts ControllerFacts TableFacts.
Import SessionFacts RebindFacts InstallFacts KeptFacts LifecycleFacts SetFacts.

(** Two collections of namespaces with the same modules and the same
    bindings are the same. *)
Lemma modules_eq (mods mods' : gmap string (gmap string PyCallable)) :
  (forall m, is_Some (mods !! m) <-> is_Some (mods' !! m)) ->
  (forall m n, (ns ← mods !! m; ns !! n) = (ns ← mods' !! m; ns !! n)) ->
  mods = mods'.
Proof.
  intros Hkeys Hbind. apply map_eq. intros m.
  specialize (Hkeys m). pose proof (Hbind m) as Hm.
  destruct (mods !! m) as [a|], (mods' !! m) as [b|]; simpl in Hm.
  - f_equal. apply map_eq. exact Hm.
  - destruct Hkeys as [H _]. destruct H as [x Hx]; [eexists; reflexivity|discriminate].
  - destruct Hkeys as [_ H]. destruct H as [x Hx]; [eexists; reflexivity|discriminate].
  - reflexivity.
Qed.

Section WithHost.
Context (host : Host).

Lemma rebind_keys g v w m :
  is_Some (modules (snd (rebind host g v w)) !! m) <-> is_Some (modules w !! m).
Proof.
  unfold rebind. destruct (qualname_of host g) as [[m' n']|]; [|reflexivity].
  destruct (modules w !! m') as [ns|] eqn:Hns; [|reflexivity]. simpl.
  destruct (decide (m' = m)) as [->|Hne].
  - rewrite lookup_insert_eq, Hns. split; intros _; eexists; reflexivity.
  - rewrite lookup_insert_ne by assumption. reflexivity.
Qed.

Lemma rebind_miss g v w m n :
  qualname_of host g <> Some (m, n) ->
  binding (snd (rebind host g v w)) m n = binding w m n.
Proof.
  intros Hg. unfold rebind. destruct (qualname_of host g) as [[m' n']|]; [|reflexivity].
  destruct (modules w !! m') as [ns|] eqn:Hns; [|reflexivity].
  unfold binding. simpl. destruct (decide (m' = m)) as [->|Hm].
  - rewrite lookup_insert_eq, Hns. simpl.
    apply lookup_insert_ne. congruence.
  - rewrite lookup_insert_ne by assumption. reflexivity.
Qed.

Lemma touched_wrap_one P w0 cell g w :
  touched host P w0 w -> P g -> touched host P w0 (snd (wrap_one host cell g w)).
Proof.
  intros (Hk & Hb & Ho) Hg.
  destruct (dict_mem g (wrapped_builtins w)) eqn:Hmem.
  - rewrite wrap_one_skip by assumption. split; [exact Hk|]. split; [exact Hb|exact Ho].
  - rewrite wrap_one_wrap by assumption.
    set (w2 := set_wrapped_builtins _ _).
    assert (original_builtins (snd (rebind host g (Substitute (mkWrapped cell g)) w2))
            = dict_set g g (original_builtins w)) as Horig
      by (rewrite rebind_frame; reflexivity).
    split; [|split].
    + intros m. rewrite rebind_keys. apply Hk.
    + intros m n. rewrite Horig.
      destruct (decide (qualname_of host g = Some (m, n))) as [Hq|Hq].
      * right. exists g. split; [apply dict_set_elem|exact Hq].
      * rewrite rebind_miss by exact Hq.
        destruct (Hb m n) as [Hsame|(g' & Hin & Hq')]; [left; exact Hsame|].
        right. exists g'. split; [|exact Hq'].
        destruct (decide (g = g')) as [->|Hne]; [apply dict_set_elem|].
        apply dict_set_elem_ne; assumption.
    + intros g' o. rewrite Horig. intros Hin.
      apply dict_set_elem_inv in Hin as [Heq|Hin]; [|apply Ho, Hin].
      injection Heq as -> ->. split; [reflexivity|exact Hg].
Qed.

Lemma touched_wrap_fold P w0 cell fs w :
  touched host P w0 w -> (forall g, g ∈ fs -> P g) ->
  touched host P w0 (fold_left (fun w' x => snd (wrap_one host cell x w')) fs w).
Proof.
  revert w. induction fs as [|g fs IH]; intros w Hw Hfs; [exact Hw|].
  simpl. apply IH.
  - apply touched_wrap_one; [exact Hw|apply Hfs; left].
  - intros g' Hg'. apply Hfs. right. exact Hg'.
Qed.

(** [enable] on a disabled tracer that holds no wrapper bookkeeping. *)
Lemma touched_enable P functions w :
  enabled w = false ->
  builtin_functions w = [] ->
  original_builtins w = [] ->
  (forall g, g ∈ default [] functions -> _is_builtin_function host g = true -> P g) ->
  touched host P w (snd (enable host functions w)).
Proof.
  intros Hdis Hb Ho HP. rewrite enable_world by exact Hdis.
  rewrite setup_world. simpl builtin_functions.
  set (start := set_cells _ _).
  assert (modules (registered host functions w) = modules w /\
          original_builtins (registered host functions w) = []) as [Hm Horig].
  { rewrite registered_fold.
    apply (register_fold_keeps host
             (fun x => modules x = modules w /\ original_builtins x = []));
      [intros x v H; exact H|intros x v H; exact H|].
    split; [reflexivity|exact Ho]. }
  assert (touched host P w start) as Hstart.
  { subst start. unfold touched, binding. simpl. rewrite Hm, Horig.
    split; [reflexivity|]. split; [left; reflexivity|].
    intros g o Hin. inversion Hin. }
  assert (forall g, g ∈ builtin_functions (registered host functions w) -> P g) as Hall.
  { intros g Hg. rewrite registered_fold in Hg.
    apply register_fold_builtin in Hg as [Hg|[Hin Hnat]].
    - simpl in Hg. rewrite Hb in Hg. inversion Hg.
    - apply HP; assumption. }
  pose proof (touched_wrap_fold P w
                (length (cells
                   (set_sys_trace (Some OwnTrace)
                      (set_original_trace_function
                         (sys_trace (registered host functions w))
                         (registered host functions w)))))
                (builtin_functions (registered host functions w)) start Hstart Hall)
    as (Hk & Hbind & Hrec).
  split; [exact Hk|]. split; [exact Hbind|exact Hrec].
Qed.

(** *** The restoring loop *)

Lemma restore_fold_keys items w m :
  is_Some (modules (fold_left (fun w p => snd (restore_one host p w)) items w) !! m)
  <-> is_Some (modules w !! m).
Proof.
  revert w. induction items as [|p items IH]; intros w; [reflexivity|].
  simpl. rewrite IH. unfold restore_one. apply rebind_keys.
Qed.

Lemma restore_fold_miss items w m n :
  (forall g o, (g, o) ∈ items -> qualname_of host g <> Some (m, n)) ->
  binding (fold_left (fun w p => snd (restore_one host p w)) items w) m n
  = binding w m n.
Proof.
  revert w. induction items as [|[g o] items IH]; intros w Hmiss; [reflexivity|].
  simpl. rewrite IH by (intros g' o' Hin; apply (Hmiss g' o'); right; exact Hin).
  unfold restore_one. apply rebind_miss. apply (Hmiss g o). left.
Qed.

Lemma restore_fold_hit items w m n :
  is_Some (modules w !! m) ->
  (exists g o, (g, o) ∈ items /\ qualname_of host g = Some (m, n)) ->
  exists g o, (g, o) ∈ items /\ qualname_of host g = Some (m, n) /\
    binding (fold_left (fun w p => snd (restore_one host p w)) items w) m n
    = Some (Original o).
Proof.
  intros Hm. induction items as [|[g o] items IH] using rev_ind;
    intros (g0 & o0 & Hin & Hq); [inversion Hin|].
  rewrite fold_left_app. simpl.
  destruct (decide (qualname_of host g = Some (m, n))) as [Hg|Hg].
  - exists g, o. split; [apply elem_of_app; right; left|]. split; [exact Hg|].
    unfold restore_one. simpl. apply rebind_binding_hit; [exact Hg|].
    apply restore_fold_keys, Hm.
  - apply elem_of_app in Hin as [Hin|Hin].
    + destruct IH as (g1 & o1 & Hin1 & Hq1 & Hb1); [exists g0, o0; auto|].
      exists g1, o1. split; [apply elem_of_app; left; exact Hin1|].
      split; [exact Hq1|].
      unfold restore_one at 1. simpl. rewrite rebind_miss by exact Hg. exact Hb1.
    + apply list_elem_of_singleton in Hin. injection Hin as -> ->. contradiction.
Qed.

Lemma disable_modules w :
  enabled w = true ->
  modules (snd (disable host w)) =
  modules (fold_left (fun w p => snd (restore_one host p w)) (original_builtins w) w).
Proof.
  intros Hen. rewrite disable_world by exact Hen. rewrite restore_world. simpl.
  set (w' := set_sys_trace (original_trace_function w) w).
  assert (forall items x y, modules x = modules y ->
            modules (fold_left (fun w p => snd (restore_one host p w)) items x)
            = modules (fold_left (fun w p => snd (restore_one host p w)) items y)) as Hfold.
  { induction items as [|p items IH]; intros x y Hxy; [exact Hxy|].
    simpl. apply IH. unfold restore_one, rebind.
    destruct (qualname_of host p.1) as [[m' n']|]; [|exact Hxy].
    rewrite Hxy. destruct (modules y !! m'); simpl; [reflexivity|exact Hxy]. }
  apply Hfold. reflexivity.
Qed.

(** The bindings after the session, from what the wrapping loop left. *)
Lemma session_bindings P w0 w m n :
  enabled w = true ->
  touched host P w0 w ->
  (forall g ns, P g -> qualname_of host g = Some (m, n) -> modules w0 !! m = Some ns ->
     ns !! n = Some (Original g)) ->
  (ns ← modules (snd (disable host w)) !! m; ns !! n) = binding w0 m n.
Proof.
  intros Hen (Hk & Hb & Ho) HP. rewrite disable_modules by exact Hen.
  change (binding (fold_left (fun w p => snd (restore_one host p w))
                     (original_builtins w) w) m n = binding w0 m n).
  destruct (decide (Exists (fun p => qualname_of host p.1 = Some (m, n))
                      (original_builtins w))) as [Hhit|Hmiss].
  - apply Exists_exists in Hhit as ([g o] & Hin & Hq). simpl in Hq.
    destruct (modules w0 !! m) as [ns|] eqn:Hns.
    + assert (is_Some (modules w !! m)) as Hloaded
        by (apply Hk; rewrite Hns; eexists; reflexivity).
      destruct (restore_fold_hit (original_builtins w) w m n Hloaded)
        as (g1 & o1 & Hin1 & Hq1 & Hb1); [exists g, o; auto|].
      rewrite Hb1. destruct (Ho g1 o1 Hin1) as [-> Hg1].
      pose proof (HP g1 ns Hg1 Hq1 eq_refl) as Hhome.
      unfold binding. rewrite Hns. simpl. symmetry. exact Hhome.
    + assert (modules (fold_left (fun w p => snd (restore_one host p w))
                         (original_builtins w) w) !! m = None) as Hnone.
      { apply eq_None_not_Some. rewrite restore_fold_keys, Hk, Hns.
        intros [x Hx]. discriminate. }
      unfold binding. rewrite Hnone, Hns. reflexivity.
  - rewrite restore_fold_miss.
    + destruct (Hb m n) as [Hsame|(g & Hin & Hq)]; [exact Hsame|].
      exfalso. apply Hmiss. apply Exists_exists. exists (g, g). auto.
    + intros g o Hin Hq. apply Hmiss. apply Exists_exists. exists (g, o). auto.
Qed.

Lemma disable_keys w m :
  enabled w = true ->
  is_Some (modules (snd (disable host w)) !! m) <-> is_Some (modules w !! m).
Proof.
  intros Hen. rewrite disable_modules by exact Hen. apply restore_fold_keys.
Qed.

(** *** The dict of substitutes *)

Lemma dict_mem_set {V} (k k' : Callable) (v : V) d :
  dict_mem k d = true -> dict_mem k (dict_set k' v d) = true.
Proof.
  unfold dict_mem at 1. intros Hin. apply bool_decide_eq_true_1 in Hin.
  apply list_elem_of_fmap in Hin as ([k0 v0] & Hk & Hin). simpl in Hk. subst k0.
  destruct (decide (k' = k)) as [->|Hne].
  - apply (dict_mem_elem k v), dict_set_elem.
  - apply (dict_mem_elem k v0), dict_set_elem_ne; assumption.
Qed.

Lemma wrap_one_mem cell g w x :
  x = g \/ dict_mem x (wrapped_builtins w) = true ->
  dict_mem x (wrapped_builtins (snd (wrap_one host cell g w))) = true.
Proof.
  intros Hx. destruct (dict_mem g (wrapped_builtins w)) eqn:Hmem.
  - rewrite wrap_one_skip by assumption. simpl.
    destruct Hx as [->|Hx]; assumption.
  - rewrite wrap_one_wrap by assumption. rewrite rebind_frame. simpl.
    destruct Hx as [->|Hx].
    + apply (dict_mem_elem g (mkWrapped cell g)), dict_set_elem.
    + apply dict_mem_set, Hx.
Qed.

Lemma wrap_fold_mem cell fs w x :
  x ∈ fs \/ dict_mem x (wrapped_builtins w) = true ->
  dict_mem x (wrapped_builtins
                (fold_left (fun w' g => snd (wrap_one host cell g w')) fs w)) = true.
Proof.
  revert w. induction fs as [|g fs IH]; intros w Hx.
  - destruct Hx as [Hx|Hx]; [inversion Hx|exact Hx].
  - simpl. apply IH. destruct Hx as [Hx|Hx].
    + apply elem_of_cons in Hx as [->|Hx]; [right|left; exact Hx].
      apply wrap_one_mem. left. reflexivity.
    + right. apply wrap_one_mem. right. exact Hx.
Qed.

Lemma enable_wraps functions w g :
  enabled w = false ->
  g ∈ default [] functions -> _is_builtin_function host g = true ->
  dict_mem g (wrapped_builtins (snd (enable host functions w))) = true.
Proof.
  intros Hdis Hin Hnat. rewrite enable_world by exact Hdis.
  rewrite setup_world. simpl. apply wrap_fold_mem. left.
  rewrite registered_fold. apply register_fold_builtin. right. auto.
Qed.

End WithHost.
End NamespaceFacts.

(** ** Module namespaces *)

Module Namespace.
Import Stats Py Tracer Runs MonadFacts WrapperFacts ControllerFacts TableFacts.
Import SessionFacts RebindFacts InstallFacts KeptFacts LifecycleFacts SetFacts.
Import NamespaceFacts.

(** X17. An opaque function whose binding cannot be written (it has no
    [__module__] or [__name__], or its module cannot be imported) is
    accepted without an error: [enable] returns normally and leaves every
    module namespace as it was, so no substitute is installed anywhere; the
    wrapper still records a substitute for each such function. *)
Theorem unresolvable_functions_are_not_installed (host : Host)
    (functions : option (list Callable)) (w : World) :
  enabled w = false ->
  builtin_functions w = [] ->
  original_builtins w = [] ->
  (forall g, g ∈ default [] functions -> _is_builtin_function host g = true ->
             unresolvable host (modules w) g) ->
  fst (enable host functions w) = Returns tt /\
  modules (snd (enable host functions w)) = modules w /\
  (forall g, g ∈ default [] functions -> _is_builtin_function host g = true ->
     dict_mem g (wrapped_builtins (snd (enable host functions w))) = true).
Proof.
  intros Hdis Hb Ho Hun.
  split; [apply enable_returns|]. split.
  - destruct (touched_enable host (unresolvable host (modules w)) functions w
                Hdis Hb Ho Hun) as (Hk & Hbind & Hrec).
    apply modules_eq; [exact Hk|].
    intros m n. destruct (Hbind m n) as [Hsame|(g & Hin & Hq)]; [exact Hsame|].
    destruct (Hrec g g Hin) as [_ Hg]. unfold unresolvable in Hg. rewrite Hq in Hg.
    assert (modules (snd (enable host functions w)) !! m = None) as Hnone.
    { apply eq_None_not_Some. rewrite Hk, Hg. intros [x Hx]. discriminate. }
    rewrite Hnone, Hg. reflexivity.
  - intros g Hin Hnat. apply enable_wraps; assumption.
Qed.

(** A native function without a name, in the small program. *)
Lemma unresolvable_functions_are_not_installed_witness :
  fst (enable Scenario.host (Some [Fn 5]) Scenario.fresh) = Returns tt /\
  modules (snd (enable Scenario.host (Some [Fn 5]) Scenario.fresh))
    = modules Scenario.fresh /\
  (forall g, g ∈ default [] (Some [Fn 5]) ->
     _is_builtin_function Scenario.host g = true ->
     dict_mem g (wrapped_builtins (snd (enable Scenario.host (Some [Fn 5])
                                          Scenario.fresh))) = true).
Proof.
  apply (unresolvable_functions_are_not_installed Scenario.host (Some [Fn 5])
           Scenario.fresh); try reflexivity.
  intros g Hg _. apply list_elem_of_singleton in Hg as ->. exact I.
Defined.

(** X18. A session gives the namespaces back: on a disabled tracer that
    holds no wrapper bookkeeping, when every opaque function of the list is
    what its own binding holds (or has no binding that can be written),
    [enable] followed by [disable] leaves every module namespace exactly as
    it was before [enable]. *)
Theorem session_restores_namespaces (host : Host)
    (functions : option (list Callable)) (w : World) :
  enabled w = false ->
  builtin_functions w = [] ->
  original_builtins w = [] ->
  (forall g, g ∈ default [] functions -> _is_builtin_function host g = true ->
             home_bound host (modules w) g) ->
  modules (snd (disable host (snd (enable host functions w)))) = modules w.
Proof.
  intros Hdis Hb Ho Hhome.
  pose proof (touched_enable host (home_bound host (modules w)) functions w
                Hdis Hb Ho Hhome) as Ht.
  assert (enabled (snd (enable host functions w)) = true) as Hen
    by apply enable_enables.
  apply modules_eq.
  - intros m. rewrite disable_keys by exact Hen. apply Ht.
  - intros m n.
    apply (session_bindings host (home_bound host (modules w)) w
             (snd (enable host functions w)) m n Hen Ht).
    intros g ns Hg Hq Hns. unfold home_bound in Hg. rewrite Hq, Hns in Hg. exact Hg.
Qed.

(** [enable([sqrt, floor])] and [disable()] in the small program. *)
Lemma session_restores_namespaces_witness :
  modules (snd (disable Scenario.host
                  (snd (enable Scenario.host
                          (Some [Scenario.sqrt_fn; Scenario.floor_fn]) Scenario.fresh))))
  = modules Scenario.fresh.
Proof.
  apply (session_restores_namespaces Scenario.host
           (Some [Scenario.sqrt_fn; Scenario.floor_fn]) Scenario.fresh);
    try reflexivity.
  intros g Hg _. simpl in Hg.
  apply elem_of_cons in Hg as [->|Hg]; [vm_compute; reflexivity|].
  apply list_elem_of_singleton in Hg as ->. vm_compute. reflexivity.
Defined.

End Namespace.

(** ** The name column of the report *)

Module ReportFacts.
Import Report.

Lemma length_append (s1 s2 : string) :
  String.length (String.append s1 s2) = (String.length s1 + String.length s2)%nat.
Proof. induction s1 as [|c s1 IH]; simpl; [reflexivity|rewrite IH; reflexivity]. Qed.

Lemma length_spaces (n : nat) : String.length (spaces n) = n.
Proof. induction n as [|n IH]; simpl; [reflexivity|rewrite IH; reflexivity]. Qed.

Lemma length_substring (s : string) (n m : nat) :
  (n + m <= String.length s)%nat -> String.length (String.substring n m s) = m.
Proof.
  revert n m. induction s as [|c s IH]; intros n m Hle; simpl in Hle.
  - assert (n = 0%nat) by lia. assert (m = 0%nat) by lia. subst. reflexivity.
  - destruct n as [|n'].
    + destruct m as [|m']; [reflexivity|]. simpl. rewrite (IH 0%nat m') by lia.
      reflexivity.
    + simpl. apply IH. lia.
Qed.

Lemma substring_all (s : string) : String.substring 0 (String.length s) s = s.
Proof. induction s as [|c s IH]; simpl; [reflexivity|rewrite IH; reflexivity]. Qed.

Lemma substring_split (s : string) (n : nat) :
  (n <= String.length s)%nat ->
  s = String.append (String.substring 0 n s)
        (String.substring n (String.length s - n) s).
Proof.
  revert n. induction s as [|c s IH]; intros n Hle; simpl in Hle.
  - assert (n = 0%nat) by lia. subst. reflexivity.
  - destruct n as [|n'].
    + change (String.substring 0 0 (String c s)) with EmptyString.
      rewrite Nat.sub_0_r, substring_all. reflexivity.
    + change (String c s
              = String c (String.append (String.substring 0 n' s)
                            (String.substring n' (String.length s - n') s))).
      f_equal. apply IH. lia.
Qed.

Lemma length_shorten (s : string) : (String.length (shorten s) <= 38)%nat.
Proof.
  unfold shorten. destruct (Nat.ltb 38 (String.length s)) eqn:E.
  - apply Nat.ltb_lt in E. rewrite length_append. unfold last_chars.
    rewrite length_substring by lia. simpl. lia.
  - apply Nat.ltb_ge in E. exact E.
Qed.

End ReportFacts.

Module Labels.
Import Report ReportFacts.

(** X19. The name column of the report is always exactly 40 characters
    wide, whatever the key: the label is never longer than 38 characters,
    the column is the label followed by spaces only, at least two of them, so
    a long name cannot push the figures of its row out of their columns. *)
Theorem name_column_is_aligned (k : Described) :
  String.length (name_column k) = 40%nat /\
  (String.length (shorten (func_name k)) <= 38)%nat /\
  exists pad,
    name_column k = String.append (shorten (func_name k)) (spaces pad) /\
    (2 <= pad)%nat.
Proof.
  pose proof (length_shorten (func_name k)) as Hle.
  split; [|split].
  - unfold name_column, left_align. rewrite length_append, length_spaces. lia.
  - exact Hle.
  - exists (40 - String.length (shorten (func_name k)))%nat.
    split; [reflexivity|lia].
Qed.

(** X20. A name longer than 38 characters is cut from the front: its label
    is three dots followed by its last 35 characters, 38 characters in all,
    and what is dropped is the beginning of the name; the labels of two long
    names with the same last 35 characters are the same. *)
Theorem long_names_keep_their_tail (s : string) :
  (38 < String.length s)%nat ->
  shorten s = String.append "..." (last_chars 35 s) /\
  String.length (last_chars 35 s) = 35%nat /\
  String.length (shorten s) = 38%nat /\
  (exists dropped,
     s = String.append dropped (last_chars 35 s) /\
     String.length dropped = (String.length s - 35)%nat) /\
  (forall s', (38 < String.length s')%nat ->
     last_chars 35 s' = last_chars 35 s -> shorten s' = shorten s).
Proof.
  intros Hlong.
  assert (shorten s = String.append "..." (last_chars 35 s)) as Hs.
  { unfold shorten. apply Nat.ltb_lt in Hlong. rewrite Hlong. reflexivity. }
  assert (String.length (last_chars 35 s) = 35%nat) as Hlast
    by (unfold last_chars; apply length_substring; lia).
  split; [exact Hs|]. split; [exact Hlast|]. split; [|split].
  - rewrite Hs, length_append, Hlast. reflexivity.
  - exists (String.substring 0 (String.length s - 35) s). split.
    + unfold last_chars.
      replace 35%nat with (String.length s - (String.length s - 35))%nat at 3 by lia.
      apply substring_split. lia.
    + apply length_substring. lia.
  - intros s' Hlong' Heq. rewrite Hs. unfold shorten.
    apply Nat.ltb_lt in Hlong'. rewrite Hlong', Heq. reflexivity.
Qed.

(** The qualified name of [compute_weighted_average], 50 characters. *)
Lemma long_names_keep_their_tail_witness :
  shorten (func_name long_key)
    = String.append "..." (last_chars 35 (func_name long_key)) /\
  String.length (last_chars 35 (func_name long_key)) = 35%nat /\
  String.length (shorten (func_name long_key)) = 38%nat /\
  (exists dropped,
     func_name long_key = String.append dropped (last_chars 35 (func_name long_key)) /\
     String.length dropped = (String.length (func_name long_key) - 35)%nat) /\
  (forall s', (38 < String.length s')%nat ->
     last_chars 35 s' = last_chars 35 (func_name long_key) ->
     shorten s' = shorten (func_name long_key)).
Proof.
  apply (long_names_keep_their_tail (func_name long_key)).
  vm_compute. lia.
Defined.

(** X21. A name of at most 38 characters is its own label, and the label
    of a name says which case it was: a label is the name itself exactly when
    the name has at most 38 characters. *)
Theorem short_names_are_kept (s : string) :
  (String.length s <= 38)%nat <-> shorten s = s.
Proof.
  split.
  - intros Hle. unfold shorten. apply Nat.ltb_ge in Hle. rewrite Hle. reflexivity.
  - intros Heq. rewrite <- Heq. apply length_shorten.
Qed.

End Labels.

(** ** Events that match no traced function *)

Module Unmatched.
Import Stats Py Tracer Runs MonadFacts WrapperFacts ControllerFacts TableFacts.
Import HookChain SessionFacts SubstituteFacts.

Lemma bookkeeping_unmatched (host : Host) frame event now w :
  event_matches host w frame event = false ->
  snd (bookkeeping host frame event now w) = w.
Proof.
  intros Hm.
  destruct (bookkeeping_outcome host frame event now w) as (func & Hret & Hmatch & _).
  rewrite Hm in Hmatch. destruct func; [discriminate|].
  revert Hret. unfold bookkeeping.
  destruct (String.eqb event "call").
  - rewrite bind_gets.
    destruct (find_traced host (f_code frame) (traced_functions w));
      [|reflexivity].
    rewrite bind_modify. simpl. discriminate.
  - destruct (String.eqb event "return"); [|reflexivity].
    rewrite bind_gets.
    destruct (call_stack w !! frame_id frame) as [[f start_time]|]; [|reflexivity].
    rewrite bind_modify.
    rewrite bind_returns with (a := tt) by apply record_returns.
    simpl. discriminate.
Qed.

(** X22. While tracing is enabled and none of the names the trace function
    itself looks up ([hasattr], [id], [print] and the others) is bound to a
    substitute, an event that matches no traced function (a ['call'] of
    other code, a ['return'] of a frame without an open call context, or any
    other kind of event, such as ['line'] or ['exception']) leaves the
    tracer as it was: no statistics, no call context and no registration
    changes; the only effect is the call of the captured hook. *)
Theorem unmatched_event_records_nothing (host : Host) (w : World) (frame : Frame)
    (event : string) (arg : Value) (now : float) :
  enabled w = true ->
  helpers_pristine w ->
  event_matches host w frame event = false ->
  exists r log,
    _trace_function host frame event arg now w = (Returns r, set_forwarded log w).
Proof.
  intros Hen _ Hm.
  destruct (trace_function_enabled host frame event arg now w Hen) as (r & log & E).
  rewrite (bookkeeping_unmatched host frame event now w Hm) in E.
  exists r, log. exact E.
Qed.

(** A ['line'] event in the frame of [work]. *)
Lemma unmatched_event_records_nothing_witness :
  exists r log,
    _trace_function Scenario.host Scenario.work_frame "line" VNone 1
      Scenario.work_session
    = (Returns r, set_forwarded log Scenario.work_session).
Proof.
  apply (unmatched_event_records_nothing Scenario.host Scenario.work_session
           Scenario.work_frame "line" VNone 1);
    [reflexivity|apply pristine_without_modules; reflexivity|reflexivity].
Defined.

End Unmatched.
